(** * portfolio-3d: the combat and bookkeeping logic of [src/app/page.tsx]

    The page is one React component tree.  [Portfolio] owns the game state
    (the [useState] hooks [gameState], [showParticles], [dragonAttacks]) and
    the handlers; [Scene] mounts [DragonBoss] and one [Fireball] per fireball
    attack, whose [useFrame] callbacks run once per rendered frame; timed
    effects are one-shot [setTimeout] callbacks.

    The embedding keeps what the JavaScript does with these pieces:

    - a handler is a function of the render it was created in: wherever the
      source reads the variable [gameState], the model reads an explicit
      argument [gameState] (the snapshot of that render), and wherever the
      source passes an updater [(prev) => ...] to a state setter, the model
      applies it to the stored state;
    - a [setTimeout] callback is a value of type [Callback]; the callback
      armed by [handleDragonAttack] carries the [gameState] it closed over;
    - React renders again between two events, so a key, a click and a frame
      run the handlers of the latest render, and the callbacks of one frame
      all belong to the same render; a timer never fires before it is due;
    - integer quantities (health, experience, damage, milliseconds) are [Z],
      coordinates and seconds are exact rationals [Q] (the rounding of
      floating point numbers is not modelled);
    - the inventory and the [Partial] cost and reward objects are maps from
      key names to numbers.

    [Character] is a component of its own: its hooks and the position of
    its mesh make a [CharacterState], and nothing of it reaches [gameState],
    since the [onMove] it reports to is an empty function (lines 574-576).

    Left out: what is only drawn (the meshes and their colours but for the
    equipment's, the rotation and the blinking of the character, the aim of
    the dragon, the particles) and the hooks [selectedStation] and
    [battleStarted], which no handler reads; the layout and the build
    configuration, the other two files, are left out as well. *)

From Stdlib Require Import ZArith QArith Qround Qminmax Lia Lqa String.
From stdpp Require Import gmap strings list fin_maps.

Local Open Scope Z_scope.

(** ** Numbers *)

(** [a < b] on rationals, as a boolean. *)
Definition Qlt_bool (a b : Q) : bool := negb (Qle_bool b a).

(** [Math.pow(x, 2)]. *)
Definition Math_pow2 (x : Q) : Q := (x * x)%Q.

(** [Math.sqrt(s) < c] for a sum of squares [s] and a positive literal [c],
    decided without the root: the square root is increasing, so the test
    holds exactly when [s < c * c]. *)
Definition Math_sqrt_lt (s c : Q) : bool := Qlt_bool s (c * c).

(** [Math.max(0, x)] on integers and on rationals, [Math.min(x, 1)]. *)
Definition Math_max0 (x : Z) : Z := Z.max 0 x.
Definition Math_max0Q (x : Q) : Q := Qmax 0 x.
Definition Math_min1 (x : Q) : Q := Qmin x 1.

(** A position [[x, y, z]]. *)
Definition Vec3 : Type := Q * Q * Q.
Definition at0 (p : Vec3) : Q := p.1.1.
Definition at1 (p : Vec3) : Q := p.1.2.
Definition at2 (p : Vec3) : Q := p.2.

(** The planar (x, z) squared distance under every [Math.sqrt] of the page. *)
Definition planar2 (p q : Vec3) : Q :=
  (Math_pow2 (at0 p - at0 q) + Math_pow2 (at2 p - at2 q))%Q.

(** [s.includes(sub)] on strings. *)
Fixpoint includes (s sub : string) : bool :=
  String.prefix sub s ||
  match s with
  | EmptyString => false
  | String _ rest => includes rest sub
  end.

(** [o[key] || 0] for a numeric property that may be absent. *)
Definition or0 (o : option Z) : Z := default 0 o.

(** ** The data model (lines 13-53) *)

Record Equipment := mkEquipment {
  weapon : string;
  armor : string;
  shield : string
}.

Record GameState := mkGameState {
  level : Z;
  experience : Z;
  health : Z;
  maxHealth : Z;
  mana : Z;
  maxMana : Z;
  inventory : gmap string Z;
  equipment : Equipment;
  unlockedSections : list string;
  isInBattle : bool;
  dragonHealth : Z;
  maxDragonHealth : Z;
  playerPosition : Vec3;
  dragonPosition : Vec3;
  isAttacking : bool;
  isDodging : bool;
  lastAttackTime : Z;
  invulnerable : bool
}.

Inductive AttackType := fireball | breath | charge | aoe.

Module DragonAttack.
(** [id] is the number [n] of the string [attack_n] (the millisecond clock
    when the attack was made); ids are only ever compared for equality. *)
Record t := mk {
  id : Z;
  type : AttackType;
  position : Vec3;
  target : Vec3;
  startTime : Q;
  duration : Z;
  damage : Z
}.
End DragonAttack.
Abbreviation DragonAttack := DragonAttack.t.

(** ** Spread updates [{ ...prev, field: value }] *)

Definition with_progress (lv ex hp mhp mn mmn : Z) (g : GameState) : GameState :=
  mkGameState lv ex hp mhp mn mmn
    (inventory g) (equipment g) (unlockedSections g) (isInBattle g)
    (dragonHealth g) (maxDragonHealth g) (playerPosition g) (dragonPosition g)
    (isAttacking g) (isDodging g) (lastAttackTime g) (invulnerable g).

Definition with_health (v : Z) (g : GameState) : GameState :=
  with_progress (level g) (experience g) v (maxHealth g) (mana g) (maxMana g) g.

Definition with_inventory (v : gmap string Z) (g : GameState) : GameState :=
  mkGameState (level g) (experience g) (health g) (maxHealth g) (mana g) (maxMana g)
    v (equipment g) (unlockedSections g) (isInBattle g)
    (dragonHealth g) (maxDragonHealth g) (playerPosition g) (dragonPosition g)
    (isAttacking g) (isDodging g) (lastAttackTime g) (invulnerable g).

Definition with_equipment (v : Equipment) (g : GameState) : GameState :=
  mkGameState (level g) (experience g) (health g) (maxHealth g) (mana g) (maxMana g)
    (inventory g) v (unlockedSections g) (isInBattle g)
    (dragonHealth g) (maxDragonHealth g) (playerPosition g) (dragonPosition g)
    (isAttacking g) (isDodging g) (lastAttackTime g) (invulnerable g).

Definition with_unlockedSections (v : list string) (g : GameState) : GameState :=
  mkGameState (level g) (experience g) (health g) (maxHealth g) (mana g) (maxMana g)
    (inventory g) (equipment g) v (isInBattle g)
    (dragonHealth g) (maxDragonHealth g) (playerPosition g) (dragonPosition g)
    (isAttacking g) (isDodging g) (lastAttackTime g) (invulnerable g).

Definition with_isInBattle (v : bool) (g : GameState) : GameState :=
  mkGameState (level g) (experience g) (health g) (maxHealth g) (mana g) (maxMana g)
    (inventory g) (equipment g) (unlockedSections g) v
    (dragonHealth g) (maxDragonHealth g) (playerPosition g) (dragonPosition g)
    (isAttacking g) (isDodging g) (lastAttackTime g) (invulnerable g).

Definition with_dragonHealth (v : Z) (g : GameState) : GameState :=
  mkGameState (level g) (experience g) (health g) (maxHealth g) (mana g) (maxMana g)
    (inventory g) (equipment g) (unlockedSections g) (isInBattle g)
    v (maxDragonHealth g) (playerPosition g) (dragonPosition g)
    (isAttacking g) (isDodging g) (lastAttackTime g) (invulnerable g).

Definition with_playerPosition (v : Vec3) (g : GameState) : GameState :=
  mkGameState (level g) (experience g) (health g) (maxHealth g) (mana g) (maxMana g)
    (inventory g) (equipment g) (unlockedSections g) (isInBattle g)
    (dragonHealth g) (maxDragonHealth g) v (dragonPosition g)
    (isAttacking g) (isDodging g) (lastAttackTime g) (invulnerable g).

Definition with_isAttacking (v : bool) (g : GameState) : GameState :=
  mkGameState (level g) (experience g) (health g) (maxHealth g) (mana g) (maxMana g)
    (inventory g) (equipment g) (unlockedSections g) (isInBattle g)
    (dragonHealth g) (maxDragonHealth g) (playerPosition g) (dragonPosition g)
    v (isDodging g) (lastAttackTime g) (invulnerable g).

Definition with_isDodging (v : bool) (g : GameState) : GameState :=
  mkGameState (level g) (experience g) (health g) (maxHealth g) (mana g) (maxMana g)
    (inventory g) (equipment g) (unlockedSections g) (isInBattle g)
    (dragonHealth g) (maxDragonHealth g) (playerPosition g) (dragonPosition g)
    (isAttacking g) v (lastAttackTime g) (invulnerable g).

Definition with_lastAttackTime (v : Z) (g : GameState) : GameState :=
  mkGameState (level g) (experience g) (health g) (maxHealth g) (mana g) (maxMana g)
    (inventory g) (equipment g) (unlockedSections g) (isInBattle g)
    (dragonHealth g) (maxDragonHealth g) (playerPosition g) (dragonPosition g)
    (isAttacking g) (isDodging g) v (invulnerable g).

Definition with_invulnerable (v : bool) (g : GameState) : GameState :=
  mkGameState (level g) (experience g) (health g) (maxHealth g) (mana g) (maxMana g)
    (inventory g) (equipment g) (unlockedSections g) (isInBattle g)
    (dragonHealth g) (maxDragonHealth g) (playerPosition g) (dragonPosition g)
    (isAttacking g) (isDodging g) (lastAttackTime g) v.

(** ** The runtime around the handlers *)

(** The [setTimeout] callbacks of the page.  [RemoveAttack] is the arrow
    function of [handleDragonAttack] (lines 750-764): it mentions the
    variables [gameState] and [handlePlayerHit] of the render that created
    it, so the closure holds that render's [gameState]. *)
Inductive Callback :=
| ResetAttackAnimation
| EndInvulnerability
| RemoveAttack (gameState : GameState) (attack : DragonAttack)
| HideParticles.

Record Timer := mkTimer {
  due : Z;
  callback : Callback
}.

(** The local state of a mounted [DragonBoss] (lines 420-421). *)
Record DragonBossState := mkDragonBossState {
  attackCooldown : Q;
  currentAttackPattern : nat
}.

(** Everything that persists between two callbacks:
    - [st_gameState], [st_showParticles], [st_dragonAttacks]: the hooks of
      [Portfolio] (lines 666-701);
    - [st_dragonBoss]: the hooks of [DragonBoss] while it is mounted;
    - [st_hasHit]: the ids of the mounted [Fireball]s whose [hasHit] is true;
    - [timers]: the armed [setTimeout] callbacks, oldest first;
    - [clock]: [Date.now()]; [loadTime]: its value when the canvas clock
      started; [lastFrame]: its value at the previous frame. *)
Record World := mkWorld {
  st_gameState : GameState;
  st_showParticles : bool;
  st_dragonAttacks : list DragonAttack;
  st_dragonBoss : option DragonBossState;
  st_hasHit : list Z;
  timers : list Timer;
  clock : Z;
  loadTime : Z;
  lastFrame : Z
}.

Definition setGameState (f : GameState -> GameState) (w : World) : World :=
  mkWorld (f (st_gameState w)) (st_showParticles w) (st_dragonAttacks w)
    (st_dragonBoss w) (st_hasHit w) (timers w) (clock w) (loadTime w) (lastFrame w).

Definition setShowParticles (v : bool) (w : World) : World :=
  mkWorld (st_gameState w) v (st_dragonAttacks w)
    (st_dragonBoss w) (st_hasHit w) (timers w) (clock w) (loadTime w) (lastFrame w).

Definition setDragonAttacks (f : list DragonAttack -> list DragonAttack) (w : World) : World :=
  mkWorld (st_gameState w) (st_showParticles w) (f (st_dragonAttacks w))
    (st_dragonBoss w) (st_hasHit w) (timers w) (clock w) (loadTime w) (lastFrame w).

Definition setDragonBoss (v : option DragonBossState) (w : World) : World :=
  mkWorld (st_gameState w) (st_showParticles w) (st_dragonAttacks w)
    v (st_hasHit w) (timers w) (clock w) (loadTime w) (lastFrame w).

Definition setHasHit (f : list Z -> list Z) (w : World) : World :=
  mkWorld (st_gameState w) (st_showParticles w) (st_dragonAttacks w)
    (st_dragonBoss w) (f (st_hasHit w)) (timers w) (clock w) (loadTime w) (lastFrame w).

Definition setTimers (v : list Timer) (w : World) : World :=
  mkWorld (st_gameState w) (st_showParticles w) (st_dragonAttacks w)
    (st_dragonBoss w) (st_hasHit w) v (clock w) (loadTime w) (lastFrame w).

Definition setClock (v : Z) (w : World) : World :=
  mkWorld (st_gameState w) (st_showParticles w) (st_dragonAttacks w)
    (st_dragonBoss w) (st_hasHit w) (timers w) v (loadTime w) (lastFrame w).

Definition setLastFrame (v : Z) (w : World) : World :=
  mkWorld (st_gameState w) (st_showParticles w) (st_dragonAttacks w)
    (st_dragonBoss w) (st_hasHit w) (timers w) (clock w) (loadTime w) v.

(** [setTimeout(cb, delay)]: armed behind the timers already waiting. *)
Definition setTimeout (cb : Callback) (delay : Z) (w : World) : World :=
  setTimers (timers w ++ [mkTimer (clock w + delay) cb]) w.

(** ** Combat handlers of [Portfolio] (lines 704-765) *)

(** [handlePlayerAttack] (lines 704-729).  The cooldown test, the range test
    and the damage read the render's [gameState]; the two updaters work on
    the stored state. *)
Definition handlePlayerAttack (gameState : GameState) (w : World) : World :=
  let now := clock w in
  if now - lastAttackTime gameState <? 500 then w
  else
    let w := setGameState (fun prev => with_lastAttackTime now (with_isAttacking true prev)) w in
    let w :=
      if Math_sqrt_lt (planar2 (playerPosition gameState) (dragonPosition gameState)) 8 then
        let damage :=
          level gameState * 10 +
          (if bool_decide (weapon (equipment gameState) = "Diamond Sword") then 50 else 20) in
        setGameState (fun prev => with_dragonHealth (Math_max0 (dragonHealth prev - damage)) prev) w
      else w in
    setTimeout ResetAttackAnimation 300 w.

(** [handlePlayerHit] (lines 731-744). *)
Definition handlePlayerHit (gameState : GameState) (damage : Z) (w : World) : World :=
  if invulnerable gameState then w
  else
    let w :=
      setGameState
        (fun prev => with_invulnerable true (with_health (Math_max0 (health prev - damage)) prev)) w in
    setTimeout EndInvulnerability 1000 w.

(** [handleDragonAttack] (lines 746-765): the attack joins the list and its
    removal is armed, closed over this render's [gameState]. *)
Definition handleDragonAttack (gameState : GameState) (attack : DragonAttack) (w : World) : World :=
  let w := setDragonAttacks (fun prev => prev ++ [attack]) w in
  setTimeout (RemoveAttack gameState attack) (DragonAttack.duration attack) w.

(** The AOE test of the removal callback (lines 754-762). *)
Definition aoe_in_radius (gameState : GameState) (attack : DragonAttack) : bool :=
  Math_sqrt_lt (planar2 (playerPosition gameState) (DragonAttack.target attack)) 3.

(** What each callback does when its timer fires.  Removing an attack from
    [dragonAttacks] unmounts its [Fireball], whose [hasHit] goes with it. *)
Definition run_callback (cb : Callback) (w : World) : World :=
  match cb with
  | ResetAttackAnimation => setGameState (fun prev => with_isAttacking false prev) w
  | EndInvulnerability => setGameState (fun prev => with_invulnerable false prev) w
  | HideParticles => setShowParticles false w
  | RemoveAttack gameState attack =>
      let w :=
        setDragonAttacks
          (fun prev => filter (fun a => DragonAttack.id a ≠ DragonAttack.id attack) prev) w in
      let w := setHasHit (fun ids => filter (fun i => i ≠ DragonAttack.id attack) ids) w in
      match DragonAttack.type attack with
      | aoe =>
          if aoe_in_radius gameState attack
          then handlePlayerHit gameState (DragonAttack.damage attack) w
          else w
      | _ => w
      end
  end.

(** The dodge key (lines 768-788). *)
Definition dodge_keyDown (gameState : GameState) (key : string) (w : World) : World :=
  if bool_decide (key = "shift") && isInBattle gameState
  then setGameState (fun prev => with_isDodging true prev) w
  else w.

Definition dodge_keyUp (key : string) (w : World) : World :=
  if bool_decide (key = "shift")
  then setGameState (fun prev => with_isDodging false prev) w
  else w.

(** ** Portfolio handlers (lines 791-872) *)

(** The updater of [gainExperience] (lines 792-811). [Z]'s division rounds
    down, as [Math.floor] of the quotient does. *)
Definition newLevel_of (newExp : Z) : Z := newExp / 1000 + 1.

Definition gainExperience_updater (amount : Z) (prev : GameState) : GameState :=
  let newExp := experience prev + amount in
  let newLevel := newLevel_of newExp in
  let leveledUp := level prev <? newLevel in
  with_progress newLevel newExp
    (if leveledUp then maxHealth prev + 20 else health prev)
    (if leveledUp then maxHealth prev + 20 else maxHealth prev)
    (if leveledUp then maxMana prev + 10 else mana prev)
    (if leveledUp then maxMana prev + 10 else maxMana prev)
    prev.

(** [gainExperience] (lines 791-812); a level-up also shows the particles
    for two seconds. *)
Definition gainExperience (amount : Z) (w : World) : World :=
  let prev := st_gameState w in
  let leveledUp := level prev <? newLevel_of (experience prev + amount) in
  let w := if leveledUp then setTimeout HideParticles 2000 (setShowParticles true w) else w in
  setGameState (gainExperience_updater amount) w.

(** [Object.keys(o)]. *)
Definition Object_keys (o : gmap string Z) : list string := (map_to_list o).*1.

(** [{ ...a, ...b }]: the properties of [b] win. *)
Definition spread (a b : gmap string Z) : gmap string Z := b ∪ a.

(** [addToInventory] (lines 814-826). *)
Definition addToInventory (items : gmap string Z) (w : World) : World :=
  setGameState
    (fun prev =>
       with_inventory
         (spread (inventory prev)
            (foldl (fun acc key => <[key := or0 (inventory prev !! key) + or0 (items !! key)]> acc)
               ∅ (Object_keys items)))
         prev) w.

(** [unlockSection] (lines 828-833). *)
Definition unlockSection (section : string) (w : World) : World :=
  setGameState (fun prev => with_unlockedSections (unlockedSections prev ++ [section]) prev) w.

(** [inventory[key] >= n]: false when the property is absent. *)
Definition has_at_least (o : option Z) (n : Z) : bool :=
  match o with
  | Some v => n <=? v
  | None => false
  end.

(** [canCraft] (lines 836-838), read from the render's [gameState]. *)
Definition canCraft (gameState : GameState) (cost : gmap string Z) : bool :=
  forallb (fun key => has_at_least (inventory gameState !! key) (or0 (cost !! key)))
    (Object_keys cost).

(** The updater of [craftEquipment] (lines 841-857). *)
Definition craftEquipment_updater (item : string) (cost : gmap string Z) (prev : GameState)
  : GameState :=
  with_equipment
    (mkEquipment
       (if includes item "Sword" then item else weapon (equipment prev))
       (if includes item "Armor" then item else armor (equipment prev))
       (if includes item "Shield" then item else shield (equipment prev)))
    (with_inventory
       (spread (inventory prev)
          (foldl (fun acc key => <[key := or0 (inventory prev !! key) - or0 (cost !! key)]> acc)
             ∅ (Object_keys cost)))
       prev).

(** [craftEquipment] (lines 835-860). *)
Definition craftEquipment (gameState : GameState) (item : string) (cost : gmap string Z)
  (w : World) : World :=
  if canCraft gameState cost then
    gainExperience 100 (setGameState (craftEquipment_updater item cost) w)
  else w.

(** [startBattle] (lines 862-869). *)
Definition startBattle (w : World) : World :=
  setGameState (fun prev => with_playerPosition (0, 0, 0)%Q (with_isInBattle true prev)) w.

(** [readyForBattle] (line 872). *)
Definition readyForBattle (gameState : GameState) : bool :=
  (4 <=? Z.of_nat (length (unlockedSections gameState))) && (5 <=? level gameState).

(** The click handler of "Try Again" (lines 1374-1381). *)
Definition tryAgain (w : World) : World :=
  setGameState
    (fun prev =>
       with_dragonHealth (maxDragonHealth prev)
         (with_isInBattle false (with_health (maxHealth prev) prev))) w.

(** ** [DragonBoss] (lines 404-457) *)

Definition patterns : list AttackType := [fireball; breath; aoe; charge].

(** What one frame reads from outside the page: the value of
    [Math.sin(state.clock.elapsedTime * 0.5)] of the flying animation and the
    two draws of [Math.random()], in program order. *)
Record FrameInput := mkFrameInput {
  sinFly : Q;
  random1 : Q;
  random2 : Q
}.

(** [newAttack] (lines 439-450).  The mesh sits at the [position] prop in x
    and z; its y was set by the flying animation just above. *)
Definition DragonBoss_newAttack (position playerPosition : Vec3) (now : Z) (elapsedTime : Q)
  (inp : FrameInput) (currentAttackPattern : nat) : DragonAttack :=
  let attackType :=
    default fireball (patterns !! (currentAttackPattern mod length patterns)%nat) in
  DragonAttack.mk now attackType
    (at0 position, (at1 position + sinFly inp * 2)%Q, at2 position)
    playerPosition
    (elapsedTime * 1000)%Q
    (match attackType with fireball => 2000 | aoe => 3000 | _ => 1500 end)
    (20 + Qfloor (random1 inp * 10)).

(** The [useFrame] callback of [DragonBoss] (lines 423-457), for the props
    [position], [playerPosition] and [onAttack] and the hooks' values [st] of
    the render it belongs to.  The result is the hooks' next values and the
    world after [onAttack]. *)
Definition DragonBoss_useFrame (position playerPosition : Vec3)
  (onAttack : DragonAttack -> World -> World) (elapsedTime delta : Q) (inp : FrameInput)
  (st : DragonBossState) (w : World) : DragonBossState * World :=
  let cooled := Math_max0Q (attackCooldown st - delta) in
  if Qle_bool (attackCooldown st) 0 then
    let newAttack :=
      DragonBoss_newAttack position playerPosition (clock w) elapsedTime inp
        (currentAttackPattern st) in
    (mkDragonBossState (2 + random2 inp * 2)%Q (currentAttackPattern st + 1)%nat,
     onAttack newAttack w)
  else
    (mkDragonBossState cooled (currentAttackPattern st), w).

(** ** [Fireball] (lines 56-102) *)

(** [progress] (lines 62-63). *)
Definition Fireball_progress (attack : DragonAttack) (elapsedTime : Q) : Q :=
  let elapsed := ((elapsedTime * 1000 - DragonAttack.startTime attack) / 1000)%Q in
  Math_min1 (elapsed / (inject_Z (DragonAttack.duration attack) / 1000))%Q.

(** The mesh position written at lines 69-71. *)
Definition Fireball_position (attack : DragonAttack) (progress : Q) : Vec3 :=
  let startPos := DragonAttack.position attack in
  let targetPos := DragonAttack.target attack in
  ((at0 startPos + (at0 targetPos - at0 startPos) * progress)%Q,
   (at1 startPos + (at1 targetPos - at1 startPos) * progress)%Q,
   (at2 startPos + (at2 targetPos - at2 startPos) * progress)%Q).

(** The collision test of lines 74-78. *)
Definition Fireball_collides (attack : DragonAttack) (elapsedTime : Q) : bool :=
  let progress := Fireball_progress attack elapsedTime in
  let mesh := Fireball_position attack progress in
  Math_sqrt_lt (planar2 mesh (DragonAttack.target attack)) 1.5 && Qlt_bool 0.8 progress.

(** One frame of a mounted [Fireball] whose hook [hasHit] has the given
    value: the next value of [hasHit] and the argument of the call of
    [onHit], if there is one. *)
Definition Fireball_step (attack : DragonAttack) (hasHit : bool) (elapsedTime : Q)
  : bool * option Z :=
  if hasHit then (true, None)
  else if Fireball_collides attack elapsedTime then (true, Some (DragonAttack.damage attack))
  else (false, None).

(** What the component returns (lines 89-101): nothing once [hasHit]. *)
Definition Fireball_rendered (hasHit : bool) : bool := negb hasHit.

(** Successive frames of one [Fireball], given by the canvas clock at each:
    the calls of [onHit], one entry per frame, and the final [hasHit]. *)
Fixpoint Fireball_run (attack : DragonAttack) (hasHit : bool) (frames : list Q)
  : list (option Z) * bool :=
  match frames with
  | [] => ([], hasHit)
  | elapsedTime :: rest =>
      let '(hasHit', call) := Fireball_step attack hasHit elapsedTime in
      let '(calls, final) := Fireball_run attack hasHit' rest in
      (call :: calls, final)
  end.

(** ** [Scene] (lines 613-632) *)

Inductive AttackComponent :=
| FireballComponent (attack : DragonAttack)
| AOEIndicatorComponent (position : Vec3) (radius : Q) (duration : Z).

(** What [Scene] mounts for an attack (lines 625-632). *)
Definition Scene_attack (attack : DragonAttack) : option AttackComponent :=
  match DragonAttack.type attack with
  | fireball => Some (FireballComponent attack)
  | aoe =>
      Some (AOEIndicatorComponent (DragonAttack.target attack) 3 (DragonAttack.duration attack))
  | _ => None
  end.

(** The canvas clock, in seconds, and the time since the previous frame. *)
Definition elapsedTime (w : World) : Q := (inject_Z (clock w - loadTime w) / 1000)%Q.
Definition frameDelta (w : World) : Q := (inject_Z (clock w - lastFrame w) / 1000)%Q.

(** The frame of one mounted [Fireball] in the world; [onHit] is the
    [handlePlayerHit] of the render [gameState]. *)
Definition Fireball_useFrame (gameState : GameState) (attack : DragonAttack) (w : World) : World :=
  let hasHit := bool_decide (DragonAttack.id attack ∈ st_hasHit w) in
  match Fireball_step attack hasHit (elapsedTime w) with
  | (_, Some damage) =>
      handlePlayerHit gameState damage (setHasHit (fun ids => DragonAttack.id attack :: ids) w)
  | (_, None) => w
  end.

(** One rendered frame: every mounted component's [useFrame] callback runs,
    all of them created by the same render, then the frame time is noted. *)
Definition frame (inp : FrameInput) (w : World) : World :=
  let gameState := st_gameState w in
  let mounted := st_dragonAttacks w in
  let elapsed := elapsedTime w in
  let w :=
    match st_dragonBoss w with
    | Some st =>
        let '(st', w') :=
          DragonBoss_useFrame (dragonPosition gameState) (playerPosition gameState)
            (handleDragonAttack gameState) elapsed (frameDelta w) inp st w in
        setDragonBoss (Some st') w'
    | None => w
    end in
  let w :=
    foldl
      (fun w attack =>
         match Scene_attack attack with
         | Some (FireballComponent a) => Fireball_useFrame gameState a w
         | _ => w
         end)
      w mounted in
  setLastFrame (clock w) w.

(** ** The page: initial state, catalog data and buttons *)

(** The initial [gameState] (lines 666-696). *)
Definition initialGameState : GameState :=
  mkGameState 1 0 100 100 50 50
    {[ "diamonds" := 0; "emeralds" := 0; "gold" := 0; "iron" := 0; "redstone" := 0;
       "wood" := 0 ]}
    (mkEquipment "Wooden Sword" "Leather Armor" "")
    [] false 1000 1000 (0, 0, 0)%Q (0, 15, -10)%Q false false 0 false.

(** The page as loaded when [Date.now()] reads [t0]. *)
Definition initialWorld (t0 : Z) : World :=
  mkWorld initialGameState false [] None [] [] t0 t0 t0.

(** The [rewards] objects of [experiences] and [projects] (lines 875-921)
    and the [level]s of [skills] (lines 923-928). *)
Definition experiences : list (gmap string Z) :=
  [ {[ "diamonds" := 10; "emeralds" := 5; "experience" := 500 ]};
    {[ "diamonds" := 8; "gold" := 10; "experience" := 400 ]};
    {[ "emeralds" := 8; "iron" := 15; "experience" := 300 ]} ].

Definition projects : list (gmap string Z) :=
  [ {[ "diamonds" := 15; "experience" := 300 ]};
    {[ "emeralds" := 12; "experience" := 250 ]};
    {[ "gold" := 20; "experience" := 200 ]} ].

Definition skills : list Z := [95; 90; 88; 85].

(** The four unlock buttons (lines 1100-1110, 1138-1148, 1194-1204,
    1237-1247): section, experience, items. *)
Definition unlockButtons : list (string * Z * gmap string Z) :=
  [ ("about", 100, {[ "wood" := 5; "iron" := 2 ]});
    ("experience", 150, {[ "iron" := 5; "gold" := 2 ]});
    ("skills", 200, {[ "emeralds" := 5; "redstone" := 3 ]});
    ("projects", 250, {[ "diamonds" := 3; "emeralds" := 3 ]}) ].

(** [inventory.key < n]: false when the property is absent. *)
Definition less_than (o : option Z) (n : Z) : bool :=
  match o with
  | Some v => v <? n
  | None => false
  end.

(** The four crafting buttons (lines 1295-1330): item, cost and the
    [disabled] attribute. *)
Definition craftButtons : list (string * gmap string Z * (GameState -> bool)) :=
  [ ("Iron Sword", {[ "iron" := 5; "wood" := 2 ]},
     fun gameState =>
       less_than (inventory gameState !! "iron") 5 || less_than (inventory gameState !! "wood") 2);
    ("Diamond Sword", {[ "diamonds" := 3; "iron" := 2 ]},
     fun gameState =>
       less_than (inventory gameState !! "diamonds") 3 ||
       less_than (inventory gameState !! "iron") 2);
    ("Iron Armor", {[ "iron" := 8 ]},
     fun gameState => less_than (inventory gameState !! "iron") 8);
    ("Diamond Armor", {[ "diamonds" := 5 ]},
     fun gameState => less_than (inventory gameState !! "diamonds") 5) ].

(** ** Events *)

(** What can happen to the page.  Keys are [event.key.toLowerCase()]. *)
Inductive Event :=
| Tick (now : Z)
| TimerFires
| Frame (inp : FrameInput)
| KeyDown (key : string)
| KeyUp (key : string)
| ClickUnlock (i : nat)
| ClickClaimRewards (i : nat)
| ClickPowerUp (i : nat)
| ClickClaimProjectRewards (i : nat)
| ClickCraft (i : nat)
| ClickStartBattle
| ClickTryAgain.

(** The timer that fires next: the earliest due, the oldest among equals;
    returned with the timers that stay armed. *)
Fixpoint pick_timer (ts : list Timer) : option (Timer * list Timer) :=
  match ts with
  | [] => None
  | t :: rest =>
      match pick_timer rest with
      | Some (t', rest') =>
          if due t <=? due t' then Some (t, rest) else Some (t', t :: rest')
      | None => Some (t, [])
      end
  end.

(** [Math.random()] lies in [[0, 1)] and a sine in [[-1, 1]]. *)
Definition valid_input (inp : FrameInput) : bool :=
  Qle_bool 0 (random1 inp) && Qlt_bool (random1 inp) 1 &&
  Qle_bool 0 (random2 inp) && Qlt_bool (random2 inp) 1 &&
  Qle_bool (-1) (sinFly inp) && Qle_bool (sinFly inp) 1.

(** The key listener of [Character] in battle (lines 224-250): space and
    enter call [onAttack]. *)
Definition Character_keyDown (gameState : GameState) (key : string) (w : World) : World :=
  if isInBattle gameState && (bool_decide (key = " ") || bool_decide (key = "enter"))
  then handlePlayerAttack gameState w
  else w.

(** React renders again after an event: [DragonBoss] is mounted, with fresh
    hooks, exactly while [isInBattle] holds (lines 613-622). *)
Definition commit (w : World) : World :=
  match isInBattle (st_gameState w), st_dragonBoss w with
  | true, None => setDragonBoss (Some (mkDragonBossState 0 0)) w
  | false, Some _ => setDragonBoss None w
  | _, _ => w
  end.

(** The effect of an event on the page; [None] when it cannot happen (a
    disabled or unmounted button, a clock running backwards, a timer that is
    not due).  Every handler called here is the one of the latest render, so
    the [gameState] it reads is the stored one. *)
Definition handle (e : Event) (w : World) : option World :=
  let gameState := st_gameState w in
  match e with
  | Tick now => if clock w <=? now then Some (setClock now w) else None
  | TimerFires =>
      match pick_timer (timers w) with
      | Some (t, rest) =>
          if due t <=? clock w then Some (run_callback (callback t) (setTimers rest w))
          else None
      | None => None
      end
  | Frame inp => if valid_input inp then Some (frame inp w) else None
  | KeyDown key => Some (dodge_keyDown gameState key (Character_keyDown gameState key w))
  | KeyUp key => Some (dodge_keyUp key w)
  | ClickUnlock i =>
      match unlockButtons !! i with
      | Some (section, amount, items) =>
          if bool_decide (section ∈ unlockedSections gameState) then None
          else Some (addToInventory items (gainExperience amount (unlockSection section w)))
      | None => None
      end
  | ClickClaimRewards i =>
      match experiences !! i with
      | Some rewards =>
          Some (addToInventory rewards (gainExperience (or0 (rewards !! "experience")) w))
      | None => None
      end
  | ClickPowerUp i =>
      match skills !! i with
      | Some skill_level =>
          Some (addToInventory {[ "diamonds" := 1 ]} (gainExperience skill_level w))
      | None => None
      end
  | ClickClaimProjectRewards i =>
      match projects !! i with
      | Some rewards =>
          Some (addToInventory rewards (gainExperience (or0 (rewards !! "experience")) w))
      | None => None
      end
  | ClickCraft i =>
      match (craftButtons !! i : option (string * gmap string Z * (GameState -> bool))) with
      | Some (item, cost, disabled) =>
          if disabled gameState then None else Some (craftEquipment gameState item cost w)
      | None => None
      end
  | ClickStartBattle =>
      if readyForBattle gameState && negb (isInBattle gameState)
      then Some (startBattle w) else None
  | ClickTryAgain =>
      if readyForBattle gameState && isInBattle gameState &&
         negb (dragonHealth gameState <=? 0) && (health gameState <=? 0)
      then Some (tryAgain w) else None
  end.

Definition step (e : Event) (w : World) : option World := commit <$> handle e w.

(** A run of the page over a list of events. *)
Fixpoint run (events : list Event) (w : World) : option World :=
  match events with
  | [] => Some w
  | e :: rest =>
      match step e w with
      | Some w' => run rest w'
      | None => None
      end
  end.

(** The worlds the page can be in. *)
Inductive reachable : World -> Prop :=
| reachable_initial t0 : reachable (initialWorld t0)
| reachable_step w e w' : reachable w -> step e w = Some w' -> reachable w'.

(** ** [Character] (lines 127-401) *)

Module Movement.
(** The hook [movement] (line 147): which movement keys are held. *)
Record t := mk {
  w : bool;
  a : bool;
  s : bool;
  d : bool
}.
End Movement.

(** The updaters [(prev) => ({ ...prev, key: value })] of lines 231-243 and
    281-293. *)
Definition with_w (v : bool) (m : Movement.t) : Movement.t :=
  Movement.mk v (Movement.a m) (Movement.s m) (Movement.d m).
Definition with_a (v : bool) (m : Movement.t) : Movement.t :=
  Movement.mk (Movement.w m) v (Movement.s m) (Movement.d m).
Definition with_s (v : bool) (m : Movement.t) : Movement.t :=
  Movement.mk (Movement.w m) (Movement.a m) v (Movement.d m).
Definition with_d (v : bool) (m : Movement.t) : Movement.t :=
  Movement.mk (Movement.w m) (Movement.a m) (Movement.s m) v.

(** The values the hook [direction] takes: its initial 0 (line 149) and the
    four angles of lines 256-268. *)
Inductive Angle := angle_0 | angle_half_pi | angle_minus_half_pi | angle_pi.

(** [Math.cos] and [Math.sin] at these angles, as exact values: where the
    table has 0, the rounding of [Math.PI] leaves a number of the order of
    1e-16 in JavaScript; the entries 1 and -1 are what JavaScript computes. *)
Definition Math_cos (x : Angle) : Q :=
  match x with
  | angle_0 => 1
  | angle_half_pi => 0
  | angle_minus_half_pi => 0
  | angle_pi => -1
  end.

Definition Math_sin (x : Angle) : Q :=
  match x with
  | angle_0 => 0
  | angle_half_pi => 1
  | angle_minus_half_pi => -1
  | angle_pi => 0
  end.

(** What a mounted [Character] keeps between two callbacks: its three hooks
    (lines 147-149) and [meshRef.current.position]. *)
Record CharacterState := mkCharacterState {
  movement : Movement.t;
  isMoving : bool;
  direction : Angle;
  mesh : Vec3
}.

Definition setMovement (f : Movement.t -> Movement.t) (c : CharacterState) : CharacterState :=
  mkCharacterState (f (movement c)) (isMoving c) (direction c) (mesh c).

Definition setIsMoving (v : bool) (c : CharacterState) : CharacterState :=
  mkCharacterState (movement c) v (direction c) (mesh c).

Definition setDirection (v : Angle) (c : CharacterState) : CharacterState :=
  mkCharacterState (movement c) (isMoving c) v (mesh c).

Definition setMesh (v : Vec3) (c : CharacterState) : CharacterState :=
  mkCharacterState (movement c) (isMoving c) (direction c) v.

(** The component as mounted: no key held, the group at its [position]
    prop (line 337). *)
Definition Character_mount (position : Vec3) : CharacterState :=
  mkCharacterState (Movement.mk false false false false) false angle_0 position.

(** [Math.max(-12, Math.min(12, x))] (lines 178-179). *)
Definition arena_clamp (x : Q) : Q := Qmax (-12) (Qmin 12 x).

(** The test of line 187. *)
Definition explore_allowed (newXExplore newZExplore : Q) : bool :=
  Qlt_bool (-25) newXExplore && Qlt_bool newXExplore 25 &&
  Qlt_bool (-25) newZExplore && Qlt_bool newZExplore 25.

(** The [useFrame] callback of [Character] (lines 151-221), for the props
    [position], [isInBattle] and [isDodging] of the render it belongs to;
    [sinWalk] is the value of [Math.sin(state.clock.elapsedTime * 8)].  The
    result is the component afterwards and the argument of the call of
    [onMove], if there is one.  The rotation and the blinking of the mesh
    (lines 204-219) are only drawn. *)
Definition Character_useFrame (position : Vec3) (isInBattle isDodging : bool)
  (delta sinWalk : Q) (c : CharacterState) : CharacterState * option Vec3 :=
  let newX := at0 (mesh c) in
  let newZ := at2 (mesh c) in
  let '(newX, newZ, moved) :=
    if isInBattle then
      let speed := (if isDodging then 8 else 4)%Q in
      let held := movement c in
      let newZ := if Movement.w held then (newZ - speed * delta)%Q else newZ in
      let newZ := if Movement.s held then (newZ + speed * delta)%Q else newZ in
      let newX := if Movement.a held then (newX - speed * delta)%Q else newX in
      let newX := if Movement.d held then (newX + speed * delta)%Q else newX in
      (arena_clamp newX, arena_clamp newZ,
       Movement.w held || Movement.s held || Movement.a held || Movement.d held)
    else if isMoving c then
      let speed := 3%Q in
      let newXExplore := (at0 (mesh c) + Math_cos (direction c) * speed * delta)%Q in
      let newZExplore := (at2 (mesh c) + Math_sin (direction c) * speed * delta)%Q in
      if explore_allowed newXExplore newZExplore
      then (newXExplore, newZExplore, true)
      else (newX, newZ, false)
    else (newX, newZ, false) in
  if moved then
    (setMesh (newX, (at1 position + sinWalk * 0.1)%Q, newZ) c,
     Some (newX, at1 position, newZ))
  else (c, None).

(** [case k1: case k2:] of the two [switch] statements. *)
Definition key_is (key k1 k2 : string) : bool :=
  bool_decide (key = k1) || bool_decide (key = k2).

(** [handleKeyDown] of [Character] (lines 224-272) for the prop
    [isInBattle] of the render that installed it; [key] is
    [event.key.toLowerCase()].  The result is the component afterwards and
    whether [onAttack] is called. *)
Definition Character_handleKeyDown (isInBattle : bool) (key : string) (c : CharacterState)
  : CharacterState * bool :=
  if isInBattle then
    if key_is key "w" "arrowup" then (setMovement (with_w true) c, false)
    else if key_is key "s" "arrowdown" then (setMovement (with_s true) c, false)
    else if key_is key "a" "arrowleft" then (setMovement (with_a true) c, false)
    else if key_is key "d" "arrowright" then (setMovement (with_d true) c, false)
    else if key_is key " " "enter" then (c, true)
    else (c, false)
  else
    let c := setIsMoving true c in
    if key_is key "w" "arrowup" then (setDirection angle_half_pi c, false)
    else if key_is key "s" "arrowdown" then (setDirection angle_minus_half_pi c, false)
    else if key_is key "a" "arrowleft" then (setDirection angle_pi c, false)
    else if key_is key "d" "arrowright" then (setDirection angle_0 c, false)
    else (c, false).

(** [handleKeyUp] of [Character] (lines 274-299). *)
Definition Character_handleKeyUp (isInBattle : bool) (key : string) (c : CharacterState)
  : CharacterState :=
  if isInBattle then
    if key_is key "w" "arrowup" then setMovement (with_w false) c
    else if key_is key "s" "arrowdown" then setMovement (with_s false) c
    else if key_is key "a" "arrowleft" then setMovement (with_a false) c
    else if key_is key "d" "arrowright" then setMovement (with_d false) c
    else c
  else setIsMoving false c.

(** [getWeaponColor] and [getArmorColor] (lines 310-334). *)
Definition getWeaponColor (weapon : string) : string :=
  if bool_decide (weapon = "Diamond Sword") then "#00ffff"
  else if bool_decide (weapon = "Iron Sword") then "#c0c0c0"
  else if bool_decide (weapon = "Golden Sword") then "#ffd700"
  else "#8b4513".

Definition getArmorColor (armor : string) : string :=
  if bool_decide (armor = "Diamond Armor") then "#00ffff"
  else if bool_decide (armor = "Iron Armor") then "#c0c0c0"
  else if bool_decide (armor = "Golden Armor") then "#ffd700"
  else "#4a90e2".

(** Whether the shield is drawn: [equipment.shield && ...] (lines 374, 1030),
    true for every string but the empty one. *)
Definition shield_shown (equipment : Equipment) : bool :=
  negb (bool_decide (shield equipment = "")).

(** ** The battle section of the page (lines 1341-1393) *)

Inductive BattlePanel :=
| Requirements
| ReadyToStart
| Victory
| Defeat
| InProgress.

(** The chain of conditionals that picks the panel. *)
Definition battleSection (gameState : GameState) : BattlePanel :=
  if negb (readyForBattle gameState) then Requirements
  else if negb (isInBattle gameState) then ReadyToStart
  else if dragonHealth gameState <=? 0 then Victory
  else if health gameState <=? 0 then Defeat
  else InProgress.

(** ** The bars of the HUD *)

(** [(value / max) * 100], the width of a health or mana bar (lines 459,
    970 and 977). *)
Definition percentage (value max : Z) : Q := (inject_Z value / inject_Z max * 100)%Q.

(** ** The stations of [Scene] and the aoe indicator *)

(** [portfolioStations] (lines 521-546): position, title and whether the
    station is unlocked. *)
Definition portfolioStations (gameState : GameState) : list (Vec3 * string * bool) :=
  [ ((-10, 0, -8)%Q, "About Me", bool_decide ("about" ∈ unlockedSections gameState));
    ((10, 0, -8)%Q, "Experience", bool_decide ("experience" ∈ unlockedSections gameState));
    ((-10, 0, 8)%Q, "Skills", bool_decide ("skills" ∈ unlockedSections gameState));
    ((10, 0, 8)%Q, "Projects", bool_decide ("projects" ∈ unlockedSections gameState)) ].

(** A click on the station [index] (lines 584-589): the argument of the
    call of [onStationInteract], if there is one.  The stations are mounted
    outside battle only. *)
Definition Scene_stationClick (gameState : GameState) (index : nat) : option string :=
  if isInBattle gameState then None
  else
    match portfolioStations gameState !! index with
    | Some (_, title, true) => Some title
    | _ => None
    end.

(** [pulse] of [AOEIndicator] (line 114), for the value [sinPulse] of
    [Math.sin(state.clock.elapsedTime * 10)], and half the side of the plane
    it scales (line 120). *)
Definition AOEIndicator_pulse (sinPulse : Q) : Q := (sinPulse * 0.1 + 0.9)%Q.

Definition AOEIndicator_halfSide (radius sinPulse : Q) : Q :=
  (radius * 2 * AOEIndicator_pulse sinPulse / 2)%Q.

(** * Vocabulary of the statements *)

(** ** Predicates *)

(** The bounds on the two health values. *)
Definition within_bounds (w : World) : Prop :=
  0 <= health (st_gameState w) <= maxHealth (st_gameState w) /\
  0 <= dragonHealth (st_gameState w) <= maxDragonHealth (st_gameState w).

Definition callback_damage_ok (cb : Callback) : Prop :=
  match cb with
  | RemoveAttack _ attack => 0 <= DragonAttack.damage attack
  | _ => True
  end.

(** What is kept true along every run for the bounds to hold: damage is
    never negative ([level] stays at least 1, every attack in flight or
    awaiting removal carries a damage roll). *)
Record bounded (w : World) : Prop := mkBounded {
  health_bounded : 0 <= health (st_gameState w) <= maxHealth (st_gameState w);
  dragon_bounded : 0 <= dragonHealth (st_gameState w) <= maxDragonHealth (st_gameState w);
  experience_bounded : 0 <= experience (st_gameState w);
  level_bounded : 1 <= level (st_gameState w);
  attacks_bounded : Forall (fun a => 0 <= DragonAttack.damage a) (st_dragonAttacks w);
  timers_bounded : Forall (fun t => callback_damage_ok (callback t)) (timers w)
}.

(** The collection of unlocked sections and the player's health. *)
Definition sections (w : World) : list string := unlockedSections (st_gameState w).
Definition hp (w : World) : Z := health (st_gameState w).

(** The damage and the range test of [handlePlayerAttack] (lines 711-718). *)
Definition attack_damage (gameState : GameState) : Z :=
  level gameState * 10 +
  (if bool_decide (weapon (equipment gameState) = "Diamond Sword") then 50 else 20).

Definition in_attack_range (gameState : GameState) : bool :=
  Math_sqrt_lt (planar2 (playerPosition gameState) (dragonPosition gameState)) 8.

(** The world once an attack is taken out of the list (line 751). *)
Definition without_attack (attack : DragonAttack) (w : World) : World :=
  setHasHit (fun ids => filter (fun i => i ≠ DragonAttack.id attack) ids)
    (setDragonAttacks
       (fun prev => filter (fun a => DragonAttack.id a ≠ DragonAttack.id attack) prev) w).

(** Frame [i] of [frames] is the first at which the fireball collides. *)
Definition first_collision (attack : DragonAttack) (frames : list Q) (i : nat) : Prop :=
  (exists t, frames !! i = Some t /\ Fireball_collides attack t = true) /\
  (forall j t, (j < i)%nat -> frames !! j = Some t -> Fireball_collides attack t = false).

Definition origin : Vec3 := (0, 0, 0)%Q.

Definition callback_aimed (cb : Callback) : Prop :=
  match cb with
  | RemoveAttack gameState attack =>
      playerPosition gameState = origin /\ DragonAttack.target attack = origin
  | _ => True
  end.

(** [onMove] of [Character] is given an empty function (lines 574-576), so
    nothing but [startBattle] ever writes [playerPosition], and nothing
    writes [dragonPosition]. *)
Record frozen (w : World) : Prop := mkFrozen {
  player_frozen : playerPosition (st_gameState w) = origin;
  dragon_frozen : dragonPosition (st_gameState w) = (0, 15, -10)%Q;
  dragon_unhurt : dragonHealth (st_gameState w) = 1000;
  dragon_max : maxDragonHealth (st_gameState w) = 1000;
  timers_aimed : Forall (fun t => callback_aimed (callback t)) (timers w)
}.

(** ** Observations of a world *)

(** The clock, the player's health and whether the player is invulnerable. *)
Definition vitals (w : World) : Z * Z * bool :=
  (clock w, health (st_gameState w), invulnerable (st_gameState w)).

(** The removal that fires next, if a removal is next: when it is due, the
    kind of its attack, the [invulnerable] of the render it holds and the
    damage it would deal. *)
Definition next_removal (w : World) : option (Z * AttackType * bool * Z) :=
  match pick_timer (timers w) with
  | Some (t, _) =>
      match callback t with
      | RemoveAttack gameState attack =>
          Some (due t, DragonAttack.type attack, invulnerable gameState,
                DragonAttack.damage attack)
      | _ => None
      end
  | None => None
  end.

(** The test that the removal firing next would make, if a removal is next:
    the player position it holds, the target of its attack and the outcome
    of the distance test. *)
Definition next_aoe_test (w : World) : option (Vec3 * Vec3 * bool) :=
  match pick_timer (timers w) with
  | Some (t, _) =>
      match callback t with
      | RemoveAttack gameState attack =>
          Some (playerPosition gameState, DragonAttack.target attack,
                aoe_in_radius gameState attack)
      | _ => None
      end
  | None => None
  end.

(** Whether exactly one timer is armed and it is a removal. *)
Definition only_a_removal (w : World) : bool :=
  match timers w with
  | [t] =>
      match callback t with
      | RemoveAttack _ _ => true
      | _ => false
      end
  | _ => false
  end.

(** ** Runs of the page *)

(** Every frame of the runs below draws the same: damage roll 29
    ([random1 = 0.9]), next cooldown 2 s ([random2 = 0]), the dragon at the
    middle of its flight. *)
Definition roll : FrameInput := mkFrameInput 0 0.9 0.

(** The way into the first battle: the four sections unlocked and the
    first reward claimed seven times (4200 experience, level 5, 180 health);
    the particles of the four level-ups are hidden at 2 s; the battle starts
    at 10 s. *)
Definition to_battle : list Event :=
  [ClickUnlock 0; ClickUnlock 1; ClickUnlock 2; ClickUnlock 3]
  ++ replicate 7 (ClickClaimRewards 0)
  ++ [Tick 2000; TimerFires; TimerFires; TimerFires; TimerFires; Tick 10000; ClickStartBattle].

(** The first frame of the battle makes a fireball. *)
Definition first_attack : list Event := to_battle ++ [Frame roll].

(** At 1.7 s of its flight the fireball is 1.5 from its target, not yet
    close enough; it lands at the next frame, 16 ms later. *)
Definition first_miss : list Event := first_attack ++ [Tick 11700; Frame roll].
Definition first_hit : list Event := first_miss ++ [Tick 11716; Frame roll].

(** One turn of the dragon's cycle, begun at clock [b] with the cooldown at
    zero: fireball at [b] (lands at +1716, removed at +2000), breath at
    +2016, aoe at +4032 (removed, and resolved, at +7032), charge at +6048;
    the cooldown is back at zero after the frame at +8048.  Timers fire when
    they are due; only the frames that matter are listed. *)
Definition battle_round (b : Z) : list Event :=
  [ Tick b; Frame roll;
    Tick (b + 1700); Frame roll;
    Tick (b + 1716); Frame roll;
    Tick (b + 2000); TimerFires; Frame roll;
    Tick (b + 2016); Frame roll;
    Tick (b + 2716); TimerFires;
    Tick (b + 3516); TimerFires;
    Tick (b + 4016); Frame roll;
    Tick (b + 4032); Frame roll;
    Tick (b + 6032); Frame roll;
    Tick (b + 6048); Frame roll;
    Tick (b + 7032); TimerFires;
    Tick (b + 7548); TimerFires;
    Tick (b + 8032); TimerFires;
    Tick (b + 8048); Frame roll ].

(** The same turn, left when its aoe attack has just been made. *)
Definition last_round (b : Z) : list Event :=
  [ Tick b; Frame roll;
    Tick (b + 1700); Frame roll;
    Tick (b + 1716); Frame roll;
    Tick (b + 2000); TimerFires; Frame roll;
    Tick (b + 2016); Frame roll;
    Tick (b + 2716); TimerFires;
    Tick (b + 3516); TimerFires;
    Tick (b + 4016); Frame roll;
    Tick (b + 4032); Frame roll ].

(** The first battle, lost: six hits in three turns, the seventh at
    35908 ms takes the last 6 health; the dragon goes on and makes an aoe
    attack at 38224 ms. *)
Definition defeat : list Event :=
  to_battle ++ battle_round 10000 ++ battle_round 18064 ++ battle_round 26128
  ++ last_round 34192.

(** "Try Again" at 38724 ms, "Start Battle" at 39324 ms; the new dragon's
    first frame makes a fireball, which has not landed at the frame of
    41024 ms; the clock moves to 41040 ms. *)
Definition retry_before_hit : list Event :=
  defeat
  ++ [Tick 38724; ClickTryAgain; Tick 39324; ClickStartBattle; Frame roll;
      Tick 41024; Frame roll; Tick 41040].

(** The frame at 41040 ms, in which that fireball lands. *)
Definition retry_hit : list Event := retry_before_hit ++ [Frame roll].

(** ** An aoe attack and a player who moves *)

(** The first turn of the first battle up to the expiry of its aoe attack.
    The attack is made at 14032 ms; the player presses "d" at once and
    holds it; frames are rendered at 16032 ms and 16048 ms; the clock
    reaches 17032 ms, when the removal is due. *)
Definition aoe_expiry : list Event :=
  to_battle ++ last_round 10000
  ++ [KeyDown "d"; Tick 16032; Frame roll; Tick 16048; Frame roll; Tick 17032].

(** The [Character] of that run, on the centre when the attack is made:
    "d" goes down and the two frames, 2 s and 16 ms after the one before,
    move the mesh. *)
Definition walked_away : CharacterState :=
  let pressed := (Character_handleKeyDown true "d" (Character_mount origin)).1 in
  let c := (Character_useFrame origin true false 2 0 pressed).1 in
  (Character_useFrame origin true false 0.016 0 c).1.

(** An aoe attack of damage 25 that lasts 3 s, and a world whose stored
    player position is [p]. *)
Definition aoe_at (center : Vec3) : DragonAttack :=
  DragonAttack.mk 0 aoe (0, 15, -10)%Q center 0 3000 25.

Definition player_at (p : Vec3) (w : World) : World :=
  setGameState (fun prev => with_playerPosition p prev) w.

(** The attack is made on the origin by a render whose player position is
    [before]; the stored position becomes [after]; 3 s later the timer
    fires. *)
Definition armed_then_moved (before after : Vec3) : option World :=
  let w := player_at before (initialWorld 0) in
  let w := handleDragonAttack (st_gameState w) (aoe_at origin) w in
  run [Tick 3000; TimerFires] (player_at after w).

(** ** The play fields of [Character] *)

(** Inside the battle arena (lines 178-179) and strictly inside the square
    of the exploration mode (line 187). *)
Definition in_arena (p : Vec3) : Prop :=
  (-12 <= at0 p <= 12)%Q /\ (-12 <= at2 p <= 12)%Q.

Definition on_island (p : Vec3) : Prop :=
  (-25 < at0 p < 25)%Q /\ (-25 < at2 p < 25)%Q.

(** Whether a movement key is held, and the hook with none held. *)
Definition held_any (m : Movement.t) : bool :=
  Movement.w m || Movement.s m || Movement.a m || Movement.d m.

Definition nothing_held : Movement.t := Movement.mk false false false false.

(** ** What the page keeps true *)

(** The resources of the inventory (lines 20-27) and the equipment the page
    starts with or can craft (lines 681-685, 1295-1330). *)
Definition resources : list string :=
  ["diamonds"; "emeralds"; "gold"; "iron"; "redstone"; "wood"].

Definition weapons : list string := ["Wooden Sword"; "Iron Sword"; "Diamond Sword"].
Definition armors : list string := ["Leather Armor"; "Iron Armor"; "Diamond Armor"].

(** Kept along every run: the level follows the experience, the maxima
    follow the level (every gain of the page is below 1000, so a gain raises
    the level by one at most), mana is never spent, every resource is there
    and none is negative, the equipment comes from the catalog, and the
    last frame is not in the future. *)
Record kept (w : World) : Prop := mkKept {
  level_kept : level (st_gameState w) = experience (st_gameState w) / 1000 + 1;
  experience_kept : 0 <= experience (st_gameState w);
  maxHealth_kept : maxHealth (st_gameState w) = 80 + 20 * level (st_gameState w);
  maxMana_kept : maxMana (st_gameState w) = 40 + 10 * level (st_gameState w);
  mana_kept : mana (st_gameState w) = maxMana (st_gameState w);
  resources_kept :
    Forall (fun key => is_Some (inventory (st_gameState w) !! key)) resources;
  amounts_kept : map_Forall (fun _ v => 0 <= v) (inventory (st_gameState w));
  weapon_kept : weapon (equipment (st_gameState w)) ∈ weapons;
  armor_kept : armor (equipment (st_gameState w)) ∈ armors;
  shield_kept : shield (equipment (st_gameState w)) = "";
  frames_kept : lastFrame w <= clock w
}.

(** An item of the crafting table: a sword of the catalog, an armor of the
    catalog, and no shield. *)
Definition from_catalog (item : string) : Prop :=
  (includes item "Sword" = true -> item ∈ weapons) /\
  (includes item "Armor" = true -> item ∈ armors) /\
  includes item "Shield" = false.

(** ** More observations of a world *)

(** The amounts of the six resources. *)
Definition stock (w : World) : list (option Z) :=
  (fun key => inventory (st_gameState w) !! key) <$> resources.

(** Whether the cost of the crafting button [i] is affordable. *)
Definition affordable (i : nat) (w : World) : bool :=
  match (craftButtons !! i : option (string * gmap string Z * (GameState -> bool))) with
  | Some (_, cost, _) => canCraft (st_gameState w) cost
  | None => false
  end.

(** ** What an event leaves alone *)

(** [DragonBoss] is mounted exactly in battle. *)
Definition mounted (w : World) : Prop :=
  match st_dragonBoss w with
  | Some _ => isInBattle (st_gameState w) = true
  | None => isInBattle (st_gameState w) = false
  end.

(** From [w] to [w'] the battle goes on or stays off, [DragonBoss] keeps
    its hooks, no frame is rendered and no experience is lost. *)
Record quiet (w w' : World) : Prop := mkQuiet {
  quiet_battle : isInBattle (st_gameState w') = isInBattle (st_gameState w);
  quiet_boss : st_dragonBoss w' = st_dragonBoss w;
  quiet_lastFrame : lastFrame w' = lastFrame w;
  quiet_experience : experience (st_gameState w) <= experience (st_gameState w')
}.

(** The events that are neither a frame nor one of the two battle
    buttons. *)
Definition ordinary (e : Event) : bool :=
  match e with
  | Frame _ | ClickStartBattle | ClickTryAgain => false
  | _ => true
  end.

(** ** Flags and their timers *)

(** A timer with this callback is armed. *)
Definition pending (cb : Callback) (w : World) : Prop :=
  exists t, t ∈ timers w /\ callback t = cb.

(** Every flag that a timer is meant to clear has such a timer armed, and
    every attack in the list has its removal armed. *)
Record armed (w : World) : Prop := mkArmed {
  invulnerable_armed :
    invulnerable (st_gameState w) = true -> pending EndInvulnerability w;
  isAttacking_armed :
    isAttacking (st_gameState w) = true -> pending ResetAttackAnimation w;
  showParticles_armed : st_showParticles w = true -> pending HideParticles w;
  attacks_armed :
    forall attack, attack ∈ st_dragonAttacks w ->
      exists gameState, pending (RemoveAttack gameState attack) w
}.

(** ** The pace of the dragon *)

(** How much of the two seconds after an attack [DragonBoss] still has to
    wait. *)
Definition to_wait (st : DragonBossState) : Q := Qmin 2 (Qmax 0 (attackCooldown st)).

(** The number of attacks a mounted [DragonBoss] has made: the hook
    [currentAttackPattern] goes up by one with each (line 454). *)
Definition attacks_made (w : World) : Z :=
  match st_dragonBoss w with
  | Some st => Z.of_nat (currentAttackPattern st)
  | None => 0
  end.

(** Kept while the dragon of [made0] attacks at the frame time [lastFrame0]
    stays mounted: two seconds of frame time for every attack after the
    first, and the rest of the wait. *)
Definition paced (made0 lastFrame0 : Z) (w : World) : Prop :=
  exists st,
    st_dragonBoss w = Some st /\
    (2 * (inject_Z (attacks_made w) - inject_Z made0 - 1) + (2 - to_wait st)
     <= inject_Z (lastFrame w - lastFrame0) / 1000)%Q.

(** ** Sections and stations *)

(** The sections the unlock buttons name (lines 1102, 1140, 1196, 1239). *)
Definition section_names : list string := ["about"; "experience"; "skills"; "projects"].

(** How many stations are unlocked. *)
Definition unlocked_stations (gameState : GameState) : nat :=
  length (filter (fun station => station.2 = true) (portfolioStations gameState)).

(** * Proofs *)

(** ** Basic facts *)

Lemma Qlt_bool_iff (a b : Q) : Qlt_bool a b = true <-> (a < b)%Q.
Proof.
  unfold Qlt_bool. rewrite negb_true_iff. split.
  - intros H. apply Qnot_le_lt. intros Hle. apply Qle_bool_iff in Hle. congruence.
  - intros H. destruct (Qle_bool b a) eqn:E; [|done].
    apply Qle_bool_iff in E. exfalso. eapply Qlt_not_le; eauto.
Qed.

Lemma Math_sqrt_lt_iff (s c : Q) : Math_sqrt_lt s c = true <-> (s < c * c)%Q.
Proof. apply Qlt_bool_iff. Qed.

Lemma has_at_least_iff (o : option Z) (n : Z) :
  has_at_least o n = true <-> exists v, o = Some v /\ n <= v.
Proof.
  destruct o as [v|]; simpl.
  - rewrite Z.leb_le. split; [eauto | by intros (? & [= <-] & ?)].
  - split; [done | by intros (? & ? & _)].
Qed.

Lemma elem_of_Object_keys (o : gmap string Z) (key : string) :
  key ∈ Object_keys o <-> is_Some (o !! key).
Proof.
  unfold Object_keys. rewrite list_elem_of_fmap. split.
  - intros ([k v] & -> & H). apply elem_of_map_to_list in H. eauto.
  - intros [v H]. exists (key, v). split; [done|]. by apply elem_of_map_to_list.
Qed.

(** The object built by the [reduce] of [addToInventory] and
    [craftEquipment]: every listed key gets its recomputed value. *)
Lemma lookup_reduce (f : string -> Z) (keys : list string) (acc : gmap string Z) (k : string) :
  foldl (fun acc key => <[key := f key]> acc) acc keys !! k
  = if bool_decide (k ∈ keys) then Some (f k) else acc !! k.
Proof.
  revert acc. induction keys as [|key keys IH]; intros acc; simpl; [done|].
  rewrite IH. destruct (decide (k ∈ keys)) as [Hin|Hnin].
  - rewrite !bool_decide_eq_true_2; [done | by right | done].
  - rewrite (bool_decide_eq_false_2 _ Hnin). destruct (decide (k = key)) as [->|Hne].
    + rewrite bool_decide_eq_true_2 by left. by rewrite lookup_insert_eq.
    + rewrite bool_decide_eq_false_2.
      * by rewrite lookup_insert_ne.
      * intros [?|?]%elem_of_cons; done.
Qed.

Lemma lookup_spread_reduce (f : string -> Z) (o base : gmap string Z) (k : string) :
  spread base (foldl (fun acc key => <[key := f key]> acc) ∅ (Object_keys o)) !! k
  = match o !! k with
    | Some _ => Some (f k)
    | None => base !! k
    end.
Proof.
  unfold spread. destruct (o !! k) as [n|] eqn:E.
  - apply lookup_union_Some_l. rewrite lookup_reduce, bool_decide_eq_true_2; [done|].
    apply elem_of_Object_keys. eauto.
  - rewrite lookup_union_r; [done|].
    rewrite lookup_reduce, bool_decide_eq_false_2; [done|].
    rewrite elem_of_Object_keys, E. by intros [? ?].
Qed.

(** ** Experience and levels *)

(** C8. After [gainExperience] the level is [floor(experience / 1000) + 1]
    (experience 0 and 999 give level 1, 1000 gives 2, 2500 gives 3); a gain
    that raises the level adds 20 to [maxHealth] and 10 to [maxMana] and
    fills [health] and [mana] up to the new maxima; a gain that does not
    leaves these four fields alone. *)
Theorem gainExperience_level (amount : Z) (w : World) :
  let prev := st_gameState w in
  let next := st_gameState (gainExperience amount w) in
  experience next = experience prev + amount /\
  level next = experience next / 1000 + 1 /\
  1000 * (level next - 1) <= experience next < 1000 * level next /\
  (level prev < level next ->
     maxHealth next = maxHealth prev + 20 /\ maxMana next = maxMana prev + 10 /\
     health next = maxHealth next /\ mana next = maxMana next) /\
  (level next <= level prev ->
     maxHealth next = maxHealth prev /\ maxMana next = maxMana prev /\
     health next = health prev /\ mana next = mana prev) /\
  (forall t0,
     level (st_gameState (gainExperience 0 (initialWorld t0))) = 1 /\
     level (st_gameState (gainExperience 999 (initialWorld t0))) = 1 /\
     level (st_gameState (gainExperience 1000 (initialWorld t0))) = 2 /\
     level (st_gameState (gainExperience 2500 (initialWorld t0))) = 3).
Proof.
  assert (Hnext : st_gameState (gainExperience amount w)
                  = gainExperience_updater amount (st_gameState w)).
  { unfold gainExperience. by destruct (_ <? _). }
  cbv zeta. rewrite Hnext. unfold gainExperience_updater, newLevel_of. simpl.
  set (newExp := experience (st_gameState w) + amount).
  pose proof (Z.div_mod newExp 1000 ltac:(lia)) as Hdm.
  pose proof (Z.mod_pos_bound newExp 1000 ltac:(lia)) as Hmod.
  assert (Hfloor : 1000 * (newExp / 1000 + 1 - 1) <= newExp < 1000 * (newExp / 1000 + 1)) by lia.
  split_and!; [done | done | lia | lia | | | by intros t0].
  - intros Hup. apply Z.ltb_lt in Hup. by rewrite Hup.
  - intros Hno. apply Z.ltb_ge in Hno. by rewrite Hno.
Qed.

(** A level-up at a concrete world: 950 experience at level 1, 100 more. *)
Lemma gainExperience_level_witness :
  let w := gainExperience 950 (initialWorld 0) in
  level (st_gameState w) < level (st_gameState (gainExperience 100 w)) /\
  maxHealth (st_gameState (gainExperience 100 w)) = 120 /\
  health (st_gameState (gainExperience 100 w)) = 120.
Proof.
  cbv zeta.
  pose proof (gainExperience_level 100 (gainExperience 950 (initialWorld 0))) as H.
  cbv zeta in H. destruct H as (_ & _ & _ & Hup & _).
  assert (Hlt : level (st_gameState (gainExperience 950 (initialWorld 0)))
                < level (st_gameState (gainExperience 100 (gainExperience 950 (initialWorld 0)))))
    by (vm_compute; reflexivity).
  destruct (Hup Hlt) as (Hmax & _ & Hh & _).
  split; [exact Hlt|]. split; [rewrite Hmax | rewrite Hh, Hmax]; reflexivity.
Defined.

(** ** Crafting *)

Lemma canCraft_iff (gameState : GameState) (cost : gmap string Z) :
  canCraft gameState cost = true <->
  forall key n, cost !! key = Some n ->
    exists v, inventory gameState !! key = Some v /\ n <= v.
Proof.
  unfold canCraft. rewrite forallb_forall. split.
  - intros H key n Hkey. apply has_at_least_iff.
    specialize (H key). rewrite Hkey in H. apply H.
    apply list_elem_of_In, elem_of_Object_keys. eauto.
  - intros H key [n Hkey]%list_elem_of_In%elem_of_Object_keys.
    rewrite Hkey. apply has_at_least_iff. eauto.
Qed.

Lemma gainExperience_keeps_items (amount : Z) (w : World) :
  inventory (st_gameState (gainExperience amount w)) = inventory (st_gameState w) /\
  equipment (st_gameState (gainExperience amount w)) = equipment (st_gameState w).
Proof. unfold gainExperience. by destruct (_ <? _). Qed.

(** C7. Crafting goes through exactly when every listed cost is affordable
    from the inventory the handler sees.  Then each listed resource is
    lowered by its cost, the other resources are kept, and a slot is
    replaced by the item exactly when the item's name contains "Sword"
    (weapon), "Armor" (armor) or "Shield" (shield); otherwise nothing at all
    changes.  With iron 5 and wood 2, "Iron Sword" (iron 5, wood 2) is
    crafted, both resources drop to 0 and the weapon is "Iron Sword"; a
    second attempt fails and changes nothing. *)
Theorem craftEquipment_all_or_nothing (gameState : GameState) (item : string)
  (cost : gmap string Z) (w : World) :
  let prev := st_gameState w in
  let next := st_gameState (craftEquipment gameState item cost w) in
  (canCraft gameState cost = true <->
   forall key n, cost !! key = Some n ->
     exists v, inventory gameState !! key = Some v /\ n <= v) /\
  (canCraft gameState cost = false -> craftEquipment gameState item cost w = w) /\
  (canCraft gameState cost = true ->
   (forall key n, cost !! key = Some n ->
      inventory next !! key = Some (or0 (inventory prev !! key) - n)) /\
   (forall key, cost !! key = None -> inventory next !! key = inventory prev !! key) /\
   weapon (equipment next)
     = (if includes item "Sword" then item else weapon (equipment prev)) /\
   armor (equipment next)
     = (if includes item "Armor" then item else armor (equipment prev)) /\
   shield (equipment next)
     = (if includes item "Shield" then item else shield (equipment prev))) /\
  (let stocked :=
     setGameState (with_inventory (<["iron" := 5]> (<["wood" := 2]> (inventory initialGameState))))
       (initialWorld 0) in
   let crafted :=
     craftEquipment (st_gameState stocked) "Iron Sword" {[ "iron" := 5; "wood" := 2 ]} stocked in
   canCraft (st_gameState stocked) {[ "iron" := 5; "wood" := 2 ]} = true /\
   inventory (st_gameState crafted) !! "iron" = Some 0 /\
   inventory (st_gameState crafted) !! "wood" = Some 0 /\
   weapon (equipment (st_gameState crafted)) = "Iron Sword" /\
   armor (equipment (st_gameState crafted)) = "Leather Armor" /\
   canCraft (st_gameState crafted) {[ "iron" := 5; "wood" := 2 ]} = false /\
   craftEquipment (st_gameState crafted) "Iron Sword" {[ "iron" := 5; "wood" := 2 ]} crafted
     = crafted).
Proof.
  cbv zeta. split; [|split; [|split]].
  - apply canCraft_iff.
  - intros Hno. unfold craftEquipment. by rewrite Hno.
  - intros Hyes. unfold craftEquipment. rewrite Hyes.
    destruct (gainExperience_keeps_items 100
                (setGameState (craftEquipment_updater item cost) w)) as [-> ->].
    simpl. split_and!; try done.
    + intros key n Hkey.
      rewrite (lookup_spread_reduce
                 (fun key => or0 (inventory (st_gameState w) !! key) - or0 (cost !! key))).
      by rewrite Hkey.
    + intros key Hkey.
      rewrite (lookup_spread_reduce
                 (fun key => or0 (inventory (st_gameState w) !! key) - or0 (cost !! key))).
      by rewrite Hkey.
  - vm_compute. split_and!; reflexivity.
Qed.

(** The theorem at the Diamond Armor recipe with five diamonds in stock. *)
Lemma craftEquipment_all_or_nothing_witness :
  let stocked :=
    setGameState (with_inventory (<["diamonds" := 5]> (inventory initialGameState)))
      (initialWorld 0) in
  let next :=
    st_gameState
      (craftEquipment (st_gameState stocked) "Diamond Armor" {[ "diamonds" := 5 ]} stocked) in
  canCraft (st_gameState stocked) {[ "diamonds" := 5 ]} = true /\
  inventory next !! "diamonds" = Some 0 /\
  armor (equipment next) = "Diamond Armor" /\
  weapon (equipment next) = "Wooden Sword".
Proof.
  cbv zeta.
  set (stocked :=
         setGameState (with_inventory (<["diamonds" := 5]> (inventory initialGameState)))
           (initialWorld 0)).
  pose proof (craftEquipment_all_or_nothing (st_gameState stocked) "Diamond Armor"
                {[ "diamonds" := 5 ]} stocked) as H.
  cbv zeta in H. destruct H as (_ & _ & Hyes & _).
  assert (Hcan : canCraft (st_gameState stocked) {[ "diamonds" := 5 ]} = true)
    by (vm_compute; reflexivity).
  destruct (Hyes Hcan) as (Hcost & _ & Hw & Ha & _).
  split; [exact Hcan|]. split_and!.
  - rewrite (Hcost "diamonds" 5); [reflexivity | vm_compute; reflexivity].
  - rewrite Ha. reflexivity.
  - rewrite Hw. reflexivity.
Defined.

(** ** The dragon's attack scheduler *)

Lemma valid_input_iff (inp : FrameInput) :
  valid_input inp = true <->
  (0 <= random1 inp < 1)%Q /\ (0 <= random2 inp < 1)%Q /\ (-1 <= sinFly inp <= 1)%Q.
Proof.
  unfold valid_input. rewrite !andb_true_iff, !Qlt_bool_iff, !Qle_bool_iff. tauto.
Qed.

Lemma damage_roll (r : Q) : (0 <= r < 1)%Q -> 20 <= 20 + Qfloor (r * 10) <= 29.
Proof.
  intros [H0 H1].
  assert (Hlo : 0 <= Qfloor (r * 10)).
  { transitivity (Qfloor 0); [done|]. apply Qfloor_resp_le. lra. }
  assert (Hhi : Qfloor (r * 10) < 10).
  { rewrite Zlt_Qlt. eapply Qle_lt_trans; [apply Qfloor_le|]. unfold inject_Z. lra. }
  lia.
Qed.

Lemma pattern_cycle (n : nat) :
  default fireball (patterns !! (n mod length patterns)%nat)
  = match (n mod 4)%nat with
    | 0%nat => fireball
    | 1%nat => breath
    | 2%nat => aoe
    | _ => charge
    end.
Proof.
  simpl length. pose proof (Nat.mod_upper_bound n 4 ltac:(lia)) as H.
  destruct (n mod 4)%nat as [|[|[|[|k]]]]; simpl; try reflexivity. lia.
Qed.

(** C6. A frame of the dragon with the cooldown above zero only lowers it
    by the frame's [delta], not below zero.  A frame with the cooldown at
    zero makes exactly one attack: its kind is the pattern at
    [cursor mod 4] of fireball, breath, aoe, charge; its target is the
    player position the frame was given; its duration is 2000 for a
    fireball, 3000 for an aoe and 1500 otherwise; its damage is an integer
    from 20 to 29.  The attack is handed to [onAttack], which appends it to
    the active attacks and arms its removal; the cursor moves on by one and
    the cooldown becomes [2 + 2 * random], a value in [[2, 4)]. *)
Theorem DragonBoss_frame_schedule (position playerPosition : Vec3) (gameState : GameState)
  (elapsedTime delta : Q) (inp : FrameInput) (st : DragonBossState) (w : World) :
  valid_input inp = true ->
  let result :=
    DragonBoss_useFrame position playerPosition (handleDragonAttack gameState)
      elapsedTime delta inp st w in
  ((0 < attackCooldown st)%Q ->
   result = (mkDragonBossState (Qmax 0 (attackCooldown st - delta)) (currentAttackPattern st), w))
  /\
  ((attackCooldown st <= 0)%Q ->
   exists attack,
     result.2 = handleDragonAttack gameState attack w /\
     st_dragonAttacks result.2 = st_dragonAttacks w ++ [attack] /\
     timers result.2
       = timers w ++ [mkTimer (clock w + DragonAttack.duration attack)
                        (RemoveAttack gameState attack)] /\
     DragonAttack.type attack
       = match (currentAttackPattern st mod 4)%nat with
         | 0%nat => fireball
         | 1%nat => breath
         | 2%nat => aoe
         | _ => charge
         end /\
     DragonAttack.target attack = playerPosition /\
     DragonAttack.duration attack
       = match DragonAttack.type attack with
         | fireball => 2000
         | aoe => 3000
         | breath | charge => 1500
         end /\
     20 <= DragonAttack.damage attack <= 29 /\
     currentAttackPattern result.1 = (currentAttackPattern st + 1)%nat /\
     attackCooldown result.1 = (2 + random2 inp * 2)%Q /\
     (2 <= attackCooldown result.1 < 4)%Q).
Proof.
  intros Hvalid. apply valid_input_iff in Hvalid as (Hr1 & Hr2 & _).
  cbv zeta. unfold DragonBoss_useFrame, DragonBoss_newAttack. cbv zeta.
  rewrite pattern_cycle. split.
  - intros Hpos. destruct (Qle_bool (attackCooldown st) 0) eqn:E; [|done].
    apply Qle_bool_iff in E. exfalso. eapply Qlt_not_le; eauto.
  - intros Hzero. apply Qle_bool_iff in Hzero. rewrite Hzero.
    eexists. split; [reflexivity|]. cbn -[Nat.modulo Qfloor Qmult Qplus].
    pose proof (damage_roll _ Hr1) as Hroll.
    split_and!; try reflexivity; try lia; try lra.
Qed.

(** The schedule at the first frame of a battle: cursor 0, cooldown 0. *)
Lemma DragonBoss_frame_schedule_witness :
  exists attack,
    st_dragonAttacks
      (DragonBoss_useFrame (0, 15, -10)%Q (0, 0, 0)%Q (handleDragonAttack initialGameState)
         0 0 (mkFrameInput 0 0.5 0.5) (mkDragonBossState 0 0) (initialWorld 0)).2 = [attack] /\
    DragonAttack.type attack = fireball /\
    DragonAttack.duration attack = 2000 /\
    20 <= DragonAttack.damage attack <= 29.
Proof.
  destruct (DragonBoss_frame_schedule (0, 15, -10)%Q (0, 0, 0)%Q initialGameState 0 0
              (mkFrameInput 0 0.5 0.5) (mkDragonBossState 0 0) (initialWorld 0) eq_refl)
    as [_ H].
  destruct (H ltac:(simpl; lra)) as (attack & _ & Hlist & _ & Htype & _ & Hdur & Hdmg & _).
  exists attack. split; [exact Hlist|]. split; [exact Htype|]. split; [|exact Hdmg].
  rewrite Hdur, Htype. reflexivity.
Defined.

(** ** Fireballs *)

Lemma Fireball_collides_iff (attack : DragonAttack) (elapsedTime : Q) :
  Fireball_collides attack elapsedTime = true <->
  (0.8 < Fireball_progress attack elapsedTime)%Q /\
  (planar2 (Fireball_position attack (Fireball_progress attack elapsedTime))
     (DragonAttack.target attack) < 1.5 * 1.5)%Q.
Proof.
  unfold Fireball_collides. cbv zeta.
  rewrite andb_true_iff, Math_sqrt_lt_iff, Qlt_bool_iff. tauto.
Qed.

Lemma Fireball_run_after_hit (attack : DragonAttack) (frames : list Q) :
  Fireball_run attack true frames = (replicate (length frames) None, true).
Proof.
  induction frames as [|t frames IH]; simpl; [done|]. by rewrite IH.
Qed.

Lemma Fireball_run_miss (attack : DragonAttack) (t : Q) (frames : list Q) :
  Fireball_collides attack t = false ->
  Fireball_run attack false (t :: frames)
  = (None :: (Fireball_run attack false frames).1, (Fireball_run attack false frames).2).
Proof.
  intros H. simpl. unfold Fireball_step. rewrite H.
  by destruct (Fireball_run attack false frames).
Qed.

Lemma Fireball_run_hit (attack : DragonAttack) (t : Q) (frames : list Q) :
  Fireball_collides attack t = true ->
  Fireball_run attack false (t :: frames)
  = (Some (DragonAttack.damage attack) :: replicate (length frames) None, true).
Proof.
  intros H. simpl. unfold Fireball_step. rewrite H.
  by rewrite Fireball_run_after_hit.
Qed.

Lemma Fireball_run_calls (attack : DragonAttack) (frames : list Q) (i : nat) (d : Z) :
  (Fireball_run attack false frames).1 !! i = Some (Some d) <->
  d = DragonAttack.damage attack /\ first_collision attack frames i.
Proof.
  revert i. induction frames as [|t frames IH]; intros i.
  - simpl. split; [done|]. by intros (_ & (? & ? & _) & _).
  - destruct (Fireball_collides attack t) eqn:E.
    + rewrite (Fireball_run_hit _ _ _ E). destruct i as [|i]; simpl.
      * split.
        -- intros [= <-]. split; [done|]. split; [eauto | intros; lia].
        -- by intros [-> _].
      * split.
        -- intros H. apply lookup_replicate in H as [? _]. done.
        -- intros (_ & _ & Hbefore). specialize (Hbefore 0%nat t ltac:(lia) eq_refl).
           congruence.
    + rewrite (Fireball_run_miss _ _ _ E). destruct i as [|i]; simpl.
      * split; [done|]. intros (_ & (t' & [= <-] & Hc) & _). congruence.
      * rewrite IH. unfold first_collision. split.
        -- intros (-> & Hhit & Hbefore). split; [done|]. split; [exact Hhit|].
           intros [|j] t' Hj Ht'; simpl in Ht'.
           ++ by injection Ht' as <-.
           ++ apply (Hbefore j); [lia | done].
        -- intros (-> & Hhit & Hbefore). split; [done|]. split; [exact Hhit|].
           intros j t' Hj Ht'. apply (Hbefore (S j)); [lia | done].
Qed.

Lemma Fireball_run_final (attack : DragonAttack) (frames : list Q) :
  (Fireball_run attack false frames).2 = true <->
  exists t, t ∈ frames /\ Fireball_collides attack t = true.
Proof.
  induction frames as [|t frames IH].
  - simpl. split; [done|]. intros (? & H & _). by apply elem_of_nil in H.
  - destruct (Fireball_collides attack t) eqn:E.
    + rewrite (Fireball_run_hit _ _ _ E). simpl. split; [|done].
      intros _. exists t. split; [left | done].
    + rewrite (Fireball_run_miss _ _ _ E). simpl. rewrite IH. split.
      * intros (t' & ? & ?). exists t'. split; [by right | done].
      * intros (t' & [->|?]%elem_of_cons & ?); [congruence | eauto].
Qed.

Lemma Fireball_run_once (attack : DragonAttack) (frames : list Q) (i j : nat) (d d' : Z) :
  (Fireball_run attack false frames).1 !! i = Some (Some d) ->
  (Fireball_run attack false frames).1 !! j = Some (Some d') ->
  i = j.
Proof.
  rewrite !Fireball_run_calls.
  intros (_ & (t & Hi & Hti) & Hbi) (_ & (t' & Hj & Htj) & Hbj).
  destruct (Nat.lt_trichotomy i j) as [Hlt|[->|Hlt]]; [|done|].
  - specialize (Hbj i t Hlt Hi). congruence.
  - specialize (Hbi j t' Hlt Hj). congruence.
Qed.

Lemma Fireball_progress_linear (attack : DragonAttack) (elapsedTime : Q) :
  0 < DragonAttack.duration attack ->
  (elapsedTime * 1000 <= DragonAttack.startTime attack + inject_Z (DragonAttack.duration attack))%Q ->
  (Fireball_progress attack elapsedTime
   == (elapsedTime * 1000 - DragonAttack.startTime attack)
      / inject_Z (DragonAttack.duration attack))%Q.
Proof.
  intros Hd Hle. unfold Fireball_progress, Math_min1. cbv zeta.
  assert (Hpos : (0 < inject_Z (DragonAttack.duration attack))%Q).
  { rewrite Zlt_Qlt in Hd. exact Hd. }
  set (d := inject_Z (DragonAttack.duration attack)) in *.
  set (e := (elapsedTime * 1000 - DragonAttack.startTime attack)%Q).
  assert (Heq : (e / 1000 / (d / 1000) == e / d)%Q) by (field; lra).
  rewrite Q.min_l; [exact Heq|].
  rewrite Heq. apply Qle_shift_div_r; [exact Hpos|]. unfold e. lra.
Qed.

Lemma Fireball_progress_done (attack : DragonAttack) (elapsedTime : Q) :
  0 < DragonAttack.duration attack ->
  (DragonAttack.startTime attack + inject_Z (DragonAttack.duration attack) <= elapsedTime * 1000)%Q ->
  (Fireball_progress attack elapsedTime == 1)%Q.
Proof.
  intros Hd Hle. unfold Fireball_progress, Math_min1. cbv zeta.
  assert (Hpos : (0 < inject_Z (DragonAttack.duration attack))%Q).
  { rewrite Zlt_Qlt in Hd. exact Hd. }
  set (d := inject_Z (DragonAttack.duration attack)) in *.
  set (e := (elapsedTime * 1000 - DragonAttack.startTime attack)%Q).
  assert (Heq : (e / 1000 / (d / 1000) == e / d)%Q) by (field; lra).
  rewrite Q.min_r; [reflexivity|].
  rewrite Heq. apply Qle_shift_div_l; [exact Hpos|]. unfold e. lra.
Qed.

(** C5. The mesh of a fireball sits at
    [origin + (target - origin) * progress], where [progress] grows linearly
    from 0 at the start time to 1 after [duration] and stays there.  Over any
    sequence of frames [onHit] is called with the attack's damage at the
    first frame where [progress > 0.8] and the mesh is less than 1.5 from the
    target in the plane, and at that frame only; from then on the component
    renders nothing.  If no frame meets the condition there is no call and
    the projectile stays rendered. *)
Theorem Fireball_resolves_at_first_collision (attack : DragonAttack) (frames : list Q) :
  let origin := DragonAttack.position attack in
  let target := DragonAttack.target attack in
  let run := Fireball_run attack false frames in
  (forall t,
     let p := Fireball_progress attack t in
     Fireball_position attack p
     = ((at0 origin + (at0 target - at0 origin) * p)%Q,
        (at1 origin + (at1 target - at1 origin) * p)%Q,
        (at2 origin + (at2 target - at2 origin) * p)%Q) /\
     (p <= 1)%Q) /\
  (0 < DragonAttack.duration attack ->
   forall t,
     ((t * 1000 <= DragonAttack.startTime attack + inject_Z (DragonAttack.duration attack))%Q ->
      (Fireball_progress attack t
       == (t * 1000 - DragonAttack.startTime attack) / inject_Z (DragonAttack.duration attack))%Q)
     /\
     ((DragonAttack.startTime attack + inject_Z (DragonAttack.duration attack) <= t * 1000)%Q ->
      (Fireball_progress attack t == 1)%Q)) /\
  (forall t,
     Fireball_collides attack t = true <->
     (0.8 < Fireball_progress attack t)%Q /\
     (planar2 (Fireball_position attack (Fireball_progress attack t)) target < 1.5 * 1.5)%Q) /\
  (forall i d,
     run.1 !! i = Some (Some d) <->
     d = DragonAttack.damage attack /\ first_collision attack frames i) /\
  (forall i j d d', run.1 !! i = Some (Some d) -> run.1 !! j = Some (Some d') -> i = j) /\
  (Fireball_rendered run.2 = false <->
   exists t, t ∈ frames /\ Fireball_collides attack t = true) /\
  ((forall t, t ∈ frames -> Fireball_collides attack t = false) ->
   (forall call, call ∈ run.1 -> call = None) /\ Fireball_rendered run.2 = true).
Proof.
  cbv zeta. split_and!.
  - intros t. split; [reflexivity|]. apply Q.le_min_r.
  - intros Hd t. split.
    + by apply Fireball_progress_linear.
    + by apply Fireball_progress_done.
  - apply Fireball_collides_iff.
  - apply Fireball_run_calls.
  - apply Fireball_run_once.
  - unfold Fireball_rendered. rewrite negb_false_iff. apply Fireball_run_final.
  - intros Hnone. split.
    + intros [d|] Hcall; [|done].
      apply list_elem_of_lookup in Hcall as [i Hi].
      apply Fireball_run_calls in Hi as (_ & (t & Ht & Hc) & _).
      apply list_elem_of_lookup_2 in Ht. specialize (Hnone t Ht). congruence.
    + unfold Fireball_rendered. rewrite negb_true_iff.
      destruct (Fireball_run attack false frames).2 eqn:E; [|done].
      apply Fireball_run_final in E as (t & Ht & Hc). specialize (Hnone t Ht). congruence.
Qed.

(** The first fireball of a battle, from the dragon at (0, 15, -10) to the
    player at the origin, seen at 1.0 s, 1.6 s, 1.75 s and 1.9 s: it hits at
    the third frame only, at [progress = 0.875]. *)
Lemma Fireball_resolves_at_first_collision_witness :
  let attack := DragonAttack.mk 0 fireball (0, 15, -10)%Q (0, 0, 0)%Q 0 2000 25 in
  let run := Fireball_run attack false [1; 1.6; 1.75; 1.9]%Q in
  first_collision attack [1; 1.6; 1.75; 1.9]%Q 2 /\
  run.1 !! 2%nat = Some (Some 25) /\
  Fireball_rendered run.2 = false.
Proof.
  cbv zeta.
  set (attack := DragonAttack.mk 0 fireball (0, 15, -10)%Q (0, 0, 0)%Q 0 2000 25).
  destruct (Fireball_resolves_at_first_collision attack [1; 1.6; 1.75; 1.9]%Q)
    as (_ & _ & _ & Hcalls & _ & Hgone & _).
  assert (Hfirst : first_collision attack [1; 1.6; 1.75; 1.9]%Q 2).
  { split.
    - exists 1.75%Q. split; reflexivity.
    - intros [|[|j]] t Hj Ht; [injection Ht as <-; reflexivity ..| lia]. }
  split; [exact Hfirst|]. split.
  - apply Hcalls. split; [reflexivity | exact Hfirst].
  - apply Hgone. exists 1.75%Q. split; [|reflexivity].
    apply list_elem_of_lookup. by exists 2%nat.
Defined.

(** ** Reachable worlds *)

Lemma run_reachable (events : list Event) (w w' : World) :
  reachable w -> run events w = Some w' -> reachable w'.
Proof.
  revert w. induction events as [|e events IH]; intros w Hw; simpl.
  - by intros [= <-].
  - destruct (step e w) as [w1|] eqn:E; [|done].
    apply IH. by eapply reachable_step.
Qed.

(** A run from the loaded page ends in a reachable world, which shows what
    was observed of it. *)
Lemma run_observed {A : Type} (f : World -> A) (events : list Event) (t0 : Z) (v : A) :
  f <$> run events (initialWorld t0) = Some v ->
  exists w, run events (initialWorld t0) = Some w /\ reachable w /\ f w = v.
Proof.
  destruct (run events (initialWorld t0)) as [w|] eqn:E; simpl; [|done].
  intros [= <-]. exists w. split_and!; [done| |done].
  eapply run_reachable; [apply reachable_initial | exact E].
Qed.

Lemma foldl_preserves {A B : Type} (P : A -> Prop) (f : A -> B -> A) (l : list B) (a : A) :
  P a -> (forall a b, b ∈ l -> P a -> P (f a b)) -> P (foldl f a l).
Proof.
  revert a. induction l as [|b l IH]; intros a Ha Hf; simpl; [done|].
  apply IH.
  - apply Hf; [left | done].
  - intros a' b' Hb'. apply Hf. by right.
Qed.

Lemma pick_timer_elem (ts : list Timer) (t : Timer) (rest : list Timer) :
  pick_timer ts = Some (t, rest) -> t ∈ ts /\ (forall x, x ∈ rest -> x ∈ ts).
Proof.
  revert t rest. induction ts as [|t0 ts IH]; intros t rest; simpl; [done|].
  destruct (pick_timer ts) as [[t' rest']|] eqn:E.
  - destruct (IH _ _ eq_refl) as [Hin Hsub].
    destruct (due t0 <=? due t'); intros [= <- <-].
    + split; [left | by right].
    + split; [by right|]. intros x [->|Hx]%elem_of_cons; [left | right; by apply Hsub].
  - intros [= <- <-]. split; [left | by intros x ?%elem_of_nil].
Qed.

(** ** The health bounds *)

Lemma bounded_setTimeout (cb : Callback) (delay : Z) (w : World) :
  callback_damage_ok cb -> bounded w -> bounded (setTimeout cb delay w).
Proof.
  intros Hcb [? ? ? ? ? ?]. constructor; simpl; try done.
  apply Forall_app. split; [done|]. by constructor.
Qed.

Lemma bounded_handlePlayerHit (gameState : GameState) (damage : Z) (w : World) :
  0 <= damage -> bounded w -> bounded (handlePlayerHit gameState damage w).
Proof.
  intros Hd Hw. unfold handlePlayerHit. destruct (invulnerable gameState); [done|].
  apply bounded_setTimeout; [done|].
  destruct Hw as [? ? ? ? ? ?]. constructor; simpl; try done.
  unfold Math_max0. lia.
Qed.

Lemma bounded_handlePlayerAttack (gameState : GameState) (w : World) :
  1 <= level gameState -> bounded w -> bounded (handlePlayerAttack gameState w).
Proof.
  intros Hl Hw. unfold handlePlayerAttack. cbv zeta.
  destruct (_ <? 500); [done|].
  apply bounded_setTimeout; [done|].
  destruct Hw as [? ? ? ? ? ?].
  destruct (Math_sqrt_lt _ _); constructor; simpl; try done.
  unfold Math_max0. destruct (bool_decide _); lia.
Qed.

Lemma bounded_handleDragonAttack (gameState : GameState) (attack : DragonAttack) (w : World) :
  0 <= DragonAttack.damage attack -> bounded w -> bounded (handleDragonAttack gameState attack w).
Proof.
  intros Hd Hw. unfold handleDragonAttack. cbv zeta.
  apply bounded_setTimeout; [done|].
  destruct Hw as [? ? ? ? ? ?]. constructor; simpl; try done.
  apply Forall_app. split; [done|]. by constructor.
Qed.

Lemma bounded_run_callback (cb : Callback) (w : World) :
  callback_damage_ok cb -> bounded w -> bounded (run_callback cb w).
Proof.
  intros Hcb Hw. destruct cb as [| |gameState attack|]; simpl.
  - by destruct Hw.
  - by destruct Hw.
  - assert (Hw' : bounded
       (setHasHit (fun ids => filter (fun i => i ≠ DragonAttack.id attack) ids)
          (setDragonAttacks
             (fun prev => filter (fun a => DragonAttack.id a ≠ DragonAttack.id attack) prev) w))).
    { destruct Hw as [? ? ? ? Ha ?]. constructor; simpl; try done.
      rewrite Forall_forall in Ha. apply Forall_forall.
      intros x [_ Hx]%list_elem_of_filter. by apply Ha. }
    destruct (DragonAttack.type attack); try done.
    destruct (aoe_in_radius gameState attack); [|done].
    by apply bounded_handlePlayerHit.
  - by destruct Hw.
Qed.

Lemma bounded_gainExperience (amount : Z) (w : World) :
  0 <= amount -> bounded w -> bounded (gainExperience amount w).
Proof.
  intros Ha Hw. unfold gainExperience. cbv zeta.
  assert (Hlevel : 1 <= newLevel_of (experience (st_gameState w) + amount)).
  { unfold newLevel_of. destruct Hw.
    pose proof (Z.div_pos (experience (st_gameState w) + amount) 1000). lia. }
  assert (Hstep : forall w0, st_gameState w0 = st_gameState w -> bounded w0 ->
                    bounded (setGameState (gainExperience_updater amount) w0)).
  { intros w0 Hsame [? ? ? ? ? ?]. rewrite Hsame in *.
    constructor; simpl; rewrite ?Hsame; try done; try lia.
    destruct (_ <? _); lia. }
  destruct (_ <? _).
  - apply Hstep; [done|]. apply bounded_setTimeout; [done|]. by destruct Hw.
  - by apply Hstep.
Qed.

Lemma bounded_addToInventory (items : gmap string Z) (w : World) :
  bounded w -> bounded (addToInventory items w).
Proof. by intros []. Qed.

Lemma bounded_unlockSection (section : string) (w : World) :
  bounded w -> bounded (unlockSection section w).
Proof. by intros []. Qed.

Lemma bounded_craftEquipment (gameState : GameState) (item : string) (cost : gmap string Z)
  (w : World) :
  bounded w -> bounded (craftEquipment gameState item cost w).
Proof.
  intros Hw. unfold craftEquipment. destruct (canCraft gameState cost); [|done].
  apply bounded_gainExperience; [lia|]. by destruct Hw.
Qed.

Lemma bounded_Fireball_useFrame (gameState : GameState) (attack : DragonAttack) (w : World) :
  0 <= DragonAttack.damage attack -> bounded w -> bounded (Fireball_useFrame gameState attack w).
Proof.
  intros Hd Hw. unfold Fireball_useFrame, Fireball_step. cbv zeta.
  destruct (bool_decide _); [done|].
  destruct (Fireball_collides _ _); [|done].
  apply bounded_handlePlayerHit; [done|]. by destruct Hw.
Qed.

Lemma bounded_frame (inp : FrameInput) (w : World) :
  valid_input inp = true -> bounded w -> bounded (frame inp w).
Proof.
  intros Hvalid Hw. unfold frame. cbv zeta.
  assert (Hmounted : Forall (fun a => 0 <= DragonAttack.damage a) (st_dragonAttacks w))
    by by destruct Hw.
  set (gameState := st_gameState w) in *.
  set (mounted := st_dragonAttacks w) in *.
  match goal with |- bounded (setLastFrame _ ?w1) => cut (bounded w1) end.
  { by intros []. }
  apply (foldl_preserves bounded).
  - destruct (st_dragonBoss w) as [st|]; [|done].
    unfold DragonBoss_useFrame. cbv zeta. destruct (Qle_bool _ _).
    + assert (Hb : bounded (handleDragonAttack gameState
                     (DragonBoss_newAttack (dragonPosition gameState) (playerPosition gameState)
                        (clock w) (elapsedTime w) inp (currentAttackPattern st)) w)).
      { apply bounded_handleDragonAttack; [|done].
        unfold DragonBoss_newAttack. cbn [DragonAttack.damage].
        apply valid_input_iff in Hvalid as (Hr & _). pose proof (damage_roll _ Hr). lia. }
      by destruct Hb.
    + by destruct Hw.
  - intros w0 attack Hin Hw0. unfold Scene_attack.
    destruct (DragonAttack.type attack) eqn:E; try done.
    apply bounded_Fireball_useFrame; [|done].
    by eapply Forall_forall in Hmounted.
Qed.

Lemma bounded_dodge_keyDown (gameState : GameState) (key : string) (w : World) :
  bounded w -> bounded (dodge_keyDown gameState key w).
Proof. intros Hw. unfold dodge_keyDown. by destruct (_ && _); destruct Hw. Qed.

Lemma bounded_dodge_keyUp (key : string) (w : World) :
  bounded w -> bounded (dodge_keyUp key w).
Proof. intros Hw. unfold dodge_keyUp. by destruct (bool_decide _); destruct Hw. Qed.

Lemma bounded_Character_keyDown (gameState : GameState) (key : string) (w : World) :
  1 <= level gameState -> bounded w -> bounded (Character_keyDown gameState key w).
Proof.
  intros Hl Hw. unfold Character_keyDown. destruct (_ && _); [|done].
  by apply bounded_handlePlayerAttack.
Qed.

Lemma bounded_commit (w : World) : bounded w -> bounded (commit w).
Proof. intros Hw. unfold commit. by repeat case_match; destruct Hw. Qed.

Lemma bounded_initial (t0 : Z) : bounded (initialWorld t0).
Proof. constructor; simpl; try lia; constructor. Qed.

Lemma bounded_handle (e : Event) (w w' : World) :
  bounded w -> handle e w = Some w' -> bounded w'.
Proof.
  intros Hw. destruct e; simpl.
  - case_match; [|done]. intros [= <-]. by destruct Hw.
  - destruct (pick_timer (timers w)) as [[t rest]|] eqn:E; [|done].
    case_match; [|done]. intros [= <-].
    apply pick_timer_elem in E as [Hin Hsub].
    assert (Hts : Forall (fun t => callback_damage_ok (callback t)) (timers w))
      by by destruct Hw.
    apply bounded_run_callback.
    + by eapply Forall_forall in Hts.
    + destruct Hw as [? ? ? ? ? ?]. constructor; simpl; try done.
      apply Forall_forall. intros x Hx. eapply Forall_forall in Hts; [exact Hts|]. by apply Hsub.
  - case_match eqn:Hv; [|done]. intros [= <-]. by apply bounded_frame.
  - intros [= <-]. apply bounded_dodge_keyDown, bounded_Character_keyDown; [|done].
    by destruct Hw.
  - intros [= <-]. by apply bounded_dodge_keyUp.
  - destruct (unlockButtons !! i) as [[[section amount] items]|] eqn:E; [|done].
    case_match; [done|]. intros [= <-].
    apply bounded_addToInventory, bounded_gainExperience, bounded_unlockSection; [|done].
    destruct i as [|[|[|[|?]]]]; simpl in E; simplify_eq; lia.
  - destruct (experiences !! i) as [rewards|] eqn:E; [|done]. intros [= <-].
    apply bounded_addToInventory, bounded_gainExperience; [|done].
    destruct i as [|[|[|?]]]; simpl in E; simplify_eq; vm_compute; done.
  - destruct (skills !! i) as [lvl|] eqn:E; [|done]. intros [= <-].
    apply bounded_addToInventory, bounded_gainExperience; [|done].
    destruct i as [|[|[|[|?]]]]; simpl in E; simplify_eq; lia.
  - destruct (projects !! i) as [rewards|] eqn:E; [|done]. intros [= <-].
    apply bounded_addToInventory, bounded_gainExperience; [|done].
    destruct i as [|[|[|?]]]; simpl in E; simplify_eq; vm_compute; done.
  - destruct (craftButtons !! i) as [[[item cost] disabled]|] eqn:E; [|done].
    case_match; [done|]. intros [= <-]. by apply bounded_craftEquipment.
  - case_match; [|done]. intros [= <-]. by destruct Hw.
  - case_match; [|done]. intros [= <-]. destruct Hw as [? ? ? ? ? ?].
    constructor; simpl; try done; lia.
Qed.

Lemma bounded_step (e : Event) (w w' : World) : bounded w -> step e w = Some w' -> bounded w'.
Proof.
  unfold step. intros Hw. destruct (handle e w) as [w1|] eqn:E; [|done].
  intros [= <-]. apply bounded_commit. by eapply bounded_handle.
Qed.

Lemma reachable_bounded (w : World) : reachable w -> bounded w.
Proof.
  induction 1 as [t0|w e w' _ IH Hstep]; [apply bounded_initial | by eapply bounded_step].
Qed.

Lemma bounded_within (w : World) : bounded w -> within_bounds w.
Proof. by intros []. Qed.

(** C1. In every world the page can reach, [health] lies between 0 and
    [maxHealth] and [dragonHealth] between 0 and [maxDragonHealth]; and from
    such a world every damage application keeps them there: a hit on the
    player of any amount that is not negative (every roll of the dragon is
    20 to 29), handled by the [handlePlayerHit] of any render, and an attack
    on the dragon by the [handlePlayerAttack] of any render at level 1 or
    more (the level never drops below 1). *)
Theorem health_within_bounds (w : World) :
  reachable w ->
  within_bounds w /\
  (forall gameState damage, 0 <= damage -> within_bounds (handlePlayerHit gameState damage w)) /\
  (forall gameState, 1 <= level gameState -> within_bounds (handlePlayerAttack gameState w)) /\
  (forall e w', step e w = Some w' -> within_bounds w').
Proof.
  intros Hw%reachable_bounded. split_and!.
  - by apply bounded_within.
  - intros gameState damage Hd. by apply bounded_within, bounded_handlePlayerHit.
  - intros gameState Hl. by apply bounded_within, bounded_handlePlayerAttack.
  - intros e w' Hstep. eapply bounded_within, bounded_step; eauto.
Qed.

Lemma health_within_bounds_witness :
  exists w,
    run first_hit (initialWorld 0) = Some w /\
    (health (st_gameState w), maxHealth (st_gameState w)) = (151, 180) /\
    within_bounds w.
Proof.
  destruct (run_observed (fun w => (health (st_gameState w), maxHealth (st_gameState w)))
              first_hit 0 (151, 180) ltac:(vm_compute; reflexivity))
    as (w & Hrun & Hreach & Hseen).
  exists w. split; [exact Hrun|]. split; [exact Hseen|].
  exact (proj1 (health_within_bounds w Hreach)).
Defined.

(** ** The unlocked sections *)

Lemma sections_handlePlayerHit (gameState : GameState) (damage : Z) (w : World) :
  sections (handlePlayerHit gameState damage w) = sections w.
Proof. unfold handlePlayerHit. by destruct (invulnerable gameState). Qed.

Lemma sections_handlePlayerAttack (gameState : GameState) (w : World) :
  sections (handlePlayerAttack gameState w) = sections w.
Proof.
  unfold handlePlayerAttack. cbv zeta.
  destruct (_ <? 500); [done|]. by destruct (Math_sqrt_lt _ _).
Qed.

Lemma sections_run_callback (cb : Callback) (w : World) :
  sections (run_callback cb w) = sections w.
Proof.
  destruct cb as [| |gameState attack|]; simpl; try done.
  destruct (DragonAttack.type attack); try done.
  destruct (aoe_in_radius gameState attack); [|done].
  by rewrite sections_handlePlayerHit.
Qed.

Lemma sections_gainExperience (amount : Z) (w : World) :
  sections (gainExperience amount w) = sections w.
Proof. unfold gainExperience. cbv zeta. by destruct (_ <? _). Qed.

Lemma sections_addToInventory (items : gmap string Z) (w : World) :
  sections (addToInventory items w) = sections w.
Proof. done. Qed.

Lemma sections_craftEquipment (gameState : GameState) (item : string) (cost : gmap string Z)
  (w : World) :
  sections (craftEquipment gameState item cost w) = sections w.
Proof.
  unfold craftEquipment. destruct (canCraft gameState cost); [|done].
  by rewrite sections_gainExperience.
Qed.

Lemma sections_frame (inp : FrameInput) (w : World) : sections (frame inp w) = sections w.
Proof.
  unfold frame. cbv zeta.
  match goal with |- sections (setLastFrame _ ?w1) = _ => change (sections w1 = sections w) end.
  apply (foldl_preserves (fun w1 => sections w1 = sections w)).
  - destruct (st_dragonBoss w) as [st|]; [|done].
    unfold DragonBoss_useFrame. cbv zeta. by destruct (Qle_bool _ _).
  - intros w1 attack _ Hw1. unfold Scene_attack.
    destruct (DragonAttack.type attack); try done.
    unfold Fireball_useFrame, Fireball_step. cbv zeta.
    destruct (bool_decide _); [done|]. destruct (Fireball_collides _ _); [|done].
    by rewrite sections_handlePlayerHit.
Qed.

Lemma sections_commit (w : World) : sections (commit w) = sections w.
Proof. unfold commit. by repeat case_match. Qed.

(** Only an unlock button changes the collection, by appending a section
    that is not yet in it. *)
Lemma sections_step (e : Event) (w w' : World) :
  step e w = Some w' ->
  sections w' = sections w \/
  exists section, (section ∉ sections w) /\ sections w' = sections w ++ [section].
Proof.
  unfold step. destruct (handle e w) as [w1|] eqn:E; [|done]. intros [= <-].
  rewrite sections_commit. destruct e; simpl in E.
  - case_match; [|done]. injection E as <-. by left.
  - destruct (pick_timer (timers w)) as [[t rest]|]; [|done].
    case_match; [|done]. injection E as <-. left. by rewrite sections_run_callback.
  - case_match; [|done]. injection E as <-. left. apply sections_frame.
  - injection E as <-. left. unfold dodge_keyDown, Character_keyDown.
    destruct (bool_decide (key = "shift") && _); destruct (isInBattle _ && _);
      try done; apply sections_handlePlayerAttack.
  - injection E as <-. left. unfold dodge_keyUp. by destruct (bool_decide _).
  - destruct (unlockButtons !! i) as [[[section amount] items]|]; [|done].
    case_match eqn:Hin; [done|]. injection E as <-. right. exists section. split.
    + by apply bool_decide_eq_false in Hin.
    + by rewrite sections_addToInventory, sections_gainExperience.
  - destruct (experiences !! i); [|done]. injection E as <-. left.
    by rewrite sections_addToInventory, sections_gainExperience.
  - destruct (skills !! i); [|done]. injection E as <-. left.
    by rewrite sections_addToInventory, sections_gainExperience.
  - destruct (projects !! i); [|done]. injection E as <-. left.
    by rewrite sections_addToInventory, sections_gainExperience.
  - destruct (craftButtons !! i) as [[[item cost] disabled]|]; [|done].
    case_match; [done|]. injection E as <-. left. apply sections_craftEquipment.
  - case_match; [|done]. injection E as <-. by left.
  - case_match; [|done]. injection E as <-. by left.
Qed.

Lemma reachable_sections_NoDup (w : World) : reachable w -> NoDup (sections w).
Proof.
  induction 1 as [t0|w e w' _ IH Hstep]; [constructor|].
  destruct (sections_step e w w' Hstep) as [->|(section & Hnew & ->)]; [done|].
  apply NoDup_app. split; [done|]. split; [|apply NoDup_singleton].
  intros x Hx Hx'. apply list_elem_of_singleton in Hx' as ->. done.
Qed.

(** C9, as it fails: two calls of [unlockSection] with the same name leave
    the name twice in the collection. *)
Lemma unlockSection_twice_duplicates :
  sections (unlockSection "about" (unlockSection "about" (initialWorld 0))) = ["about"; "about"]
  /\ ~ NoDup (sections (unlockSection "about" (unlockSection "about" (initialWorld 0)))).
Proof.
  split; [reflexivity|]. intros H. apply NoDup_cons in H as [Hnotin _].
  apply Hnotin. left.
Qed.

(** C9, amended. The collection is append-only: [unlockSection] puts the
    section at the end whatever the collection holds, and every event
    leaves the old collection as a prefix of the new one.  It is the unlock
    buttons that keep it free of duplicates: each is disabled once its
    section is in the collection, so in every world the page can reach every
    section name occurs at most once. *)
Theorem unlockedSections_append_only (w : World) :
  (forall section, sections (unlockSection section w) = sections w ++ [section]) /\
  (forall e w', step e w = Some w' -> sections w `prefix_of` sections w') /\
  (reachable w -> NoDup (sections w)) /\
  (reachable w -> forall e w', step e w = Some w' -> NoDup (sections w')).
Proof.
  split_and!.
  - done.
  - intros e w' Hstep.
    destruct (sections_step e w w' Hstep) as [->|(section & _ & ->)]; [done|].
    by apply prefix_app_r.
  - apply reachable_sections_NoDup.
  - intros Hw e w' Hstep. apply reachable_sections_NoDup. by eapply reachable_step.
Qed.

Lemma unlockedSections_append_only_witness :
  exists w,
    run to_battle (initialWorld 0) = Some w /\
    sections w = ["about"; "experience"; "skills"; "projects"] /\
    NoDup (sections w).
Proof.
  destruct (run_observed sections to_battle 0 ["about"; "experience"; "skills"; "projects"]
              ltac:(vm_compute; reflexivity))
    as (w & Hrun & Hreach & Hseen).
  exists w. split; [exact Hrun|]. split; [exact Hseen|].
  exact (proj1 (proj2 (proj2 (unlockedSections_append_only w))) Hreach).
Defined.

(** ** Which attacks can hurt the player *)

Lemma hp_handlePlayerAttack (gameState : GameState) (w : World) :
  hp (handlePlayerAttack gameState w) = hp w.
Proof.
  unfold handlePlayerAttack. cbv zeta.
  destruct (_ <? 500); [done|]. by destruct (Math_sqrt_lt _ _).
Qed.

Lemma hp_gainExperience (amount : Z) (w : World) :
  bounded w -> hp w <= hp (gainExperience amount w).
Proof.
  intros [Hh _ _ _ _ _]. unfold gainExperience, hp. cbv zeta.
  destruct (level (st_gameState w) <? _) eqn:E; simpl; rewrite E; lia.
Qed.

Lemma hp_addToInventory (items : gmap string Z) (w : World) :
  hp (addToInventory items w) = hp w.
Proof. done. Qed.

Lemma hp_craftEquipment (gameState : GameState) (item : string) (cost : gmap string Z)
  (w : World) :
  bounded w -> hp w <= hp (craftEquipment gameState item cost w).
Proof.
  intros Hw. unfold craftEquipment. destruct (canCraft gameState cost); [|done].
  etransitivity; [|apply hp_gainExperience; by destruct Hw]. done.
Qed.

(** A removal callback lowers the health only for an aoe attack whose test
    succeeds. *)
Lemma hp_run_callback (cb : Callback) (w : World) :
  hp (run_callback cb w) <> hp w ->
  exists gameState attack,
    cb = RemoveAttack gameState attack /\ DragonAttack.type attack = aoe /\
    aoe_in_radius gameState attack = true.
Proof.
  destruct cb as [| |gameState attack|]; simpl; try done.
  destruct (DragonAttack.type attack) eqn:Et; try done.
  destruct (aoe_in_radius gameState attack) eqn:Er; [|done]. eauto.
Qed.

(** A frame lowers the health only through a mounted fireball that meets
    its collision test in this frame. *)
Lemma hp_frame (inp : FrameInput) (w : World) :
  hp (frame inp w) <> hp w ->
  exists attack,
    attack ∈ st_dragonAttacks w /\ DragonAttack.type attack = fireball /\
    Fireball_collides attack (elapsedTime w) = true.
Proof.
  unfold frame. cbv zeta. intros Hne.
  match type of Hne with hp (setLastFrame _ ?w1) <> _ => change (hp w1 <> hp w) in Hne end.
  set (found := exists attack, attack ∈ st_dragonAttacks w /\ DragonAttack.type attack = fireball
                  /\ Fireball_collides attack (elapsedTime w) = true).
  match type of Hne with
  | hp (foldl ?f ?w0 ?l) <> _ =>
      assert (Hfold : (hp (foldl f w0 l) = hp w /\ clock (foldl f w0 l) = clock w
                       /\ loadTime (foldl f w0 l) = loadTime w) \/ found)
  end.
  { apply (foldl_preserves
             (fun w1 => (hp w1 = hp w /\ clock w1 = clock w /\ loadTime w1 = loadTime w)
                        \/ found)).
    - left. destruct (st_dragonBoss w) as [st|]; [|done].
      unfold DragonBoss_useFrame. cbv zeta. by destruct (Qle_bool _ _).
    - intros w1 attack Hin [(Hhp & Hclock & Hload)|Hfound]; [|by right].
      unfold Scene_attack. destruct (DragonAttack.type attack) eqn:Et; try by left.
      unfold Fireball_useFrame, Fireball_step. cbv zeta.
      destruct (bool_decide _); [by left|].
      destruct (Fireball_collides attack (elapsedTime w1)) eqn:Ec; [|by left].
      right. exists attack. split_and!; try done.
      unfold elapsedTime in *. by rewrite <- Hclock, <- Hload. }
  destruct Hfold as [(Hhp & _)|Hfound]; [done | exact Hfound].
Qed.

Lemma hp_commit (w : World) : hp (commit w) = hp w.
Proof. unfold commit. by repeat case_match. Qed.

(** The only events that lower the player's health. *)
Lemma hp_step (e : Event) (w w' : World) :
  bounded w -> step e w = Some w' -> hp w' < hp w ->
  (exists inp attack,
     e = Frame inp /\ attack ∈ st_dragonAttacks w /\ DragonAttack.type attack = fireball /\
     Fireball_collides attack (elapsedTime w) = true) \/
  (exists t rest gameState attack,
     e = TimerFires /\ pick_timer (timers w) = Some (t, rest) /\
     callback t = RemoveAttack gameState attack /\ DragonAttack.type attack = aoe /\
     aoe_in_radius gameState attack = true).
Proof.
  intros Hw. unfold step. destruct (handle e w) as [w1|] eqn:E; [|done]. intros [= <-].
  rewrite hp_commit. intros Hlt. destruct e; simpl in E.
  - case_match; [|done]. injection E as <-. unfold hp in *. simpl in *. lia.
  - destruct (pick_timer (timers w)) as [[t rest]|] eqn:Ep; [|done].
    case_match; [|done]. injection E as <-. right.
    destruct (hp_run_callback (callback t) (setTimers rest w)) as (g & a & Hcb & Ht & Hr).
    { change (hp (setTimers rest w)) with (hp w). lia. }
    exists t, rest, g, a. by split_and!.
  - case_match; [|done]. injection E as <-. left.
    destruct (hp_frame inp w) as (a & Hin & Ht & Hc); [lia|].
    exists inp, a. by split_and!.
  - injection E as <-. exfalso. revert Hlt. unfold dodge_keyDown, Character_keyDown.
    destruct (bool_decide (key = "shift") && _); destruct (isInBattle _ && _);
      change (hp (setGameState (fun prev => with_isDodging true prev) ?w0)) with (hp w0);
      rewrite ?hp_handlePlayerAttack; lia.
  - injection E as <-. exfalso. revert Hlt. unfold dodge_keyUp.
    destruct (bool_decide _); unfold hp; simpl; lia.
  - destruct (unlockButtons !! i) as [[[section amount] items]|]; [|done].
    case_match; [done|]. injection E as <-. exfalso. revert Hlt.
    rewrite hp_addToInventory.
    pose proof (hp_gainExperience amount (unlockSection section w)
                  (bounded_unlockSection section w Hw)) as Hge.
    change (hp (unlockSection section w)) with (hp w) in Hge. lia.
  - destruct (experiences !! i) as [rewards|]; [|done]. injection E as <-. exfalso.
    revert Hlt. rewrite hp_addToInventory.
    pose proof (hp_gainExperience (or0 (rewards !! "experience")) w Hw). lia.
  - destruct (skills !! i) as [lvl|]; [|done]. injection E as <-. exfalso.
    revert Hlt. rewrite hp_addToInventory.
    pose proof (hp_gainExperience lvl w Hw). lia.
  - destruct (projects !! i) as [rewards|]; [|done]. injection E as <-. exfalso.
    revert Hlt. rewrite hp_addToInventory.
    pose proof (hp_gainExperience (or0 (rewards !! "experience")) w Hw). lia.
  - destruct (craftButtons !! i) as [[[item cost] disabled]|]; [|done].
    case_match; [done|]. injection E as <-. exfalso.
    pose proof (hp_craftEquipment (st_gameState w) item cost w Hw). lia.
  - case_match; [|done]. injection E as <-. unfold hp in *. simpl in *. lia.
  - case_match; [|done]. injection E as <-. destruct Hw as [Hh _ _ _ _ _].
    unfold hp in *. simpl in *. lia.
Qed.

(** C10. A breath or charge attack has no component in the scene, so no
    collision test and no [onHit]; when its timer fires it is taken out of
    the active attacks and the game state, health included, is what it was.
    In every reachable world an event that lowers the player's health is
    either a frame in which a mounted fireball meets its collision test or
    the removal of an aoe attack whose distance test succeeds. *)
Theorem breath_and_charge_do_no_damage (w : World) :
  (forall attack,
     DragonAttack.type attack = breath \/ DragonAttack.type attack = charge ->
     Scene_attack attack = None /\
     forall gameState,
       let w' := run_callback (RemoveAttack gameState attack) w in
       st_gameState w' = st_gameState w /\
       timers w' = timers w /\
       st_dragonAttacks w'
         = filter (fun a => DragonAttack.id a ≠ DragonAttack.id attack) (st_dragonAttacks w) /\
       attack ∉ st_dragonAttacks w') /\
  (reachable w ->
   forall e w', step e w = Some w' -> hp w' < hp w ->
     (exists inp attack,
        e = Frame inp /\ attack ∈ st_dragonAttacks w /\ DragonAttack.type attack = fireball /\
        Fireball_collides attack (elapsedTime w) = true) \/
     (exists t rest gameState attack,
        e = TimerFires /\ pick_timer (timers w) = Some (t, rest) /\
        callback t = RemoveAttack gameState attack /\ DragonAttack.type attack = aoe /\
        aoe_in_radius gameState attack = true)).
Proof.
  split.
  - intros attack Htype. split.
    + unfold Scene_attack. by destruct Htype as [-> | ->].
    + intros gameState. cbv zeta. simpl.
      assert (Hgone : attack ∉ filter (fun a => DragonAttack.id a ≠ DragonAttack.id attack)
                                 (st_dragonAttacks w)).
      { intros [Hid _]%list_elem_of_filter. done. }
      by destruct Htype as [-> | ->].
  - intros Hw%reachable_bounded e w'. by apply hp_step.
Qed.

(** A breath attack of damage 29 alone in the list: no component, and its
    removal leaves the game state alone and the list empty. *)
Lemma breath_and_charge_do_no_damage_witness :
  let attack := DragonAttack.mk 7 breath (0, 15, -10)%Q (0, 0, 0)%Q 0 1500 29 in
  let w := setDragonAttacks (fun _ => [attack]) (initialWorld 0) in
  Scene_attack attack = None /\
  st_gameState (run_callback (RemoveAttack initialGameState attack) w) = initialGameState /\
  st_dragonAttacks (run_callback (RemoveAttack initialGameState attack) w) = [].
Proof.
  cbv zeta.
  set (attack := DragonAttack.mk 7 breath (0, 15, -10)%Q (0, 0, 0)%Q 0 1500 29).
  set (w := setDragonAttacks (fun _ => [attack]) (initialWorld 0)).
  destruct (breath_and_charge_do_no_damage w) as [Hquiet _].
  destruct (Hquiet attack (or_introl eq_refl)) as [Hscene Hremoved].
  destruct (Hremoved initialGameState) as (Hstate & _ & Hlist & _).
  split; [exact Hscene|]. split; [exact Hstate|]. rewrite Hlist. reflexivity.
Defined.

(** ** The player's attack *)

Lemma handlePlayerAttack_rejected (gameState : GameState) (w : World) :
  clock w - lastAttackTime gameState < 500 -> handlePlayerAttack gameState w = w.
Proof.
  intros H. unfold handlePlayerAttack. cbv zeta.
  by rewrite (proj2 (Z.ltb_lt _ _) H).
Qed.

Lemma handlePlayerAttack_accepted (gameState : GameState) (w : World) :
  500 <= clock w - lastAttackTime gameState ->
  handlePlayerAttack gameState w
  = setTimeout ResetAttackAnimation 300
      ((if in_attack_range gameState
        then setGameState
               (fun prev =>
                  with_dragonHealth (Math_max0 (dragonHealth prev - attack_damage gameState)) prev)
        else fun w => w)
         (setGameState (fun prev => with_lastAttackTime (clock w) (with_isAttacking true prev)) w)).
Proof.
  intros H. unfold handlePlayerAttack, in_attack_range, attack_damage. cbv zeta.
  rewrite (proj2 (Z.ltb_ge _ _) H). by destruct (Math_sqrt_lt _ _).
Qed.

Lemma commit_keeps (w : World) :
  st_gameState (commit w) = st_gameState w /\ clock (commit w) = clock w /\
  timers (commit w) = timers w /\ st_dragonAttacks (commit w) = st_dragonAttacks w.
Proof. unfold commit. by repeat case_match. Qed.

Lemma commit_idempotent (w : World) : commit (commit w) = commit w.
Proof.
  unfold commit.
  destruct (isInBattle (st_gameState w)) eqn:E, (st_dragonBoss w) eqn:E'; simpl; by rewrite ?E, ?E'.
Qed.

Lemma commit_setClock (now : Z) (w : World) : commit (setClock now w) = setClock now (commit w).
Proof. unfold commit. simpl. by repeat case_match. Qed.

(** C3. An attack command is a no-op when less than 500 ms passed since
    the last accepted attack.  Otherwise it is accepted: [isAttacking] is set
    and one timer is armed that clears it 300 ms later, the time of the
    attack is recorded, and, if the planar distance from the player to the
    dragon is less than 8, [dragonHealth] drops at once by
    [level * 10 + bonus] (bonus 50 with the "Diamond Sword", 20 otherwise),
    not below 0.  So when an accepted command in battle is followed by a
    second one less than 500 ms later, the second changes nothing: the
    damage is applied exactly once. *)
Theorem handlePlayerAttack_cooldown (gameState : GameState) (w : World) :
  let now := clock w in
  let after := handlePlayerAttack gameState w in
  let damage := level gameState * 10 +
                (if bool_decide (weapon (equipment gameState) = "Diamond Sword")
                 then 50 else 20) in
  let distance2 := planar2 (playerPosition gameState) (dragonPosition gameState) in
  (now - lastAttackTime gameState < 500 -> after = w) /\
  (500 <= now - lastAttackTime gameState ->
   isAttacking (st_gameState after) = true /\
   lastAttackTime (st_gameState after) = now /\
   timers after = timers w ++ [mkTimer (now + 300) ResetAttackAnimation] /\
   isAttacking (st_gameState (run_callback ResetAttackAnimation after)) = false /\
   ((distance2 < 8 * 8)%Q ->
    dragonHealth (st_gameState after) = Z.max 0 (dragonHealth (st_gameState w) - damage)) /\
   (~ (distance2 < 8 * 8)%Q ->
    dragonHealth (st_gameState after) = dragonHealth (st_gameState w))) /\
  (gameState = st_gameState w ->
   isInBattle gameState = true ->
   500 <= now - lastAttackTime gameState ->
   forall later, now <= later < now + 500 ->
     exists first second,
       step (KeyDown " ") w = Some first /\
       st_gameState first = st_gameState after /\
       step (Tick later) first = Some second /\
       step (KeyDown " ") second = Some second /\
       st_gameState second = st_gameState after).
Proof.
  cbv zeta. split; [|split].
  - apply handlePlayerAttack_rejected.
  - intros Hok. rewrite (handlePlayerAttack_accepted _ _ Hok).
    fold (attack_damage gameState).
    assert (Hrange : in_attack_range gameState = true <->
              (planar2 (playerPosition gameState) (dragonPosition gameState) < 8 * 8)%Q)
      by apply Math_sqrt_lt_iff.
    destruct (in_attack_range gameState); simpl; split_and!; try done.
    + intros Hno. exfalso. apply Hno. by apply Hrange.
    + intros Hyes. apply Hrange in Hyes. done.
  - intros -> Hbattle Hok later Hlater.
    set (after := handlePlayerAttack (st_gameState w) w).
    assert (Hlast : lastAttackTime (st_gameState after) = clock w /\ clock after = clock w
                    /\ isInBattle (st_gameState after) = true).
    { unfold after. rewrite (handlePlayerAttack_accepted _ _ Hok).
      by destruct (in_attack_range _). }
    destruct Hlast as (Hlast & Hclock & Hin).
    destruct (commit_keeps after) as (Hg & Hc & _).
    exists (commit after), (setClock later (commit after)). split_and!.
    + unfold step. simpl. unfold Character_keyDown, dodge_keyDown. by rewrite Hbattle.
    + exact Hg.
    + unfold step. simpl. rewrite Hc, Hclock.
      rewrite (proj2 (Z.leb_le _ _) (proj1 Hlater)). simpl.
      by rewrite commit_setClock, commit_idempotent.
    + unfold step. simpl. unfold Character_keyDown, dodge_keyDown. simpl.
      rewrite Hg, Hin. simpl. rewrite handlePlayerAttack_rejected.
      * simpl. by rewrite commit_setClock, commit_idempotent.
      * simpl. rewrite Hlast. lia.
    + simpl. exact Hg.
Qed.

(** An accepted attack from within range, then a second command 200 ms
    later: the dragon loses 30 once. *)
Lemma handlePlayerAttack_cooldown_witness :
  let near :=
    setClock 1000
      (setGameState (fun prev => with_playerPosition (0, 0, -5)%Q (with_isInBattle true prev))
         (initialWorld 0)) in
  exists first second,
    step (KeyDown " ") near = Some first /\
    step (Tick 1200) first = Some second /\
    step (KeyDown " ") second = Some second /\
    dragonHealth (st_gameState second) = 970.
Proof.
  cbv zeta.
  set (near := setClock 1000
                 (setGameState
                    (fun prev => with_playerPosition (0, 0, -5)%Q (with_isInBattle true prev))
                    (initialWorld 0))).
  destruct (handlePlayerAttack_cooldown (st_gameState near) near) as (_ & Hacc & Htwo).
  cbv zeta in Hacc, Htwo.
  assert (Hok : 500 <= clock near - lastAttackTime (st_gameState near)) by (by vm_compute).
  destruct (Htwo eq_refl eq_refl Hok 1200 ltac:(by vm_compute))
    as (first & second & H1 & _ & H2 & H3 & Hsame).
  exists first, second. split_and!; try done.
  rewrite Hsame. destruct (Hacc Hok) as (_ & _ & _ & _ & Hhit & _).
  rewrite Hhit; [reflexivity|]. vm_compute. reflexivity.
Defined.

(** ** Area attacks *)

Lemma aoe_in_radius_iff (gameState : GameState) (attack : DragonAttack) :
  aoe_in_radius gameState attack = true <->
  (planar2 (playerPosition gameState) (DragonAttack.target attack) < 3 * 3)%Q.
Proof. apply Math_sqrt_lt_iff. Qed.

(** What the removal of an aoe attack does.  [handleDragonAttack] arms one
    timer, due [duration] after the attack was made, and a timer runs once
    and not before it is due.  When it runs, the attack is taken out of the
    list and the player position of the render that armed the timer is
    compared with the attack's target: the [handlePlayerHit] of that render
    is called with the attack's damage exactly when the planar distance is
    less than 3, a literal of the callback (the indicator's [radius] prop
    plays no part). *)
Lemma aoe_removal_by_render (gameState : GameState) (attack : DragonAttack) (w : World) :
  DragonAttack.type attack = aoe ->
  let held := playerPosition gameState in
  let center := DragonAttack.target attack in
  let expired := run_callback (RemoveAttack gameState attack) w in
  (forall w0,
     timers (handleDragonAttack gameState attack w0)
     = timers w0 ++ [mkTimer (clock w0 + DragonAttack.duration attack)
                       (RemoveAttack gameState attack)]) /\
  (forall t rest,
     pick_timer (timers w) = Some (t, rest) ->
     callback t = RemoveAttack gameState attack ->
     (due t <= clock w ->
      handle TimerFires w
      = Some (run_callback (RemoveAttack gameState attack) (setTimers rest w))) /\
     (clock w < due t -> handle TimerFires w = None)) /\
  Scene_attack attack
    = Some (AOEIndicatorComponent center 3 (DragonAttack.duration attack)) /\
  ((planar2 held center < 3 * 3)%Q ->
   expired = handlePlayerHit gameState (DragonAttack.damage attack) (without_attack attack w)) /\
  (~ (planar2 held center < 3 * 3)%Q ->
   expired = without_attack attack w /\ st_gameState expired = st_gameState w).
Proof.
  intros Htype. cbv zeta. split_and!.
  - done.
  - intros t rest Hpick Hcb. simpl. rewrite Hpick, Hcb. split.
    + intros Hdue. by rewrite (proj2 (Z.leb_le _ _) Hdue).
    + intros Hdue. by rewrite (proj2 (Z.leb_gt _ _) Hdue).
  - unfold Scene_attack. by rewrite Htype.
  - intros Hin%aoe_in_radius_iff. simpl. by rewrite Htype, Hin.
  - intros Hout.
    assert (Hno : aoe_in_radius gameState attack = false).
    { destruct (aoe_in_radius gameState attack) eqn:E; [|done].
      apply aoe_in_radius_iff in E. done. }
    simpl. by rewrite Htype, Hno.
Qed.

(** C4 fails: the position that is compared is not the live one.  The
    removal callback reads [gameState.playerPosition] of the render that
    armed it, 3 s before it runs (lines 755-757), and on the page that
    position is never written, [onMove] of [Character] being given an empty
    function (lines 574-576).

    On the page: the aoe attack that the dragon makes at 14032 ms of the
    first battle aims at the origin, the stored position.  The player holds
    "d" from then on, and when the removal is due at 17032 ms the mesh of
    [Character] is 8.064 from the centre, outside the radius of 3.  The
    callback compares the origin with the origin and the health drops from
    151 to 122.

    In the handlers: an attack is made on the origin by a render whose
    position is at distance 2.9, and the stored position is at distance 3.1
    when the timer fires: the damage of 25 is taken.  With 3.1 at the
    start and 2.9 at expiry it is not.  For every removal, writing the
    stored position before the callback runs or after it gives the same
    world, so the position at expiry plays no part. *)
Theorem aoe_resolved_on_stale_position :
  vitals <$> run aoe_expiry (initialWorld 0) = Some (17032, 151, false) /\
  next_aoe_test <$> run aoe_expiry (initialWorld 0) = Some (Some (origin, origin, true)) /\
  (at0 (mesh walked_away) == 8.064)%Q /\
  Math_sqrt_lt (planar2 (mesh walked_away) origin) 3 = false /\
  vitals <$> run (aoe_expiry ++ [TimerFires]) (initialWorld 0) = Some (17032, 122, true) /\
  hp <$> armed_then_moved (2.9, 0, 0)%Q (3.1, 0, 0)%Q = Some 75 /\
  hp <$> armed_then_moved (3.1, 0, 0)%Q (2.9, 0, 0)%Q = Some 100 /\
  (forall gameState attack p w,
     run_callback (RemoveAttack gameState attack) (player_at p w)
     = player_at p (run_callback (RemoveAttack gameState attack) w)).
Proof.
  split_and!; try (vm_compute; reflexivity).
  intros gameState attack p w. unfold player_at. cbn [run_callback].
  destruct (DragonAttack.type attack); try reflexivity.
  destruct (aoe_in_radius gameState attack); [|reflexivity].
  unfold handlePlayerHit. destruct (invulnerable gameState); reflexivity.
Qed.

(** ** What never moves *)

Lemma frozen_setTimeout (cb : Callback) (delay : Z) (w : World) :
  callback_aimed cb -> frozen w -> frozen (setTimeout cb delay w).
Proof.
  intros Hcb [? ? ? ? ?]. constructor; simpl; try done.
  apply Forall_app. split; [done|]. by constructor.
Qed.

Lemma frozen_handlePlayerHit (gameState : GameState) (damage : Z) (w : World) :
  frozen w -> frozen (handlePlayerHit gameState damage w).
Proof.
  intros Hw. unfold handlePlayerHit. destruct (invulnerable gameState); [done|].
  apply frozen_setTimeout; [done|]. by destruct Hw.
Qed.

Lemma out_of_range (gameState : GameState) :
  playerPosition gameState = origin -> dragonPosition gameState = (0, 15, -10)%Q ->
  Math_sqrt_lt (planar2 (playerPosition gameState) (dragonPosition gameState)) 8 = false.
Proof. by intros -> ->. Qed.

Lemma frozen_handlePlayerAttack (w : World) :
  frozen w -> frozen (handlePlayerAttack (st_gameState w) w).
Proof.
  intros Hw. unfold handlePlayerAttack. cbv zeta.
  destruct (_ <? 500); [done|].
  rewrite out_of_range by by destruct Hw.
  apply frozen_setTimeout; [done|]. by destruct Hw.
Qed.

Lemma frozen_run_callback (cb : Callback) (w : World) :
  frozen w -> frozen (run_callback cb w).
Proof.
  intros Hw. destruct cb as [| |gameState attack|]; simpl; try by destruct Hw.
  assert (Hw' : frozen
       (setHasHit (fun ids => filter (fun i => i ≠ DragonAttack.id attack) ids)
          (setDragonAttacks
             (fun prev => filter (fun a => DragonAttack.id a ≠ DragonAttack.id attack) prev) w)))
    by by destruct Hw.
  destruct (DragonAttack.type attack); try done.
  destruct (aoe_in_radius gameState attack); [|done].
  by apply frozen_handlePlayerHit.
Qed.

Lemma frozen_gainExperience (amount : Z) (w : World) :
  frozen w -> frozen (gainExperience amount w).
Proof.
  intros Hw. unfold gainExperience. cbv zeta. destruct (_ <? _).
  - assert (Hw' : frozen (setTimeout HideParticles 2000 (setShowParticles true w))).
    { apply frozen_setTimeout; [done|]. by destruct Hw. }
    by destruct Hw'.
  - by destruct Hw.
Qed.

Lemma frozen_craftEquipment (gameState : GameState) (item : string) (cost : gmap string Z)
  (w : World) :
  frozen w -> frozen (craftEquipment gameState item cost w).
Proof.
  intros Hw. unfold craftEquipment. destruct (canCraft gameState cost); [|done].
  apply frozen_gainExperience. by destruct Hw.
Qed.

Lemma frozen_frame (inp : FrameInput) (w : World) : frozen w -> frozen (frame inp w).
Proof.
  intros Hw. unfold frame. cbv zeta.
  match goal with |- frozen (setLastFrame _ ?w1) => cut (frozen w1) end.
  { by intros []. }
  apply (foldl_preserves frozen).
  - destruct (st_dragonBoss w) as [st|]; [|done].
    unfold DragonBoss_useFrame. cbv zeta. destruct (Qle_bool _ _); [|by destruct Hw].
    unfold handleDragonAttack. cbv zeta.
    assert (Hw' : frozen
              (setTimeout
                 (RemoveAttack (st_gameState w)
                    (DragonBoss_newAttack (dragonPosition (st_gameState w))
                       (playerPosition (st_gameState w)) (clock w) (elapsedTime w) inp
                       (currentAttackPattern st)))
                 (DragonAttack.duration
                    (DragonBoss_newAttack (dragonPosition (st_gameState w))
                       (playerPosition (st_gameState w)) (clock w) (elapsedTime w) inp
                       (currentAttackPattern st)))
                 (setDragonAttacks
                    (fun prev =>
                       prev ++ [DragonBoss_newAttack (dragonPosition (st_gameState w))
                                  (playerPosition (st_gameState w)) (clock w) (elapsedTime w) inp
                                  (currentAttackPattern st)]) w))).
    { apply frozen_setTimeout; [|by destruct Hw]. simpl. by destruct Hw. }
    by destruct Hw'.
  - intros w0 attack _ Hw0. unfold Scene_attack.
    destruct (DragonAttack.type attack); try done.
    unfold Fireball_useFrame, Fireball_step. cbv zeta.
    destruct (bool_decide _); [done|]. destruct (Fireball_collides _ _); [|done].
    apply frozen_handlePlayerHit. by destruct Hw0.
Qed.

Lemma frozen_commit (w : World) : frozen w -> frozen (commit w).
Proof. intros Hw. unfold commit. by repeat case_match; destruct Hw. Qed.

Lemma frozen_handle (e : Event) (w w' : World) :
  frozen w -> handle e w = Some w' -> frozen w'.
Proof.
  intros Hw. destruct e; simpl.
  - case_match; [|done]. intros [= <-]. by destruct Hw.
  - destruct (pick_timer (timers w)) as [[t rest]|] eqn:E; [|done].
    case_match; [|done]. intros [= <-].
    apply pick_timer_elem in E as [Hin Hsub].
    apply frozen_run_callback.
    destruct Hw as [? ? ? ? Hts]. constructor; simpl; try done.
    rewrite Forall_forall in Hts. apply Forall_forall. intros x Hx. by apply Hts, Hsub.
  - case_match; [|done]. intros [= <-]. by apply frozen_frame.
  - intros [= <-]. unfold dodge_keyDown, Character_keyDown.
    pose proof (frozen_handlePlayerAttack w Hw) as Ha.
    destruct (isInBattle (st_gameState w) && (_ || _));
      destruct (bool_decide (key = "shift") && _); try done.
    + by destruct Ha.
    + by destruct Hw.
  - intros [= <-]. unfold dodge_keyUp. by destruct (bool_decide _); destruct Hw.
  - destruct (unlockButtons !! i) as [[[section amount] items]|] eqn:E; [|done].
    case_match; [done|]. intros [= <-].
    assert (Hg : frozen (gainExperience amount (unlockSection section w))).
    { apply frozen_gainExperience. by destruct Hw. }
    by destruct Hg.
  - destruct (experiences !! i) as [rewards|] eqn:E; [|done]. intros [= <-].
    pose proof (frozen_gainExperience (or0 (rewards !! "experience")) w Hw) as Hg.
    by destruct Hg.
  - destruct (skills !! i) as [lvl|] eqn:E; [|done]. intros [= <-].
    pose proof (frozen_gainExperience lvl w Hw) as Hg. by destruct Hg.
  - destruct (projects !! i) as [rewards|] eqn:E; [|done]. intros [= <-].
    pose proof (frozen_gainExperience (or0 (rewards !! "experience")) w Hw) as Hg.
    by destruct Hg.
  - destruct (craftButtons !! i) as [[[item cost] disabled]|] eqn:E; [|done].
    case_match; [done|]. intros [= <-]. by apply frozen_craftEquipment.
  - case_match; [|done]. intros [= <-]. by destruct Hw.
  - case_match; [|done]. intros [= <-]. by destruct Hw.
Qed.

Lemma reachable_frozen (w : World) : reachable w -> frozen w.
Proof.
  induction 1 as [t0|w e w' _ IH Hstep].
  - by constructor.
  - unfold step in Hstep. destruct (handle e w) as [w1|] eqn:E; [|done].
    injection Hstep as <-. apply frozen_commit. by eapply frozen_handle.
Qed.

(** ** Hits and invulnerability *)

(** What [handlePlayerHit] does, by the render it belongs to: with
    [invulnerable] set in that render the hit is dropped; otherwise the
    health is lowered, not below 0, the player is made invulnerable and one
    timer is armed that ends the invulnerability 1000 ms later. *)
Lemma handlePlayerHit_by_render (gameState : GameState) (damage : Z) (w : World) :
  (invulnerable gameState = true -> handlePlayerHit gameState damage w = w) /\
  (invulnerable gameState = false ->
   health (st_gameState (handlePlayerHit gameState damage w))
     = Z.max 0 (health (st_gameState w) - damage) /\
   invulnerable (st_gameState (handlePlayerHit gameState damage w)) = true /\
   timers (handlePlayerHit gameState damage w)
     = timers w ++ [mkTimer (clock w + 1000) EndInvulnerability] /\
   invulnerable (st_gameState (run_callback EndInvulnerability
                                 (handlePlayerHit gameState damage w))) = false).
Proof. unfold handlePlayerHit. split; intros ->; [done | by split_and!]. Qed.

(** X1. Two hits by the handler of one render both land.  When that render
    is not invulnerable, the second call does not see the invulnerability
    that the first has set: both damages are taken, the health stopping at
    0, and two timers are armed for the same instant.  The handler of the
    next render drops the second hit, and the handler of the render after
    the timer has run lets it through again. *)
Theorem handlePlayerHit_twice (gameState : GameState) (first second : Z) (w : World) :
  invulnerable gameState = false -> 0 <= second ->
  let once := handlePlayerHit gameState first w in
  let twice := handlePlayerHit gameState second once in
  let later := run_callback EndInvulnerability once in
  health (st_gameState twice) = Z.max 0 (health (st_gameState w) - (first + second)) /\
  timers twice
  = timers w ++ [mkTimer (clock w + 1000) EndInvulnerability;
                 mkTimer (clock w + 1000) EndInvulnerability] /\
  handlePlayerHit (st_gameState once) second once = once /\
  health (st_gameState (handlePlayerHit (st_gameState later) second later))
  = Z.max 0 (health (st_gameState w) - (first + second)).
Proof.
  intros Hvul Hsecond. cbv zeta. unfold handlePlayerHit. rewrite Hvul. simpl.
  split_and!.
  - unfold Math_max0. lia.
  - by rewrite <- app_assoc.
  - done.
  - unfold Math_max0. lia.
Qed.

(** From 100 health, hits of 25 and of 29 by one handler leave 46. *)
Lemma handlePlayerHit_twice_witness :
  health (st_gameState
            (handlePlayerHit (st_gameState (initialWorld 0)) 29
               (handlePlayerHit (st_gameState (initialWorld 0)) 25 (initialWorld 0))))
  = 46.
Proof.
  rewrite (proj1 (handlePlayerHit_twice (st_gameState (initialWorld 0)) 25 29 (initialWorld 0)
                    eq_refl ltac:(lia))).
  reflexivity.
Defined.

(** C2 fails on the page.  The removal callback of an aoe attack calls the
    [handlePlayerHit] of the render that armed it, three seconds earlier,
    and that render's [invulnerable] decides.  In this run the player is
    defeated, tries again and starts a second battle while an aoe attack of
    the first is still armed: the new battle's first fireball lands at
    41040 ms (health 180 to 151, invulnerable), and 184 ms later the old aoe
    attack is removed by a callback that still holds [invulnerable = false]:
    the health drops again, to 122, inside the invulnerability window. *)
Theorem stale_hit_inside_invulnerability_window :
  vitals <$> run retry_before_hit (initialWorld 0) = Some (41040, 180, false) /\
  vitals <$> run retry_hit (initialWorld 0) = Some (41040, 151, true) /\
  next_removal <$> run retry_hit (initialWorld 0) = Some (Some (41224, aoe, false, 29)) /\
  vitals <$> run (retry_hit ++ [Tick 41224; TimerFires]) (initialWorld 0)
    = Some (41224, 122, true).
Proof. split_and!; vm_compute; reflexivity. Qed.

(** ** Consequences of the frozen positions *)

(** X2. In every reachable world the stored player position is the origin and
    the dragon is at (0, 15, -10), ten units away in the plane: the range
    test of [handlePlayerAttack] fails and [dragonHealth] is still 1000. *)
Lemma player_attack_never_lands (w : World) :
  reachable w ->
  playerPosition (st_gameState w) = (0, 0, 0)%Q /\
  dragonPosition (st_gameState w) = (0, 15, -10)%Q /\
  in_attack_range (st_gameState w) = false /\
  dragonHealth (st_gameState w) = 1000 /\
  dragonHealth (st_gameState (handlePlayerAttack (st_gameState w) w)) = 1000.
Proof.
  intros Hw%reachable_frozen.
  pose proof (frozen_handlePlayerAttack w Hw) as Ha.
  destruct Hw as [Hp Hd Hh _ _]. split_and!; try done.
  - by apply out_of_range.
  - by destruct Ha.
Qed.

Lemma player_attack_never_lands_witness :
  exists w,
    run first_hit (initialWorld 0) = Some w /\ dragonHealth (st_gameState w) = 1000.
Proof.
  destruct (run_observed clock first_hit 0 11716 ltac:(vm_compute; reflexivity))
    as (w & Hrun & Hreach & _).
  exists w. split; [exact Hrun|].
  exact (proj1 (proj2 (proj2 (proj2 (player_attack_never_lands w Hreach))))).
Defined.

(** X3. In every reachable world an armed removal holds the player position of
    its render, which is the stored one and also the attack's target: the
    distance test of every aoe attack succeeds. *)
Lemma aoe_always_in_radius (w : World) (t : Timer) (gameState : GameState)
  (attack : DragonAttack) :
  reachable w -> t ∈ timers w -> callback t = RemoveAttack gameState attack ->
  playerPosition gameState = playerPosition (st_gameState w) /\
  DragonAttack.target attack = playerPosition gameState /\
  aoe_in_radius gameState attack = true.
Proof.
  intros Hw%reachable_frozen Hin Hcb. destruct Hw as [Hp _ _ _ Hts].
  rewrite Forall_forall in Hts. specialize (Hts t Hin). rewrite Hcb in Hts.
  destruct Hts as [Hg Ha]. unfold aoe_in_radius. rewrite Hp, Hg, Ha. done.
Qed.

(** The fireball made by the first frame of the first battle awaits its
    removal. *)
Lemma aoe_always_in_radius_witness :
  exists w t gameState attack,
    run first_attack (initialWorld 0) = Some w /\ timers w = [t] /\
    callback t = RemoveAttack gameState attack /\
    aoe_in_radius gameState attack = true.
Proof.
  destruct (run_observed only_a_removal first_attack 0 true ltac:(vm_compute; reflexivity))
    as (w & Hrun & Hreach & Hseen).
  unfold only_a_removal in Hseen.
  destruct (timers w) as [|t [|]] eqn:Et; try discriminate Hseen.
  destruct (callback t) as [| |gameState attack|] eqn:Ec; try discriminate Hseen.
  exists w, t, gameState, attack.
  split; [exact Hrun|]. split; [exact Et|]. split; [exact Ec|].
  refine (proj2 (proj2 (aoe_always_in_radius w t gameState attack Hreach _ Ec))).
  rewrite Et. left.
Defined.

(** The battle gate (line 872): ready exactly with four or more unlocked
    sections and level 5 or more. *)
Lemma readyForBattle_iff (gameState : GameState) :
  readyForBattle gameState = true <->
  (4 <= length (unlockedSections gameState))%nat /\ 5 <= level gameState.
Proof. unfold readyForBattle. rewrite andb_true_iff, !Z.leb_le. lia. Qed.

(** * The rest of the page *)

(** ** The frames and keys of [Character] *)

(** Case analysis on every [Qmin] and [Qmax] in sight, then linear
    arithmetic. *)
Ltac minmax :=
  repeat match goal with
  | |- context [Qmax ?a ?b] =>
      let x := fresh "x" in
      destruct (Q.max_spec a b) as [[? ?]|[? ?]];
      set (x := Qmax a b) in *; clearbody x
  | |- context [Qmin ?a ?b] =>
      let x := fresh "x" in
      destruct (Q.min_spec a b) as [[? ?]|[? ?]];
      set (x := Qmin a b) in *; clearbody x
  | H : context [Qmax ?a ?b] |- _ =>
      let x := fresh "x" in
      destruct (Q.max_spec a b) as [[? ?]|[? ?]];
      set (x := Qmax a b) in *; clearbody x
  | H : context [Qmin ?a ?b] |- _ =>
      let x := fresh "x" in
      destruct (Q.min_spec a b) as [[? ?]|[? ?]];
      set (x := Qmin a b) in *; clearbody x
  end;
  lra.

Lemma inject_Z_sub (a b : Z) : (inject_Z (a - b) == inject_Z a - inject_Z b)%Q.
Proof. unfold Z.sub. rewrite inject_Z_plus, inject_Z_opp. reflexivity. Qed.

Lemma arena_clamp_bounds (x : Q) : (-12 <= arena_clamp x <= 12)%Q.
Proof. unfold arena_clamp. minmax. Qed.

Lemma arena_clamp_island (x : Q) : (-25 < arena_clamp x < 25)%Q.
Proof. pose proof (arena_clamp_bounds x). lra. Qed.

Lemma arena_clamp_near (x y k : Q) :
  (-12 <= x <= 12)%Q -> (x - k <= y <= x + k)%Q ->
  (x - k <= arena_clamp y <= x + k)%Q.
Proof. intros Hx Hy. unfold arena_clamp. minmax. Qed.

Lemma explore_allowed_iff (x z : Q) :
  explore_allowed x z = true <-> on_island (x, 0%Q, z).
Proof.
  unfold explore_allowed, on_island, at0, at2. simpl.
  rewrite !andb_true_iff, !Qlt_bool_iff. tauto.
Qed.

Lemma Character_useFrame_holds (position : Vec3) (isDodging : bool) (delta sinWalk : Q)
  (c : CharacterState) :
  if held_any (movement c)
  then is_Some (Character_useFrame position true isDodging delta sinWalk c).2
  else Character_useFrame position true isDodging delta sinWalk c = (c, None).
Proof.
  unfold Character_useFrame. cbv zeta. fold (held_any (movement c)).
  destruct (held_any (movement c)); simpl; [by eexists | done].
Qed.

(** X5. The frame of [Character] and the bounds of the two play fields.  A
    mesh strictly inside the square of side 50 stays there, whatever the
    mode; in battle a frame with a movement key held puts the mesh inside
    the arena (side 24), and without one it leaves the component alone, also
    when the mesh stands outside the arena; outside battle a step that would
    leave the square is dropped as a whole, neither coordinate moves.
    [onMove] is called exactly when the mesh moves, with the new x and z and
    the y of the [position] prop; the mesh bobs at most 0.1 around that y. *)
Theorem Character_useFrame_bounds (position : Vec3) (isInBattle isDodging : bool)
  (delta sinWalk : Q) (c : CharacterState) :
  let result := Character_useFrame position isInBattle isDodging delta sinWalk c in
  (on_island (mesh c) -> on_island (mesh result.1)) /\
  (isInBattle = true ->
     if held_any (movement c) then is_Some result.2 /\ in_arena (mesh result.1)
     else result = (c, None)) /\
  (isInBattle = false ->
     let target :=
       ((at0 (mesh c) + Math_cos (direction c) * 3 * delta)%Q, 0%Q,
        (at2 (mesh c) + Math_sin (direction c) * 3 * delta)%Q) in
     (is_Some result.2 <-> isMoving c = true /\ on_island target) /\
     (forall p, result.2 = Some p -> at0 p = at0 target /\ at2 p = at2 target)) /\
  (result.2 = None -> result.1 = c) /\
  (forall p, result.2 = Some p ->
     p = (at0 (mesh result.1), at1 position, at2 (mesh result.1)) /\
     ((-1 <= sinWalk <= 1)%Q ->
      (at1 position - 0.1 <= at1 (mesh result.1) <= at1 position + 0.1)%Q)) /\
  movement result.1 = movement c /\ isMoving result.1 = isMoving c /\
  direction result.1 = direction c.
Proof.
  cbv zeta. unfold Character_useFrame. cbv zeta.
  destruct isInBattle.
  - fold (held_any (movement c)).
    destruct (held_any (movement c)) eqn:Hheld; simpl.
    + split_and!; try done.
      * intros _. split; apply arena_clamp_island.
      * intros _. split; [by eexists|]. split; apply arena_clamp_bounds.
      * intros p [= <-]. split; [done|]. unfold at1. simpl. lra.
    + split_and!; done.
  - destruct (isMoving c) eqn:Hmoving; [|split_and!; try done; simpl].
    + destruct (explore_allowed _ _) eqn:Hallowed; simpl.
      * apply explore_allowed_iff in Hallowed.
        split_and!; try done.
        -- intros _ . split; [|by intros p [= <-]].
           split; [done | by intros _; eexists].
        -- intros p [= <-]. split; [done|]. unfold at1. simpl. lra.
      * split_and!; try done. intros _.
        split; [|done]. split; [by intros [? ?]|].
        intros [_ Hon]. apply explore_allowed_iff in Hon. congruence.
    + intros _. split; [|done]. split; [by intros [? ?] | by intros [? _]].
Qed.

(** X6. How far one battle frame can carry the character.  From inside the
    arena, after a frame of [delta] seconds each of x and z has changed by
    at most [speed * delta], where the speed is 8 while dodging and 4
    otherwise, whatever keys are held. *)
Theorem Character_battle_speed (position : Vec3) (isDodging : bool) (delta sinWalk : Q)
  (c : CharacterState) :
  (0 <= delta)%Q -> in_arena (mesh c) ->
  let speed := (if isDodging then 8 else 4)%Q in
  let c' := (Character_useFrame position true isDodging delta sinWalk c).1 in
  (at0 (mesh c) - speed * delta <= at0 (mesh c') <= at0 (mesh c) + speed * delta)%Q /\
  (at2 (mesh c) - speed * delta <= at2 (mesh c') <= at2 (mesh c) + speed * delta)%Q.
Proof.
  intros Hdelta [Hx Hz]. cbv zeta. unfold Character_useFrame. cbv zeta.
  set (speed := (if isDodging then 8 else 4)%Q).
  assert (Hstep : (0 <= speed * delta)%Q).
  { apply Qmult_le_0_compat; [|done]. subst speed. by destruct isDodging. }
  set (k := (speed * delta)%Q) in *.
  destruct (Movement.w (movement c)), (Movement.s (movement c)),
    (Movement.a (movement c)), (Movement.d (movement c)); simpl;
    unfold at0, at2 in *; simpl;
    try (split; apply arena_clamp_near; try done; lra);
    lra.
Qed.

Lemma Character_battle_speed_witness :
  let c := setMovement (with_d true) (Character_mount (0, 0, 0)%Q) in
  (at0 (mesh (Character_useFrame (0, 0, 0)%Q true true 0.5 0 c).1) == 4)%Q /\
  (at0 (mesh c) - 8 * 0.5 <= at0 (mesh (Character_useFrame (0, 0, 0)%Q true true 0.5 0 c).1)
   <= at0 (mesh c) + 8 * 0.5)%Q.
Proof.
  cbv zeta. split; [vm_compute; reflexivity|].
  refine (proj1 (Character_battle_speed (0, 0, 0)%Q true 0.5 0
                   (setMovement (with_d true) (Character_mount (0, 0, 0)%Q)) _ _)).
  - vm_compute. discriminate.
  - unfold in_arena. vm_compute. split; split; discriminate.
Defined.

Lemma arena_clamp_lt (x y : Q) : (-12 < x)%Q -> (y < x)%Q -> (arena_clamp y < x)%Q.
Proof. intros Hx Hy. unfold arena_clamp. minmax. Qed.

Lemma arena_clamp_gt (x y : Q) : (x < 12)%Q -> (x < y)%Q -> (x < arena_clamp y)%Q.
Proof. intros Hx Hy. unfold arena_clamp. minmax. Qed.

(** X7. The forward and backward keys are swapped between the two modes.  With
    no other key held, a frame after pressing [w] moves the character
    towards smaller z in battle (line 161) and towards larger z outside
    battle (direction pi/2, line 185), and [s] the other way round; [a] and
    [d] move towards smaller and larger x in both modes.  In battle the
    character must not stand at the wall it walks to; outside battle the
    step must be allowed. *)
Theorem Character_forward_keys_swap (position : Vec3) (isDodging : bool) (delta sinWalk : Q)
  (c : CharacterState) :
  (0 < delta)%Q -> movement c = nothing_held ->
  let frame_after isInBattle key :=
    Character_useFrame position isInBattle isDodging delta sinWalk
      (Character_handleKeyDown isInBattle key c).1 in
  let x := at0 (mesh c) in
  let z := at2 (mesh c) in
  ((-12 < z)%Q -> (at2 (mesh (frame_after true "w").1) < z)%Q) /\
  (is_Some (frame_after false "w").2 -> (z < at2 (mesh (frame_after false "w").1))%Q) /\
  ((z < 12)%Q -> (z < at2 (mesh (frame_after true "s").1))%Q) /\
  (is_Some (frame_after false "s").2 -> (at2 (mesh (frame_after false "s").1) < z)%Q) /\
  ((-12 < x)%Q -> (at0 (mesh (frame_after true "a").1) < x)%Q) /\
  (is_Some (frame_after false "a").2 -> (at0 (mesh (frame_after false "a").1) < x)%Q) /\
  ((x < 12)%Q -> (x < at0 (mesh (frame_after true "d").1))%Q) /\
  (is_Some (frame_after false "d").2 -> (x < at0 (mesh (frame_after false "d").1))%Q).
Proof.
  intros Hdelta Hnone. cbv beta zeta.
  assert (Hstep : (0 < (if isDodging then 8 else 4) * delta)%Q).
  { destruct isDodging; lra. }
  change (Character_handleKeyDown true "w" c) with (setMovement (with_w true) c, false).
  change (Character_handleKeyDown true "s" c) with (setMovement (with_s true) c, false).
  change (Character_handleKeyDown true "a" c) with (setMovement (with_a true) c, false).
  change (Character_handleKeyDown true "d" c) with (setMovement (with_d true) c, false).
  change (Character_handleKeyDown false "w" c)
    with (setDirection angle_half_pi (setIsMoving true c), false).
  change (Character_handleKeyDown false "s" c)
    with (setDirection angle_minus_half_pi (setIsMoving true c), false).
  change (Character_handleKeyDown false "a" c)
    with (setDirection angle_pi (setIsMoving true c), false).
  change (Character_handleKeyDown false "d" c)
    with (setDirection angle_0 (setIsMoving true c), false).
  unfold Character_useFrame.
  cbn -[Qplus Qminus Qmult arena_clamp explore_allowed Qlt]. rewrite Hnone.
  cbn -[Qplus Qminus Qmult arena_clamp explore_allowed Qlt].
  split_and!.
  - intros Hz. apply arena_clamp_lt; [done|]. lra.
  - destruct (explore_allowed _ _); cbn -[Qplus Qminus Qmult Qlt]; [intros _ | by intros [? ?]].
    lra.
  - intros Hz. apply arena_clamp_gt; [done|]. lra.
  - destruct (explore_allowed _ _); cbn -[Qplus Qminus Qmult Qlt]; [intros _ | by intros [? ?]].
    lra.
  - intros Hx. apply arena_clamp_lt; [done|]. lra.
  - destruct (explore_allowed _ _); cbn -[Qplus Qminus Qmult Qlt]; [intros _ | by intros [? ?]].
    lra.
  - intros Hx. apply arena_clamp_gt; [done|]. lra.
  - destruct (explore_allowed _ _); cbn -[Qplus Qminus Qmult Qlt]; [intros _ | by intros [? ?]].
    lra.
Qed.

Lemma Character_forward_keys_swap_witness :
  let c := Character_mount (0, 0, 0)%Q in
  let frame_after isInBattle :=
    Character_useFrame (0, 0, 0)%Q isInBattle false 1 0
      (Character_handleKeyDown isInBattle "w" c).1 in
  (at2 (mesh (frame_after true).1) < 0)%Q /\ (0 < at2 (mesh (frame_after false).1))%Q.
Proof.
  cbv zeta.
  pose proof (Character_forward_keys_swap (0, 0, 0)%Q false 1 0 (Character_mount (0, 0, 0)%Q)
                ltac:(reflexivity) ltac:(reflexivity)) as H.
  cbv zeta in H. destruct H as (Hbattle & Hexplore & _).
  split.
  - apply Hbattle. reflexivity.
  - apply Hexplore. vm_compute. eauto.
Defined.

(** X8. The two key handlers in one mode.  Neither moves the mesh.  In battle
    a release after a press of the same key leaves what the release alone
    leaves: the key's flag cleared, the other flags as they were; only
    space and enter call [onAttack].  Outside battle every key, also one
    that is no movement key, sets [isMoving] when pressed and clears it when
    released, so the release of any key stops the walk while others are
    still held; the held flags are not touched there. *)
Theorem Character_handleKey_round_trip (inBattle : bool) (key : string) (c : CharacterState) :
  let down := Character_handleKeyDown inBattle key c in
  let up := Character_handleKeyUp inBattle key in
  mesh down.1 = mesh c /\ mesh (up c) = mesh c /\
  down.2 = inBattle && key_is key " " "enter" /\
  (inBattle = true ->
     up down.1 = up c /\
     isMoving down.1 = isMoving c /\ direction down.1 = direction c /\
     (held_any (movement c) = false -> movement (up down.1) = movement c)) /\
  (inBattle = false ->
     isMoving down.1 = true /\ isMoving (up down.1) = false /\
     movement down.1 = movement c /\ movement (up c) = movement c /\
     direction (up c) = direction c) /\
  (forall gameState w, isInBattle gameState = inBattle ->
     Character_keyDown gameState key w
     = if down.2 then handlePlayerAttack gameState w else w).
Proof.
  cbv zeta. split_and!.
  - unfold Character_handleKeyDown. by repeat case_match.
  - unfold Character_handleKeyUp. by repeat case_match.
  - unfold Character_handleKeyDown. destruct inBattle; [|by repeat case_match].
    unfold key_is. by repeat (case_bool_decide; simplify_eq; simpl; try done).
  - intros ->. unfold Character_handleKeyDown, Character_handleKeyUp.
    destruct (key_is key "w" "arrowup"), (key_is key "s" "arrowdown"),
      (key_is key "a" "arrowleft"), (key_is key "d" "arrowright"), (key_is key " " "enter");
      simpl; (split_and!; try done);
      unfold held_any; destruct c as [[[] [] [] []] ? ? ?]; simpl; done.
  - intros ->. unfold Character_handleKeyDown, Character_handleKeyUp. cbv zeta.
    split_and!; try done; by repeat case_match.
  - intros gameState w Hmode. unfold Character_keyDown, Character_handleKeyDown.
    rewrite Hmode. destruct inBattle; [|by repeat case_match].
    unfold key_is. by repeat (case_bool_decide; simplify_eq; simpl; try done).
Qed.

(** X9. A key pressed in one mode and released in the other.  The release
    handler of the other mode does not undo the press: a movement key
    pressed in battle and released outside it stays held, so every later
    battle frame moves the character with no key down; a key pressed
    outside battle and released in battle leaves [isMoving] set. *)
Theorem Character_keys_stick_across_modes (position : Vec3) (isDodging : bool)
  (delta sinWalk : Q) (key : string) (c : CharacterState) :
  let pressed_in_battle := (Character_handleKeyDown true key c).1 in
  let pressed_outside := (Character_handleKeyDown false key c).1 in
  movement (Character_handleKeyUp false key pressed_in_battle) = movement pressed_in_battle /\
  (key ∈ ["w"; "arrowup"; "s"; "arrowdown"; "a"; "arrowleft"; "d"; "arrowright"] ->
     held_any (movement (Character_handleKeyUp false key pressed_in_battle)) = true /\
     is_Some (Character_useFrame position true isDodging delta sinWalk
                (Character_handleKeyUp false key pressed_in_battle)).2) /\
  isMoving (Character_handleKeyUp true key pressed_outside) = true.
Proof.
  cbv zeta. split_and!.
  - done.
  - intros Hkey.
    assert (Hheld : held_any (movement (Character_handleKeyUp false key
                                          (Character_handleKeyDown true key c).1)) = true).
    { unfold Character_handleKeyDown, Character_handleKeyUp, key_is, held_any.
      destruct c as [[[] [] [] []] ? ? ?];
        repeat (apply elem_of_cons in Hkey as [->|Hkey];
                [simpl; by repeat (case_bool_decide; simpl; try done)|]);
      by apply elem_of_nil in Hkey. }
    split; [done|].
    pose proof (Character_useFrame_holds position isDodging delta sinWalk
                  (Character_handleKeyUp false key (Character_handleKeyDown true key c).1)) as H.
    rewrite Hheld in H. apply H.
  - unfold Character_handleKeyDown, Character_handleKeyUp, key_is. simpl.
    by repeat (case_bool_decide; simpl; simplify_eq; try done).
Qed.

Lemma Character_keys_stick_across_modes_witness :
  held_any (movement (Character_handleKeyUp false "w"
                        (Character_handleKeyDown true "w" (Character_mount (0, 0, 0)%Q)).1))
  = true.
Proof.
  refine (proj1 (proj1 (proj2 (Character_keys_stick_across_modes (0, 0, 0)%Q false 1 0 "w"
                                 (Character_mount (0, 0, 0)%Q))) _)).
  set_solver.
Defined.

(** ** When a fireball can hit *)

Lemma Fireball_distance (attack : DragonAttack) (progress : Q) :
  (planar2 (Fireball_position attack progress) (DragonAttack.target attack)
   == (1 - progress) * (1 - progress)
      * planar2 (DragonAttack.position attack) (DragonAttack.target attack))%Q.
Proof. unfold planar2, Fireball_position, Math_pow2, at0, at2. simpl. ring. Qed.

Lemma Fireball_progress_le_1 (attack : DragonAttack) (elapsedTime : Q) :
  (Fireball_progress attack elapsedTime <= 1)%Q.
Proof. unfold Fireball_progress, Math_min1. cbv zeta. apply Q.le_min_r. Qed.

(** X10. The window in which a fireball hits.  The mesh is [(1 - progress)]
    times the launch distance away from its target, so the collision test
    holds exactly when [progress > 0.8] and that remainder is below 1.5: it
    never holds in the first 80% of the flight and always holds from the end
    of the flight on.  For the fireballs of the page, launched 10 away in
    the plane and flying 2000 ms, it holds exactly from 1700 ms after the
    launch: only a frame rendered in the last 300 ms before the removal
    timer is due can hit. *)
Theorem Fireball_hit_window (attack : DragonAttack) (elapsedTime : Q) :
  0 < DragonAttack.duration attack ->
  let progress := Fireball_progress attack elapsedTime in
  let launch := planar2 (DragonAttack.position attack) (DragonAttack.target attack) in
  let start := DragonAttack.startTime attack in
  let duration := inject_Z (DragonAttack.duration attack) in
  (Fireball_collides attack elapsedTime = true <->
   (0.8 < progress)%Q /\ ((1 - progress) * (1 - progress) * launch < 1.5 * 1.5)%Q) /\
  ((elapsedTime * 1000 <= start + 0.8 * duration)%Q ->
   Fireball_collides attack elapsedTime = false) /\
  ((start + duration <= elapsedTime * 1000)%Q ->
   Fireball_collides attack elapsedTime = true) /\
  ((launch == 100)%Q -> DragonAttack.duration attack = 2000 ->
   (Fireball_collides attack elapsedTime = true <-> (start + 1700 < elapsedTime * 1000)%Q)).
Proof.
  intros Hd. cbv zeta.
  assert (Hpos : (0 < inject_Z (DragonAttack.duration attack))%Q).
  { rewrite Zlt_Qlt in Hd. exact Hd. }
  assert (Hiff : Fireball_collides attack elapsedTime = true <->
            (0.8 < Fireball_progress attack elapsedTime)%Q /\
            ((1 - Fireball_progress attack elapsedTime)
             * (1 - Fireball_progress attack elapsedTime)
             * planar2 (DragonAttack.position attack) (DragonAttack.target attack)
             < 1.5 * 1.5)%Q).
  { rewrite Fireball_collides_iff, Fireball_distance. tauto. }
  assert (Hlate : (DragonAttack.startTime attack + inject_Z (DragonAttack.duration attack)
                   <= elapsedTime * 1000)%Q ->
                  Fireball_collides attack elapsedTime = true).
  { intros Hend. apply Hiff.
    pose proof (Fireball_progress_done attack elapsedTime Hd Hend) as Hone.
    rewrite Hone. split; lra. }
  split_and!; [exact Hiff | | exact Hlate |].
  - intros Hearly. apply not_true_is_false. intros [Hp _]%Hiff.
    assert (Hle : (elapsedTime * 1000
                   <= DragonAttack.startTime attack + inject_Z (DragonAttack.duration attack))%Q)
      by lra.
    rewrite (Fireball_progress_linear attack elapsedTime Hd Hle) in Hp.
    assert (Hlow : ((elapsedTime * 1000 - DragonAttack.startTime attack)
                    / inject_Z (DragonAttack.duration attack) <= 0.8)%Q).
    { apply Qle_shift_div_r; [exact Hpos|]. lra. }
    lra.
  - intros Hlaunch Hduration.
    pose proof (Fireball_progress_linear attack elapsedTime Hd) as Hlin.
    rewrite Hduration in Hlin, Hlate. change (inject_Z 2000) with 2000%Q in *.
    destruct (Qlt_le_dec (DragonAttack.startTime attack + 2000) (elapsedTime * 1000))
      as [Hafter|Hbefore].
    + split; [intros _; lra | intros _; apply Hlate; lra].
    + specialize (Hlin Hbefore).
      rewrite Hiff, Hlaunch, Hlin.
      set (e := (elapsedTime * 1000 - DragonAttack.startTime attack)%Q).
      assert (He : (e <= 2000)%Q) by (unfold e; lra).
      assert (Hp : (e / 2000 == e * (1 # 2000))%Q) by (field; lra).
      rewrite Hp. split.
      * intros [H1 H2]. assert (1700 < e)%Q by nra. unfold e in *. lra.
      * intros H. assert (1700 < e)%Q by (unfold e; lra). split; nra.
Qed.

Lemma Fireball_hit_window_witness :
  let attack := DragonAttack.mk 0 fireball (0, 15, -10)%Q (0, 0, 0)%Q 0 2000 29 in
  Fireball_collides attack 1.7 = false /\ Fireball_collides attack 1.716 = true.
Proof.
  cbv zeta.
  pose proof (fun t => proj2 (proj2 (proj2
                (Fireball_hit_window (DragonAttack.mk 0 fireball (0, 15, -10)%Q (0, 0, 0)%Q 0 2000 29)
                   t ltac:(reflexivity)))) ltac:(reflexivity) eq_refl) as H.
  split.
  - apply not_true_is_false. intros Hhit%H. revert Hhit. vm_compute. intros Hlt. discriminate Hlt.
  - apply H. reflexivity.
Defined.

(** ** The inventory as a map *)

Lemma addToInventory_lookup (items : gmap string Z) (w : World) (key : string) :
  inventory (st_gameState (addToInventory items w)) !! key
  = match items !! key with
    | Some n => Some (or0 (inventory (st_gameState w) !! key) + n)
    | None => inventory (st_gameState w) !! key
    end.
Proof.
  simpl. rewrite lookup_spread_reduce. by destruct (items !! key).
Qed.

Lemma craftEquipment_updater_lookup (item : string) (cost : gmap string Z) (prev : GameState)
  (key : string) :
  inventory (craftEquipment_updater item cost prev) !! key
  = match cost !! key with
    | Some n => Some (or0 (inventory prev !! key) - n)
    | None => inventory prev !! key
    end.
Proof.
  unfold craftEquipment_updater. simpl. rewrite lookup_spread_reduce.
  by destruct (cost !! key).
Qed.

(** X11. What [addToInventory] does to each entry, and in which order.  Every
    key of [items] gets its amount added, a key the inventory does not have
    yet is created from 0, and the keys that [items] does not list are not
    touched; no key is ever removed.  Two additions commute. *)
Theorem addToInventory_adds (items : gmap string Z) (w : World) :
  (forall key n, items !! key = Some n ->
     inventory (st_gameState (addToInventory items w)) !! key
     = Some (or0 (inventory (st_gameState w) !! key) + n)) /\
  (forall key, items !! key = None ->
     inventory (st_gameState (addToInventory items w)) !! key
     = inventory (st_gameState w) !! key) /\
  (forall key, is_Some (inventory (st_gameState w) !! key) ->
     is_Some (inventory (st_gameState (addToInventory items w)) !! key)) /\
  (forall items',
     inventory (st_gameState (addToInventory items (addToInventory items' w)))
     = inventory (st_gameState (addToInventory items' (addToInventory items w)))).
Proof.
  split_and!.
  - intros key n H. by rewrite addToInventory_lookup, H.
  - intros key H. by rewrite addToInventory_lookup, H.
  - intros key [v H]. rewrite addToInventory_lookup. destruct (items !! key); [by eexists|].
    rewrite H. by eexists.
  - intros items'. apply map_eq. intros key. rewrite !addToInventory_lookup.
    destruct (items !! key) as [n|], (items' !! key) as [n'|]; simpl; try done.
    f_equal. lia.
Qed.

(** X12. Crafting takes back exactly what [addToInventory] gives.  When every
    resource of [cost] is in the inventory, adding [cost] and then paying it
    in [craftEquipment] leaves the inventory as it was, and so does paying
    first and adding afterwards. *)
Theorem craft_cost_round_trip (item : string) (cost : gmap string Z) (w : World) :
  (forall key, is_Some (cost !! key) -> is_Some (inventory (st_gameState w) !! key)) ->
  inventory (craftEquipment_updater item cost (st_gameState (addToInventory cost w)))
  = inventory (st_gameState w) /\
  inventory (st_gameState
               (addToInventory cost (setGameState (craftEquipment_updater item cost) w)))
  = inventory (st_gameState w).
Proof.
  intros Hkeys. split; apply map_eq; intros key.
  - rewrite craftEquipment_updater_lookup, addToInventory_lookup.
    destruct (cost !! key) as [n|] eqn:E; [|done].
    destruct (Hkeys key ltac:(by eexists)) as [v ->]. simpl. f_equal. lia.
  - rewrite addToInventory_lookup. cbn [st_gameState setGameState].
    rewrite craftEquipment_updater_lookup.
    destruct (cost !! key) as [n|] eqn:E; [|done].
    destruct (Hkeys key ltac:(by eexists)) as [v ->]. simpl. f_equal. lia.
Qed.

Lemma craft_cost_round_trip_witness :
  inventory (craftEquipment_updater "Iron Armor" {[ "iron" := 8 ]}
               (st_gameState (addToInventory {[ "iron" := 8 ]} (initialWorld 0))))
  = inventory (st_gameState (initialWorld 0)).
Proof.
  refine (proj1 (craft_cost_round_trip "Iron Armor" {[ "iron" := 8 ]} (initialWorld 0) _)).
  intros key [n Hn]. apply lookup_singleton_Some in Hn as [<- _]. by eexists.
Defined.

(** X13. Claimed experience is booked twice.  The rewards of the "Claim" buttons
    carry their experience as one more key, and [addToInventory] adds every
    key it is given: a claim raises [gameState.experience] by the reward's
    experience and an inventory entry [experience] by the same amount, next
    to the resources the reward lists. *)
Theorem claimed_experience_is_stored (w w' : World) (e : Event) (rewards : gmap string Z) :
  (exists i, e = ClickClaimRewards i /\ experiences !! i = Some rewards) \/
  (exists i, e = ClickClaimProjectRewards i /\ projects !! i = Some rewards) ->
  handle e w = Some w' ->
  exists amount,
    rewards !! "experience" = Some amount /\ 0 < amount /\
    experience (st_gameState w') = experience (st_gameState w) + amount /\
    inventory (st_gameState w') !! "experience"
    = Some (or0 (inventory (st_gameState w) !! "experience") + amount).
Proof.
  intros Hclaim Hhandle.
  assert (Hw' : w' = addToInventory rewards (gainExperience (or0 (rewards !! "experience")) w)).
  { destruct Hclaim as [(i & -> & Hi)|(i & -> & Hi)]; simpl in Hhandle;
      rewrite Hi in Hhandle; congruence. }
  assert (Hamount : exists amount, rewards !! "experience" = Some amount /\ 0 < amount).
  { destruct Hclaim as [(i & _ & Hi)|(i & _ & Hi)];
      destruct i as [|[|[|?]]]; simpl in Hi; simplify_eq; eexists;
      (split; [vm_compute; reflexivity | done]). }
  destruct Hamount as (amount & Hamount & Hpos). exists amount.
  split; [done|]. split; [done|]. subst w'. rewrite Hamount. simpl or0. split.
  - unfold gainExperience. cbv zeta. by destruct (_ <? _).
  - rewrite addToInventory_lookup, Hamount.
    by rewrite (proj1 (gainExperience_keeps_items amount w)).
Qed.

Lemma claimed_experience_is_stored_witness :
  exists w',
    handle (ClickClaimRewards 0) (initialWorld 0) = Some w' /\
    inventory (st_gameState w') !! "experience" = Some 500.
Proof.
  eexists. split; [reflexivity|].
  destruct (claimed_experience_is_stored (initialWorld 0) _ (ClickClaimRewards 0)
              {[ "diamonds" := 10; "emeralds" := 5; "experience" := 500 ]}
              (or_introl (ex_intro _ 0%nat (conj eq_refl eq_refl))) eq_refl)
    as (amount & Hamount & _ & _ & Hstored).
  vm_compute in Hamount. injection Hamount as <-. exact Hstored.
Defined.

(** ** The bookkeeping invariants *)

Lemma amounts_decided (m : gmap string Z) :
  bool_decide (map_Forall (fun _ n => 0 <= n) m) = true -> map_Forall (fun _ n => 0 <= n) m.
Proof. apply bool_decide_eq_true. Qed.

Lemma kept_setTimeout (cb : Callback) (delay : Z) (w : World) :
  kept w -> kept (setTimeout cb delay w).
Proof. by intros []. Qed.

Lemma kept_handlePlayerHit (gameState : GameState) (damage : Z) (w : World) :
  kept w -> kept (handlePlayerHit gameState damage w).
Proof. intros Hw. unfold handlePlayerHit. by destruct (invulnerable gameState), Hw. Qed.

Lemma kept_handlePlayerAttack (gameState : GameState) (w : World) :
  kept w -> kept (handlePlayerAttack gameState w).
Proof.
  intros Hw. unfold handlePlayerAttack. cbv zeta.
  destruct (_ <? 500); [done|]. by destruct (Math_sqrt_lt _ _), Hw.
Qed.

Lemma kept_run_callback (cb : Callback) (w : World) : kept w -> kept (run_callback cb w).
Proof.
  intros Hw. destruct cb as [| |gameState attack|]; simpl; try by destruct Hw.
  destruct (DragonAttack.type attack); try by destruct Hw.
  destruct (aoe_in_radius gameState attack); [|by destruct Hw].
  apply kept_handlePlayerHit. by destruct Hw.
Qed.

Lemma kept_gainExperience (amount : Z) (w : World) :
  0 <= amount < 1000 -> kept w -> kept (gainExperience amount w).
Proof.
  intros Ha Hw. unfold gainExperience. cbv zeta.
  assert (Hstep : forall w0, st_gameState w0 = st_gameState w ->
                    lastFrame w0 = lastFrame w -> clock w0 = clock w ->
                    kept (setGameState (gainExperience_updater amount) w0)).
  { intros w0 Hsame Hl Hc. destruct Hw as [Hlevel Hexp Hmh Hmm Hm ? ? ? ? ? ?].
    unfold gainExperience_updater, newLevel_of.
    constructor; simpl; rewrite ?Hsame, ?Hl, ?Hc; try done; try lia.
    all: rewrite Hlevel.
    all: assert (Hdiv : (experience (st_gameState w) + amount) / 1000
                        = experience (st_gameState w) / 1000 \/
                        (experience (st_gameState w) + amount) / 1000
                        = experience (st_gameState w) / 1000 + 1).
    all: try (pose proof (Z.div_mod (experience (st_gameState w)) 1000 ltac:(lia));
              pose proof (Z.mod_pos_bound (experience (st_gameState w)) 1000 ltac:(lia));
              pose proof (Z.div_mod (experience (st_gameState w) + amount) 1000 ltac:(lia));
              pose proof (Z.mod_pos_bound (experience (st_gameState w) + amount) 1000
                            ltac:(lia));
              lia).
    all: case_match eqn:Hup; [apply Z.ltb_lt in Hup | apply Z.ltb_ge in Hup]; lia. }
  destruct (_ <? _); by apply Hstep.
Qed.

Lemma kept_addToInventory (items : gmap string Z) (w : World) :
  map_Forall (fun _ n => 0 <= n) items -> kept w -> kept (addToInventory items w).
Proof.
  intros Hitems [? ? ? ? ? Hres Hamounts ? ? ? ?]. constructor; simpl; try done.
  - rewrite Forall_forall in Hres. apply Forall_forall. intros key Hkey.
    rewrite lookup_spread_reduce. destruct (items !! key); [by eexists | by apply Hres].
  - intros key v. rewrite lookup_spread_reduce.
    destruct (items !! key) as [n|] eqn:E; [|by apply Hamounts].
    intros [= <-]. apply Hitems in E.
    destruct (inventory (st_gameState w) !! key) as [v|] eqn:Ev; simpl; [|lia].
    apply Hamounts in Ev. lia.
Qed.

Lemma kept_craftEquipment (item : string) (cost : gmap string Z) (w : World) :
  from_catalog item -> kept w -> kept (craftEquipment (st_gameState w) item cost w).
Proof.
  intros (Hsword & Harmor & Hshield) Hw. unfold craftEquipment.
  destruct (canCraft (st_gameState w) cost) eqn:Hcan; [|done].
  apply kept_gainExperience; [lia|].
  destruct Hw as [? ? ? ? ? Hres Hamounts ? ? ? ?]. constructor; simpl; try done.
  - rewrite Forall_forall in Hres. apply Forall_forall. intros key Hkey.
    rewrite lookup_spread_reduce. destruct (cost !! key); [by eexists | by apply Hres].
  - intros key v. rewrite lookup_spread_reduce.
    destruct (cost !! key) as [n|] eqn:E; [|by apply Hamounts].
    intros [= <-]. destruct (proj1 (canCraft_iff _ _) Hcan key n E) as (v & -> & Hv).
    simpl. lia.
  - destruct (includes item "Sword"); [by apply Hsword | done].
  - destruct (includes item "Armor"); [by apply Harmor | done].
  - by rewrite Hshield.
Qed.

Lemma kept_frame (inp : FrameInput) (w : World) : kept w -> kept (frame inp w).
Proof.
  intros Hw. unfold frame. cbv zeta.
  match goal with |- kept (setLastFrame (clock ?w1) ?w1) => cut (kept w1) end.
  { intros []. constructor; simpl; try done; lia. }
  apply (foldl_preserves kept).
  - destruct (st_dragonBoss w) as [st|]; [|done].
    unfold DragonBoss_useFrame, handleDragonAttack. cbv zeta.
    by destruct (Qle_bool _ _), Hw.
  - intros w0 attack _ Hw0. unfold Scene_attack.
    destruct (DragonAttack.type attack); try done.
    unfold Fireball_useFrame, Fireball_step. cbv zeta.
    destruct (bool_decide _); [done|]. destruct (Fireball_collides _ _); [|done].
    apply kept_handlePlayerHit. by destruct Hw0.
Qed.

Lemma kept_commit (w : World) : kept w -> kept (commit w).
Proof. intros Hw. unfold commit. by repeat case_match; destruct Hw. Qed.

Lemma kept_initial (t0 : Z) : kept (initialWorld t0).
Proof.
  constructor; simpl; try done; try lia.
  - repeat constructor; by eexists.
  - apply amounts_decided. vm_compute. reflexivity.
  - set_solver.
  - set_solver.
Qed.

Lemma catalog_amounts :
  Forall (fun button => 0 <= button.1.2 < 1000 /\ map_Forall (fun _ n => 0 <= n) button.2)
    unlockButtons /\
  Forall (fun rewards => 0 <= or0 (rewards !! "experience") < 1000 /\
                         map_Forall (fun _ n => 0 <= n) rewards)
    (experiences ++ projects) /\
  Forall (fun skill_level => 0 <= skill_level < 1000) skills /\
  Forall (fun button => from_catalog button.1.1) craftButtons.
Proof.
  split_and!; repeat constructor; simpl;
    try (apply amounts_decided; vm_compute; reflexivity); try done; try set_solver.
Qed.

Lemma kept_handle (e : Event) (w w' : World) : kept w -> handle e w = Some w' -> kept w'.
Proof.
  intros Hw. destruct catalog_amounts as (Hunlock & Hrewards & Hskills & Hcraft).
  apply Forall_app in Hrewards as [Hexperiences Hprojects].
  destruct e; simpl.
  - case_match eqn:Hnow; [|done]. intros [= <-]. apply Z.leb_le in Hnow.
    destruct Hw. constructor; simpl; try done. lia.
  - destruct (pick_timer (timers w)) as [[t rest]|] eqn:E; [|done].
    case_match; [|done]. intros [= <-]. apply kept_run_callback. by destruct Hw.
  - case_match; [|done]. intros [= <-]. by apply kept_frame.
  - intros [= <-]. unfold dodge_keyDown, Character_keyDown.
    pose proof (kept_handlePlayerAttack (st_gameState w) w Hw) as Ha.
    destruct (isInBattle (st_gameState w) && (_ || _));
      destruct (bool_decide (key = "shift") && _); try done.
    + by destruct Ha.
    + by destruct Hw.
  - intros [= <-]. unfold dodge_keyUp. by destruct (bool_decide _); destruct Hw.
  - destruct (unlockButtons !! i) as [[[section amount] items]|] eqn:E; [|done].
    case_match; [done|]. intros [= <-].
    eapply Forall_lookup_1 in Hunlock as [Hamount Hitems]; [|exact E].
    apply kept_addToInventory, kept_gainExperience; [done | done |]. by destruct Hw.
  - destruct (experiences !! i) as [rewards|] eqn:E; [|done]. intros [= <-].
    eapply Forall_lookup_1 in Hexperiences as [Hamount Hitems]; [|exact E].
    by apply kept_addToInventory, kept_gainExperience.
  - destruct (skills !! i) as [lvl|] eqn:E; [|done]. intros [= <-].
    eapply Forall_lookup_1 in Hskills; [|exact E].
    apply kept_addToInventory, kept_gainExperience; [|done|done].
    apply amounts_decided. vm_compute. reflexivity.
  - destruct (projects !! i) as [rewards|] eqn:E; [|done]. intros [= <-].
    eapply Forall_lookup_1 in Hprojects as [Hamount Hitems]; [|exact E].
    by apply kept_addToInventory, kept_gainExperience.
  - destruct (craftButtons !! i) as [[[item cost] disabled]|] eqn:E; [|done].
    case_match; [done|]. intros [= <-].
    eapply Forall_lookup_1 in Hcraft; [|exact E]. by apply kept_craftEquipment.
  - case_match; [|done]. intros [= <-]. by destruct Hw.
  - case_match; [|done]. intros [= <-]. by destruct Hw.
Qed.

Lemma reachable_kept (w : World) : reachable w -> kept w.
Proof.
  induction 1 as [t0|w e w' _ IH Hstep].
  - apply kept_initial.
  - unfold step in Hstep. destruct (handle e w) as [w1|] eqn:E; [|done].
    injection Hstep as <-. apply kept_commit. by eapply kept_handle.
Qed.

(** X14. On the page the level and the maxima are functions of the experience.
    In every reachable world the level is [floor(experience / 1000) + 1],
    [maxHealth] is [80 + 20 * level], [maxMana] is [40 + 10 * level] and the
    mana is full, since nothing spends it.  This rests on the amounts of
    the page, all below 1000: [gainExperience] raises the maxima once per
    call, so one gain of 2000 gives level 3 with the maxima of level 2. *)
Theorem stats_follow_level (w : World) :
  reachable w ->
  let gameState := st_gameState w in
  level gameState = experience gameState / 1000 + 1 /\
  maxHealth gameState = 80 + 20 * level gameState /\
  maxMana gameState = 40 + 10 * level gameState /\
  mana gameState = maxMana gameState /\
  (let jumped := st_gameState (gainExperience 2000 w) in
   experience gameState < 1000 -> level jumped = 3 /\ maxHealth jumped = 120).
Proof.
  intros Hw%reachable_kept. destruct Hw as [Hlevel Hexp Hmh Hmm Hm _ _ _ _ _ _].
  cbv zeta. split_and!; try done.
  intros Hsmall.
  assert (Hnext : st_gameState (gainExperience 2000 w)
                  = gainExperience_updater 2000 (st_gameState w)).
  { unfold gainExperience. by destruct (_ <? _). }
  rewrite Hnext. unfold gainExperience_updater, newLevel_of. simpl.
  assert (Hone : experience (st_gameState w) / 1000 = 0) by (apply Z.div_small; lia).
  assert (Hthree : (experience (st_gameState w) + 2000) / 1000 = 2).
  { symmetry. apply (Z.div_unique _ _ _ (experience (st_gameState w))); lia. }
  rewrite Hthree, Hlevel, Hone. simpl. rewrite Hmh, Hlevel, Hone. done.
Qed.

Lemma stats_follow_level_witness :
  exists w,
    run to_battle (initialWorld 0) = Some w /\
    (level (st_gameState w), maxHealth (st_gameState w), mana (st_gameState w)) = (5, 180, 90) /\
    maxHealth (st_gameState w) = 80 + 20 * level (st_gameState w).
Proof.
  destruct (run_observed
              (fun w => (level (st_gameState w), maxHealth (st_gameState w),
                         mana (st_gameState w)))
              to_battle 0 (5, 180, 90) ltac:(vm_compute; reflexivity))
    as (w & Hrun & Hreach & Hseen).
  exists w. split; [exact Hrun|]. split; [exact Hseen|].
  exact (proj1 (proj2 (stats_follow_level w Hreach))).
Defined.

(** X15. No resource ever runs below zero.  In every reachable world each of the
    six resources is in the inventory with an amount of 0 or more, and so
    is every other entry the rewards have added. *)
Theorem inventory_never_negative (w : World) :
  reachable w ->
  (forall key, key ∈ resources ->
     exists v, inventory (st_gameState w) !! key = Some v /\ 0 <= v) /\
  map_Forall (fun _ v => 0 <= v) (inventory (st_gameState w)).
Proof.
  intros Hw%reachable_kept. destruct Hw as [_ _ _ _ _ Hres Hamounts _ _ _ _].
  split; [|done]. intros key Hkey.
  rewrite Forall_forall in Hres. destruct (Hres key Hkey) as [v Hv].
  exists v. split; [done|]. by apply Hamounts in Hv.
Qed.

Lemma inventory_never_negative_witness :
  exists w,
    run [ClickUnlock 0; ClickUnlock 1; ClickCraft 0] (initialWorld 0) = Some w /\
    stock w = [Some 0; Some 0; Some 2; Some 2; Some 0; Some 3] /\
    map_Forall (fun _ v => 0 <= v) (inventory (st_gameState w)).
Proof.
  destruct (run_observed stock [ClickUnlock 0; ClickUnlock 1; ClickCraft 0] 0
              [Some 0; Some 0; Some 2; Some 2; Some 0; Some 3] ltac:(vm_compute; reflexivity))
    as (w & Hrun & Hreach & Hseen).
  exists w. split; [exact Hrun|]. split; [exact Hseen|].
  exact (proj2 (inventory_never_negative w Hreach)).
Defined.

Lemma less_than_has_at_least (o : option Z) (n : Z) :
  is_Some o -> less_than o n = negb (has_at_least o n).
Proof. intros [v ->]. simpl. destruct (Z.ltb_spec v n), (Z.leb_spec n v); simpl; lia. Qed.

(** X16. The [disabled] attribute of a crafting button agrees with the test
    inside [craftEquipment].  In every reachable world a button is disabled
    exactly when [canCraft] fails on its cost, so a click that the page
    lets through always crafts: it never falls into the silent no-op. *)
Theorem craft_button_enabled_iff_affordable (w : World) (i : nat) (item : string)
  (cost : gmap string Z) (disabled : GameState -> bool) :
  reachable w ->
  (craftButtons !! i : option (string * gmap string Z * (GameState -> bool)))
    = Some (item, cost, disabled) ->
  disabled (st_gameState w) = negb (canCraft (st_gameState w) cost) /\
  handle (ClickCraft i) w
  = if canCraft (st_gameState w) cost
    then Some (gainExperience 100 (setGameState (craftEquipment_updater item cost) w))
    else None.
Proof.
  intros Hw%reachable_kept Hbutton.
  assert (Hres : forall key, key ∈ resources -> is_Some (inventory (st_gameState w) !! key)).
  { apply Forall_forall. by destruct Hw. }
  assert (Hdisabled : disabled (st_gameState w) = negb (canCraft (st_gameState w) cost)).
  { unfold canCraft.
    destruct i as [|[|[|[|?]]]]; simpl in Hbutton; simplify_eq;
      match goal with
      | |- context [Object_keys ?c] =>
          let keys := eval vm_compute in (Object_keys c) in
          change (Object_keys c) with keys
      end;
      simpl; rewrite ?andb_true_r, ?negb_andb;
      rewrite !less_than_has_at_least by (apply Hres; set_solver);
      try done.
    all: apply orb_comm. }
  split; [done|].
  simpl. rewrite Hbutton, Hdisabled. unfold craftEquipment.
  by destruct (canCraft (st_gameState w) cost).
Qed.

Lemma craft_button_enabled_iff_affordable_witness :
  exists w,
    run [ClickUnlock 0; ClickUnlock 1] (initialWorld 0) = Some w /\
    affordable 0 w = true /\
    less_than (inventory (st_gameState w) !! "iron") 5
    || less_than (inventory (st_gameState w) !! "wood") 2 = false.
Proof.
  destruct (run_observed (affordable 0) [ClickUnlock 0; ClickUnlock 1] 0 true
              ltac:(vm_compute; reflexivity))
    as (w & Hrun & Hreach & Hseen).
  exists w. split; [exact Hrun|]. split; [exact Hseen|].
  pose proof (proj1 (craft_button_enabled_iff_affordable w 0 _ _ _ Hreach eq_refl)) as H.
  unfold affordable in Hseen. cbn [craftButtons lookup list_lookup] in Hseen.
  etransitivity; [exact H|]. rewrite Hseen. reflexivity.
Defined.

(** X17. The equipment the page can show.  In every reachable world the weapon
    is the Wooden, the Iron or the Diamond Sword and the armor the Leather,
    the Iron or the Diamond Armor; the shield slot is empty, because the
    crafting table has no item with Shield in its name, so the shield of
    [Character] is never drawn; and the gold branches of [getWeaponColor]
    and [getArmorColor] are never taken. *)
Theorem equipment_from_catalog (w : World) :
  reachable w ->
  let equipment := equipment (st_gameState w) in
  weapon equipment ∈ weapons /\ armor equipment ∈ armors /\
  shield equipment = "" /\ shield_shown equipment = false /\
  getWeaponColor (weapon equipment) ∈ ["#8b4513"; "#c0c0c0"; "#00ffff"] /\
  getArmorColor (armor equipment) ∈ ["#4a90e2"; "#c0c0c0"; "#00ffff"].
Proof.
  intros Hw%reachable_kept. destruct Hw as [_ _ _ _ _ _ _ Hweapon Harmor Hshield _].
  cbv zeta. split_and!; try done.
  - unfold shield_shown. by rewrite Hshield.
  - unfold weapons in Hweapon.
    repeat (apply elem_of_cons in Hweapon as [->|Hweapon]; [apply list_elem_of_In; vm_compute; tauto|]).
    by apply elem_of_nil in Hweapon.
  - unfold armors in Harmor.
    repeat (apply elem_of_cons in Harmor as [->|Harmor]; [apply list_elem_of_In; vm_compute; tauto|]).
    by apply elem_of_nil in Harmor.
Qed.

Lemma equipment_from_catalog_witness :
  exists w,
    run [ClickUnlock 0; ClickUnlock 1; ClickCraft 0] (initialWorld 0) = Some w /\
    weapon (equipment (st_gameState w)) = "Iron Sword" /\
    shield_shown (equipment (st_gameState w)) = false.
Proof.
  destruct (run_observed (fun w => weapon (equipment (st_gameState w)))
              [ClickUnlock 0; ClickUnlock 1; ClickCraft 0] 0 "Iron Sword"
              ltac:(vm_compute; reflexivity))
    as (w & Hrun & Hreach & Hseen).
  exists w. split; [exact Hrun|]. split; [exact Hseen|].
  exact (proj1 (proj2 (proj2 (proj2 (equipment_from_catalog w Hreach))))).
Defined.

(** X18. The battle section and its two buttons.  In every reachable world the
    Victory panel is not the one shown: the dragon still has its 1000
    health.  "Start Battle" can be clicked exactly under the panel that
    holds it, "Try Again" exactly under the Defeat panel, and the Defeat
    panel is shown exactly when the player is ready, in battle and at 0
    health. *)
Theorem battleSection_never_victory (w : World) :
  reachable w ->
  let gameState := st_gameState w in
  battleSection gameState <> Victory /\
  (is_Some (handle ClickStartBattle w) <-> battleSection gameState = ReadyToStart) /\
  (is_Some (handle ClickTryAgain w) <-> battleSection gameState = Defeat) /\
  (battleSection gameState = Defeat <->
   readyForBattle gameState = true /\ isInBattle gameState = true /\ health gameState = 0).
Proof.
  intros Hw. pose proof (reachable_frozen w Hw) as [_ _ Hdragon _ _].
  pose proof (reachable_bounded w Hw) as [Hhealth _ _ _ _ _].
  cbv zeta. unfold battleSection. simpl. rewrite Hdragon.
  change (1000 <=? 0) with false.
  destruct (readyForBattle (st_gameState w)), (isInBattle (st_gameState w)),
    (Z.leb_spec (health (st_gameState w)) 0); simpl;
    split_and!; try done; try (split; [by intros [? ?] | done]);
    try (split; [done | by eexists]);
    try (split; [done | intros (_ & _ & ?); lia]);
    try (split; [done | by intros (? & ? & ?)]).
  split; [intros _; split_and!; try done; lia | done].
Qed.

Lemma battleSection_never_victory_witness :
  exists w,
    run defeat (initialWorld 0) = Some w /\
    battleSection (st_gameState w) = Defeat /\ is_Some (handle ClickTryAgain w).
Proof.
  destruct (run_observed (fun w => battleSection (st_gameState w)) defeat 0 Defeat
              ltac:(vm_compute; reflexivity))
    as (w & Hrun & Hreach & Hseen).
  exists w. split; [exact Hrun|]. split; [exact Hseen|].
  exact (proj2 (proj1 (proj2 (proj2 (battleSection_never_victory w Hreach)))) Hseen).
Defined.

(** ** The bars of the HUD *)

(** X19. The three bars are well defined and never overflow.  In every
    reachable world the maxima are positive, the health bar lies between 0
    and 100 percent, and the mana bar and the dragon's bar stand at 100. *)
Theorem bars_in_range (w : World) :
  reachable w ->
  let gameState := st_gameState w in
  100 <= maxHealth gameState /\ 50 <= maxMana gameState /\
  maxDragonHealth gameState = 1000 /\
  (0 <= percentage (health gameState) (maxHealth gameState) <= 100)%Q /\
  (percentage (mana gameState) (maxMana gameState) == 100)%Q /\
  (percentage (dragonHealth gameState) (maxDragonHealth gameState) == 100)%Q.
Proof.
  intros Hw.
  pose proof (reachable_kept w Hw) as [_ _ Hmh Hmm Hm _ _ _ _ _ _].
  pose proof (reachable_bounded w Hw) as [Hhealth _ _ Hlevel _ _].
  pose proof (reachable_frozen w Hw) as [_ _ Hdragon Hmax _].
  cbv zeta. unfold percentage. rewrite Hm, Hdragon, Hmax.
  assert (Hhp : (0 < inject_Z (maxHealth (st_gameState w)))%Q).
  { change 0%Q with (inject_Z 0). rewrite <- Zlt_Qlt. lia. }
  assert (Hmp : (0 < inject_Z (maxMana (st_gameState w)))%Q).
  { change 0%Q with (inject_Z 0). rewrite <- Zlt_Qlt. lia. }
  assert (H0 : (0 <= inject_Z (health (st_gameState w)))%Q).
  { change 0%Q with (inject_Z 0). rewrite <- Zle_Qle. lia. }
  assert (H1 : (inject_Z (health (st_gameState w)) <= inject_Z (maxHealth (st_gameState w)))%Q).
  { rewrite <- Zle_Qle. lia. }
  split_and!; try lia.
  - apply Qmult_le_0_compat; [|done]. apply Qle_shift_div_l; [done|]. lra.
  - apply (Qle_trans _ (1 * 100)); [|done].
    apply Qmult_le_compat_r; [|done]. apply Qle_shift_div_r; [done|]. lra.
  - field. lra.
  - reflexivity.
Qed.

Lemma bars_in_range_witness :
  exists w,
    run first_hit (initialWorld 0) = Some w /\
    (health (st_gameState w), maxHealth (st_gameState w)) = (151, 180) /\
    (percentage (health (st_gameState w)) (maxHealth (st_gameState w)) <= 100)%Q.
Proof.
  destruct (run_observed (fun w => (health (st_gameState w), maxHealth (st_gameState w)))
              first_hit 0 (151, 180) ltac:(vm_compute; reflexivity))
    as (w & Hrun & Hreach & Hseen).
  exists w. split; [exact Hrun|]. split; [exact Hseen|].
  exact (proj2 (proj1 (proj2 (proj2 (proj2 (bars_in_range w Hreach)))))).
Defined.

(** ** Events that leave the battle alone *)

Lemma quiet_refl (w : World) : quiet w w.
Proof. by constructor. Qed.

Lemma quiet_trans (w1 w2 w3 : World) : quiet w1 w2 -> quiet w2 w3 -> quiet w1 w3.
Proof. intros [Hb Hd Hl He] [Hb' Hd' Hl' He']. constructor; [congruence.. | lia]. Qed.

Lemma quiet_handlePlayerHit (gameState : GameState) (damage : Z) (w : World) :
  quiet w (handlePlayerHit gameState damage w).
Proof. unfold handlePlayerHit. by destruct (invulnerable gameState). Qed.

Lemma quiet_handlePlayerAttack (gameState : GameState) (w : World) :
  quiet w (handlePlayerAttack gameState w).
Proof.
  unfold handlePlayerAttack. cbv zeta.
  destruct (_ <? 500); [done|]. by destruct (Math_sqrt_lt _ _).
Qed.

Lemma quiet_run_callback (cb : Callback) (w : World) : quiet w (run_callback cb w).
Proof.
  destruct cb as [| |gameState attack|]; simpl; try done.
  destruct (DragonAttack.type attack); try done.
  destruct (aoe_in_radius gameState attack); [|done].
  eapply quiet_trans; [|apply quiet_handlePlayerHit]. done.
Qed.

Lemma quiet_gainExperience (amount : Z) (w : World) :
  0 <= amount -> quiet w (gainExperience amount w).
Proof.
  intros Ha. unfold gainExperience. cbv zeta.
  destruct (_ <? _); constructor; simpl; try done; lia.
Qed.

Lemma quiet_craftEquipment (gameState : GameState) (item : string) (cost : gmap string Z)
  (w : World) :
  quiet w (craftEquipment gameState item cost w).
Proof.
  unfold craftEquipment. destruct (canCraft gameState cost); [|done].
  eapply quiet_trans; [|apply quiet_gainExperience; lia]. done.
Qed.

Lemma quiet_handle (e : Event) (w w' : World) :
  ordinary e = true -> handle e w = Some w' -> quiet w w'.
Proof.
  intros Hord. destruct catalog_amounts as (Hunlock & Hrewards & Hskills & _).
  apply Forall_app in Hrewards as [Hexperiences Hprojects].
  destruct e; simpl; try done.
  - case_match; [|done]. by intros [= <-].
  - destruct (pick_timer (timers w)) as [[t rest]|] eqn:E; [|done].
    case_match; [|done]. intros [= <-].
    eapply quiet_trans; [|apply quiet_run_callback]. done.
  - intros [= <-]. unfold dodge_keyDown, Character_keyDown.
    pose proof (quiet_handlePlayerAttack (st_gameState w) w) as Ha.
    destruct (isInBattle (st_gameState w) && (_ || _));
      destruct (bool_decide (key = "shift") && _); try done.
    by destruct Ha.
  - intros [= <-]. unfold dodge_keyUp. by destruct (bool_decide _).
  - destruct (unlockButtons !! i) as [[[section amount] items]|] eqn:E; [|done].
    case_match; [done|]. intros [= <-].
    eapply Forall_lookup_1 in Hunlock as [Hamount _]; [|exact E].
    pose proof (quiet_gainExperience amount (unlockSection section w) ltac:(simpl in *; lia))
      as Hg.
    by destruct Hg.
  - destruct (experiences !! i) as [rewards|] eqn:E; [|done]. intros [= <-].
    eapply Forall_lookup_1 in Hexperiences as [Hamount _]; [|exact E].
    pose proof (quiet_gainExperience _ w (proj1 Hamount)) as Hg. by destruct Hg.
  - destruct (skills !! i) as [lvl|] eqn:E; [|done]. intros [= <-].
    eapply Forall_lookup_1 in Hskills; [|exact E].
    pose proof (quiet_gainExperience _ w (proj1 Hskills)) as Hg. by destruct Hg.
  - destruct (projects !! i) as [rewards|] eqn:E; [|done]. intros [= <-].
    eapply Forall_lookup_1 in Hprojects as [Hamount _]; [|exact E].
    pose proof (quiet_gainExperience _ w (proj1 Hamount)) as Hg. by destruct Hg.
  - destruct (craftButtons !! i) as [[[item cost] disabled]|] eqn:E; [|done].
    case_match; [done|]. intros [= <-]. apply quiet_craftEquipment.
Qed.

(** A frame changes neither the battle mode nor the experience. *)
Lemma frame_gameState (inp : FrameInput) (w : World) :
  isInBattle (st_gameState (frame inp w)) = isInBattle (st_gameState w) /\
  experience (st_gameState (frame inp w)) = experience (st_gameState w).
Proof.
  unfold frame. cbv zeta.
  match goal with
  | |- context [setLastFrame _ ?w1] =>
      change (isInBattle (st_gameState w1) = isInBattle (st_gameState w) /\
              experience (st_gameState w1) = experience (st_gameState w))
  end.
  apply (foldl_preserves
           (fun w1 => isInBattle (st_gameState w1) = isInBattle (st_gameState w) /\
                      experience (st_gameState w1) = experience (st_gameState w))).
  - destruct (st_dragonBoss w) as [st|]; [|done].
    unfold DragonBoss_useFrame. cbv zeta. by destruct (Qle_bool _ _).
  - intros w1 attack _ [Hb He]. unfold Scene_attack.
    destruct (DragonAttack.type attack); try done.
    unfold Fireball_useFrame, Fireball_step. cbv zeta.
    destruct (bool_decide _); [done|]. destruct (Fireball_collides _ _); [|done].
    unfold handlePlayerHit. by destruct (invulnerable _).
Qed.

Lemma commit_mounted (w : World) : mounted (commit w).
Proof.
  unfold commit, mounted.
  by destruct (isInBattle (st_gameState w)) eqn:E, (st_dragonBoss w) eqn:E'; simpl;
    rewrite ?E'.
Qed.

Lemma commit_when_mounted (w : World) : mounted w -> commit w = w.
Proof.
  unfold commit, mounted.
  by destruct (st_dragonBoss w); intros ->.
Qed.

Lemma commit_gameState (w : World) : st_gameState (commit w) = st_gameState w.
Proof. unfold commit. by repeat case_match. Qed.

Lemma reachable_mounted (w : World) : reachable w -> mounted w.
Proof.
  induction 1 as [t0|w e w' _ IH Hstep]; [done|].
  unfold step in Hstep. destruct (handle e w) as [w1|]; [|done].
  injection Hstep as <-. apply commit_mounted.
Qed.

Lemma quiet_step (e : Event) (w w' : World) :
  mounted w -> ordinary e = true -> step e w = Some w' -> quiet w w'.
Proof.
  intros Hm Hord. unfold step. destruct (handle e w) as [w1|] eqn:E; [|done].
  intros [= <-]. pose proof (quiet_handle e w w1 Hord E) as Hq.
  rewrite commit_when_mounted; [done|].
  unfold mounted in *. destruct Hq as [Hb Hd _ _]. by rewrite Hd, Hb.
Qed.

Lemma run_single (e : Event) (w w' : World) : run [e] w = Some w' -> step e w = Some w'.
Proof. simpl. by destruct (step e w). Qed.

(** Every step of the page: the experience does not go down, and the
    battle mode changes only by the two battle buttons. *)
Lemma step_progress (e : Event) (w w' : World) :
  step e w = Some w' ->
  experience (st_gameState w) <= experience (st_gameState w') /\
  (isInBattle (st_gameState w') = isInBattle (st_gameState w) \/
   e = ClickStartBattle /\ isInBattle (st_gameState w) = false /\
     isInBattle (st_gameState w') = true \/
   e = ClickTryAgain /\ isInBattle (st_gameState w) = true /\
     isInBattle (st_gameState w') = false /\ health (st_gameState w) <= 0 /\
     health (st_gameState w') = maxHealth (st_gameState w')).
Proof.
  unfold step. destruct (handle e w) as [w1|] eqn:E; [|done]. intros [= <-].
  rewrite commit_gameState.
  destruct (ordinary e) eqn:Hord.
  - destruct (quiet_handle e w w1 Hord E) as [Hb _ _ He]. split; [done | by left].
  - destruct e; try done; simpl in E.
    + case_match; [|done]. injection E as <-.
      destruct (frame_gameState inp w) as [Hb He]. rewrite He. split; [done | by left].
    + case_match eqn:Hc; [|done]. injection E as <-. simpl. split; [done|].
      right. left. apply andb_true_iff in Hc as [_ Hc%negb_true_iff]. done.
    + case_match eqn:Hc; [|done]. injection E as <-. simpl. split; [done|].
      right. right. apply andb_true_iff in Hc as [Hc Hh%Z.leb_le].
      apply andb_true_iff in Hc as [Hc _]. apply andb_true_iff in Hc as [_ Hc]. done.
Qed.

(** X20. Once open, the battle gate stays open.  Along every step of the page
    the experience and the level do not go down and the unlocked sections
    only grow, so a player who is ready for battle stays ready; and the
    battle starts and ends only by its two buttons: it begins with "Start
    Battle" and ends with "Try Again", pressed at 0 health, which restores
    the full health. *)
Theorem battle_gate_stays_open (w : World) (e : Event) (w' : World) :
  reachable w -> step e w = Some w' ->
  experience (st_gameState w) <= experience (st_gameState w') /\
  level (st_gameState w) <= level (st_gameState w') /\
  (readyForBattle (st_gameState w) = true -> readyForBattle (st_gameState w') = true) /\
  (isInBattle (st_gameState w) = false -> isInBattle (st_gameState w') = true ->
     e = ClickStartBattle) /\
  (isInBattle (st_gameState w) = true -> isInBattle (st_gameState w') = false ->
     e = ClickTryAgain /\ health (st_gameState w) = 0 /\
     health (st_gameState w') = maxHealth (st_gameState w')).
Proof.
  intros Hw Hstep.
  pose proof (reachable_kept w Hw) as [Hlevel _ _ _ _ _ _ _ _ _ _].
  pose proof (reachable_kept w' (reachable_step w e w' Hw Hstep)) as [Hlevel' _ _ _ _ _ _ _ _ _ _].
  pose proof (reachable_bounded w Hw) as [Hhealth _ _ _ _ _].
  destruct (step_progress e w w' Hstep) as [Hexp Hbattle].
  assert (Hlevels : level (st_gameState w) <= level (st_gameState w')).
  { rewrite Hlevel, Hlevel'. pose proof (Z.div_le_mono _ _ 1000 ltac:(lia) Hexp). lia. }
  split_and!; try done.
  - unfold readyForBattle. rewrite !andb_true_iff, !Z.leb_le. intros [Hlen Hl]. split; [|lia].
    destruct (sections_step e w w' Hstep) as [Hs|(section & _ & Hs)];
      unfold sections in Hs; rewrite Hs; [done|].
    rewrite length_app. lia.
  - intros Hoff Hon.
    destruct Hbattle as [Hb|[(-> & _)|(_ & Hb & _)]]; [congruence | done | congruence].
  - intros Hon Hoff.
    destruct Hbattle as [Hb|[(_ & Hb & _)|(-> & _ & _ & Hh & Hfull)]];
      [congruence | congruence |].
    split_and!; [done | lia | done].
Qed.

Lemma battle_gate_stays_open_witness :
  exists w',
    step (ClickUnlock 0) (initialWorld 0) = Some w' /\
    experience (st_gameState w') = 100 /\
    level (st_gameState (initialWorld 0)) <= level (st_gameState w').
Proof.
  destruct (run_observed (fun w => experience (st_gameState w)) [ClickUnlock 0] 0 100
              ltac:(vm_compute; reflexivity))
    as (w' & Hrun & _ & Hseen).
  apply run_single in Hrun.
  exists w'. split; [exact Hrun|]. split; [exact Hseen|].
  exact (proj1 (proj2 (battle_gate_stays_open (initialWorld 0) (ClickUnlock 0) w'
                         (reachable_initial 0) Hrun))).
Defined.

(** ** No flag without its timer *)

Lemma pending_setTimeout (cb cb' : Callback) (delay : Z) (w : World) :
  pending cb w -> pending cb (setTimeout cb' delay w).
Proof.
  intros (t & Hin & Hcb). exists t. split; [|done]. simpl. apply elem_of_app. by left.
Qed.

Lemma pending_setTimeout_new (cb : Callback) (delay : Z) (w : World) :
  pending cb (setTimeout cb delay w).
Proof.
  exists (mkTimer (clock w + delay) cb). split; [|done]. simpl. apply elem_of_app. right. left.
Qed.

Lemma armed_setTimeout (cb : Callback) (delay : Z) (w : World) :
  armed w -> armed (setTimeout cb delay w).
Proof.
  intros [Hi Ha Hp Hl]. constructor; simpl.
  - intros H. by apply pending_setTimeout, Hi.
  - intros H. by apply pending_setTimeout, Ha.
  - intros H. by apply pending_setTimeout, Hp.
  - intros attack Hin. destruct (Hl attack Hin) as [gameState H].
    exists gameState. by apply pending_setTimeout.
Qed.

Lemma armed_handlePlayerHit (gameState : GameState) (damage : Z) (w : World) :
  armed w -> armed (handlePlayerHit gameState damage w).
Proof.
  intros Hw. unfold handlePlayerHit. destruct (invulnerable gameState); [done|].
  set (w1 := setGameState _ w).
  assert (Hw1 : armed (setTimeout EndInvulnerability 1000 w)) by by apply armed_setTimeout.
  destruct Hw1 as [_ Ha Hp Hl]. constructor; try done.
  intros _. apply pending_setTimeout_new.
Qed.

Lemma armed_handlePlayerAttack (gameState : GameState) (w : World) :
  armed w -> armed (handlePlayerAttack gameState w).
Proof.
  intros Hw. unfold handlePlayerAttack. cbv zeta. destruct (_ <? 500); [done|].
  assert (Hw1 : armed (setTimeout ResetAttackAnimation 300 w)) by by apply armed_setTimeout.
  destruct Hw1 as [Hi _ Hp Hl].
  destruct (Math_sqrt_lt _ _); constructor; try done; intros _; apply pending_setTimeout_new.
Qed.

Lemma armed_handleDragonAttack (gameState : GameState) (attack : DragonAttack) (w : World) :
  armed w -> armed (handleDragonAttack gameState attack w).
Proof.
  intros Hw. unfold handleDragonAttack. cbv zeta.
  assert (Hw1 : armed (setTimeout (RemoveAttack gameState attack)
                         (DragonAttack.duration attack) w)) by by apply armed_setTimeout.
  destruct Hw1 as [Hi Ha Hp Hl]. constructor; try done.
  intros a [Hin| ->%list_elem_of_singleton]%elem_of_app.
  - by apply Hl.
  - exists gameState. apply pending_setTimeout_new.
Qed.

Lemma armed_gainExperience (amount : Z) (w : World) : armed w -> armed (gainExperience amount w).
Proof.
  intros Hw. unfold gainExperience. cbv zeta. destruct (_ <? _); [|by destruct Hw].
  assert (Hw1 : armed (setTimeout HideParticles 2000 w)) by by apply armed_setTimeout.
  destruct Hw1 as [Hi Ha _ Hl]. constructor; try done.
  intros _. apply pending_setTimeout_new.
Qed.

Lemma armed_craftEquipment (gameState : GameState) (item : string) (cost : gmap string Z)
  (w : World) :
  armed w -> armed (craftEquipment gameState item cost w).
Proof.
  intros Hw. unfold craftEquipment. destruct (canCraft gameState cost); [|done].
  apply armed_gainExperience. by destruct Hw.
Qed.

Lemma pick_timer_split (ts : list Timer) (t : Timer) (rest : list Timer) :
  pick_timer ts = Some (t, rest) -> forall x, x ∈ ts -> x = t \/ x ∈ rest.
Proof.
  revert t rest. induction ts as [|t0 ts IH]; intros t rest; simpl; [done|].
  destruct (pick_timer ts) as [[t' rest']|] eqn:E.
  - destruct (due t0 <=? due t'); intros [= <- <-] x [->|Hx]%elem_of_cons.
    + by left.
    + by right.
    + right. left.
    + destruct (IH _ _ eq_refl x Hx) as [->|Hr]; [by left | right; by right].
  - intros [= <- <-] x [->|Hx]%elem_of_cons; [by left|].
    destruct ts; [by apply elem_of_nil in Hx | simpl in E; by repeat case_match].
Qed.

(** The timers left once [t] was picked still hold every callback other
    than the one of [t]. *)
Lemma pending_rest (cb : Callback) (t : Timer) (rest : list Timer) (w : World) :
  pick_timer (timers w) = Some (t, rest) -> callback t <> cb ->
  pending cb w -> pending cb (setTimers rest w).
Proof.
  intros Hpick Hne (x & Hin & Hcb). exists x. split; [|done]. simpl.
  destruct (pick_timer_split _ _ _ Hpick x Hin) as [->|Hr]; [done | done].
Qed.

Lemma armed_fired (t : Timer) (rest : list Timer) (w : World) :
  pick_timer (timers w) = Some (t, rest) -> armed w ->
  armed (run_callback (callback t) (setTimers rest w)).
Proof.
  intros Hpick [Hi Ha Hp Hl].
  destruct (callback t) as [| |gameState attack|] eqn:Hcb; simpl.
  - constructor; simpl; try done.
    + intros H. apply (pending_rest _ t); [done | congruence | by apply Hi].
    + intros H. apply (pending_rest _ t); [done | congruence | by apply Hp].
    + intros a Hin. destruct (Hl a Hin) as [gs H]. exists gs.
      apply (pending_rest _ t); [done | congruence | done].
  - constructor; simpl; try done.
    + intros H. apply (pending_rest _ t); [done | congruence | by apply Ha].
    + intros H. apply (pending_rest _ t); [done | congruence | by apply Hp].
    + intros a Hin. destruct (Hl a Hin) as [gs H]. exists gs.
      apply (pending_rest _ t); [done | congruence | done].
  - assert (Hw1 : armed
       (setHasHit (fun ids => filter (fun i => i ≠ DragonAttack.id attack) ids)
          (setDragonAttacks
             (fun prev => filter (fun a => DragonAttack.id a ≠ DragonAttack.id attack) prev)
             (setTimers rest w)))).
    { constructor; simpl.
      - intros H. apply (pending_rest _ t); [done | congruence | by apply Hi].
      - intros H. apply (pending_rest _ t); [done | congruence | by apply Ha].
      - intros H. apply (pending_rest _ t); [done | congruence | by apply Hp].
      - intros a [Hid Hin]%list_elem_of_filter. destruct (Hl a Hin) as [gs H]. exists gs.
        apply (pending_rest _ t); [done | | done].
        rewrite Hcb. intros [= _ ->]. done. }
    destruct (DragonAttack.type attack); try done.
    destruct (aoe_in_radius gameState attack); [|done].
    by apply armed_handlePlayerHit.
  - constructor; simpl; try done.
    + intros H. apply (pending_rest _ t); [done | congruence | by apply Hi].
    + intros H. apply (pending_rest _ t); [done | congruence | by apply Ha].
    + intros a Hin. destruct (Hl a Hin) as [gs H]. exists gs.
      apply (pending_rest _ t); [done | congruence | done].
Qed.

Lemma armed_frame (inp : FrameInput) (w : World) : armed w -> armed (frame inp w).
Proof.
  intros Hw. unfold frame. cbv zeta.
  match goal with |- armed (setLastFrame _ ?w1) => cut (armed w1) end.
  { by intros []. }
  apply (foldl_preserves armed).
  - destruct (st_dragonBoss w) as [st|]; [|done].
    unfold DragonBoss_useFrame. cbv zeta. destruct (Qle_bool _ _); [|by destruct Hw].
    match goal with
    | |- armed (setDragonBoss _ (handleDragonAttack ?g ?a ?w0)) =>
        pose proof (armed_handleDragonAttack g a w0 Hw) as Hw1
    end.
    by destruct Hw1.
  - intros w0 attack _ Hw0. unfold Scene_attack.
    destruct (DragonAttack.type attack); try done.
    unfold Fireball_useFrame, Fireball_step. cbv zeta.
    destruct (bool_decide _); [done|]. destruct (Fireball_collides _ _); [|done].
    apply armed_handlePlayerHit. by destruct Hw0.
Qed.

Lemma armed_commit (w : World) : armed w -> armed (commit w).
Proof. intros Hw. unfold commit. by repeat case_match; destruct Hw. Qed.

Lemma armed_handle (e : Event) (w w' : World) : armed w -> handle e w = Some w' -> armed w'.
Proof.
  intros Hw. destruct e; simpl.
  - case_match; [|done]. intros [= <-]. by destruct Hw.
  - destruct (pick_timer (timers w)) as [[t rest]|] eqn:E; [|done].
    case_match; [|done]. intros [= <-]. by apply armed_fired.
  - case_match; [|done]. intros [= <-]. by apply armed_frame.
  - intros [= <-]. unfold dodge_keyDown, Character_keyDown.
    pose proof (armed_handlePlayerAttack (st_gameState w) w Hw) as Ha.
    destruct (isInBattle (st_gameState w) && (_ || _));
      destruct (bool_decide (key = "shift") && _); try done.
    + by destruct Ha.
    + by destruct Hw.
  - intros [= <-]. unfold dodge_keyUp. by destruct (bool_decide _); destruct Hw.
  - destruct (unlockButtons !! i) as [[[section amount] items]|] eqn:E; [|done].
    case_match; [done|]. intros [= <-].
    assert (Hg : armed (gainExperience amount (unlockSection section w))).
    { apply armed_gainExperience. by destruct Hw. }
    by destruct Hg.
  - destruct (experiences !! i) as [rewards|] eqn:E; [|done]. intros [= <-].
    pose proof (armed_gainExperience (or0 (rewards !! "experience")) w Hw) as Hg.
    by destruct Hg.
  - destruct (skills !! i) as [lvl|] eqn:E; [|done]. intros [= <-].
    pose proof (armed_gainExperience lvl w Hw) as Hg. by destruct Hg.
  - destruct (projects !! i) as [rewards|] eqn:E; [|done]. intros [= <-].
    pose proof (armed_gainExperience (or0 (rewards !! "experience")) w Hw) as Hg.
    by destruct Hg.
  - destruct (craftButtons !! i) as [[[item cost] disabled]|] eqn:E; [|done].
    case_match; [done|]. intros [= <-]. by apply armed_craftEquipment.
  - case_match; [|done]. intros [= <-]. by destruct Hw.
  - case_match; [|done]. intros [= <-]. by destruct Hw.
Qed.

Lemma reachable_armed (w : World) : reachable w -> armed w.
Proof.
  induction 1 as [t0|w e w' _ IH Hstep].
  - constructor; simpl; try done. by intros a ?%elem_of_nil.
  - unfold step in Hstep. destruct (handle e w) as [w1|] eqn:E; [|done].
    injection Hstep as <-. apply armed_commit. by eapply armed_handle.
Qed.

(** X21. No flag is left without the timer that clears it.  In every reachable
    world an invulnerable player has an armed timer that ends the
    invulnerability, an attack animation one that resets it, shown
    particles one that hides them, and every attack in [dragonAttacks] has
    its removal armed: none of them can stay for ever. *)
Theorem flags_have_timers (w : World) :
  reachable w ->
  (invulnerable (st_gameState w) = true -> pending EndInvulnerability w) /\
  (isAttacking (st_gameState w) = true -> pending ResetAttackAnimation w) /\
  (st_showParticles w = true -> pending HideParticles w) /\
  (forall attack, attack ∈ st_dragonAttacks w ->
     exists gameState, pending (RemoveAttack gameState attack) w).
Proof. by intros [? ? ? ?]%reachable_armed. Qed.

Lemma flags_have_timers_witness :
  exists w,
    run first_hit (initialWorld 0) = Some w /\ invulnerable (st_gameState w) = true /\
    pending EndInvulnerability w.
Proof.
  destruct (run_observed (fun w => invulnerable (st_gameState w)) first_hit 0 true
              ltac:(vm_compute; reflexivity))
    as (w & Hrun & Hreach & Hseen).
  exists w. split; [exact Hrun|]. split; [exact Hseen|].
  exact (proj1 (flags_have_timers w Hreach) Hseen).
Defined.

(** ** The pace of the dragon *)

Lemma to_wait_bounds (st : DragonBossState) : (0 <= to_wait st <= 2)%Q.
Proof. unfold to_wait. minmax. Qed.

Lemma to_wait_ready (st : DragonBossState) : (attackCooldown st <= 0)%Q -> (to_wait st == 0)%Q.
Proof. intros Hc. unfold to_wait. minmax. Qed.

Lemma to_wait_after_attack (c : Q) (n : nat) :
  (2 <= c)%Q -> (to_wait (mkDragonBossState c n) == 2)%Q.
Proof. intros Hc. unfold to_wait. simpl. minmax. Qed.

Lemma to_wait_cooled (st : DragonBossState) (delta : Q) :
  (0 <= delta)%Q ->
  (to_wait st - delta
   <= to_wait (mkDragonBossState (Math_max0Q (attackCooldown st - delta))
                 (currentAttackPattern st)))%Q.
Proof. intros Hdelta. unfold to_wait, Math_max0Q. simpl. minmax. Qed.

(** What a frame does to the hooks of [DragonBoss] and to the clocks. *)
Lemma frame_boss (inp : FrameInput) (w : World) :
  st_dragonBoss (frame inp w)
  = (fun st =>
       (DragonBoss_useFrame (dragonPosition (st_gameState w)) (playerPosition (st_gameState w))
          (handleDragonAttack (st_gameState w)) (elapsedTime w) (frameDelta w) inp st w).1)
    <$> st_dragonBoss w /\
  lastFrame (frame inp w) = clock w.
Proof.
  unfold frame. cbv zeta.
  set (next := fun st : DragonBossState =>
         (DragonBoss_useFrame (dragonPosition (st_gameState w))
            (playerPosition (st_gameState w)) (handleDragonAttack (st_gameState w))
            (elapsedTime w) (frameDelta w) inp st w).1).
  match goal with
  | |- context [setLastFrame _ ?w1] =>
      change (st_dragonBoss w1 = next <$> st_dragonBoss w /\ clock w1 = clock w)
  end.
  apply (foldl_preserves
           (fun w1 => st_dragonBoss w1 = next <$> st_dragonBoss w /\ clock w1 = clock w)).
  - destruct (st_dragonBoss w) as [st|] eqn:E; [|by rewrite E]. subst next. simpl.
    unfold DragonBoss_useFrame. cbv zeta. by destruct (Qle_bool _ _).
  - intros w1 attack _ [Hb Hc]. unfold Scene_attack.
    destruct (DragonAttack.type attack); try done.
    unfold Fireball_useFrame, Fireball_step. cbv zeta.
    destruct (bool_decide _); [done|]. destruct (Fireball_collides _ _); [|done].
    unfold handlePlayerHit. by destruct (invulnerable _).
Qed.

Lemma paced_frame (made0 lastFrame0 : Z) (inp : FrameInput) (w : World) :
  valid_input inp = true -> lastFrame w <= clock w ->
  paced made0 lastFrame0 w -> paced made0 lastFrame0 (frame inp w).
Proof.
  intros Hvalid Hclock (st & Hst & Hpace).
  destruct (frame_boss inp w) as [Hboss Hlast].
  rewrite Hst in Hboss. cbn [fmap option_fmap option_map] in Hboss.
  unfold paced, attacks_made in *. rewrite Hst in Hpace. rewrite Hboss, Hlast.
  eexists. split; [done|].
  assert (Htime : (inject_Z (clock w - lastFrame0) / 1000
                   == inject_Z (lastFrame w - lastFrame0) / 1000 + frameDelta w)%Q).
  { unfold frameDelta. rewrite !inject_Z_sub. field. }
  assert (Hdelta : (0 <= frameDelta w)%Q).
  { unfold frameDelta. apply Qle_shift_div_l; [done|]. rewrite Qmult_0_l.
    change 0%Q with (inject_Z 0). rewrite <- Zle_Qle. lia. }
  rewrite Htime.
  unfold DragonBoss_useFrame. cbv zeta.
  destruct (Qle_bool (attackCooldown st) 0) eqn:Hready; simpl.
  - apply Qle_bool_iff in Hready.
    apply valid_input_iff in Hvalid as (_ & Hr2 & _).
    rewrite to_wait_after_attack by lra.
    pose proof (to_wait_ready st Hready) as Hzero. rewrite Hzero in Hpace.
    rewrite Nat2Z.inj_add, inject_Z_plus. change (inject_Z (Z.of_nat 1)) with 1%Q. lra.
  - pose proof (to_wait_cooled st (frameDelta w) Hdelta). lra.
Qed.

Lemma paced_step (made0 lastFrame0 : Z) (e : Event) (w w' : World) :
  reachable w -> e <> ClickTryAgain -> step e w = Some w' ->
  paced made0 lastFrame0 w -> paced made0 lastFrame0 w'.
Proof.
  intros Hw Hne Hstep Hpace.
  pose proof (reachable_mounted w Hw) as Hm.
  destruct (ordinary e) eqn:Hord.
  - destruct (quiet_step e w w' Hm Hord Hstep) as [_ Hboss Hlast _].
    unfold paced, attacks_made in *. by rewrite Hboss, Hlast.
  - destruct Hpace as (st & Hst & Hpace).
    unfold mounted in Hm. rewrite Hst in Hm.
    unfold step in Hstep. destruct e; try done; simpl in Hstep.
    + destruct (valid_input inp) eqn:Hvalid; [|done]. injection Hstep as <-.
      pose proof (reachable_kept w Hw) as [_ _ _ _ _ _ _ _ _ _ Hclock].
      pose proof (paced_frame made0 lastFrame0 inp w Hvalid Hclock
                    (ex_intro _ st (conj Hst Hpace))) as Hnext.
      rewrite commit_when_mounted; [done|].
      destruct Hnext as (st' & Hst' & _). unfold mounted. rewrite Hst'.
      by rewrite (proj1 (frame_gameState inp w)).
    + by rewrite Hm, andb_false_r in Hstep.
Qed.

Lemma run_app (events1 events2 : list Event) (w : World) :
  run (events1 ++ events2) w = run events1 w ≫= run events2.
Proof.
  revert w. induction events1 as [|e events1 IH]; intros w; simpl; [done|].
  by destruct (step e w).
Qed.

Lemma paced_run (made0 lastFrame0 : Z) (events : list Event) (w w' : World) :
  reachable w -> ClickTryAgain ∉ events -> run events w = Some w' ->
  paced made0 lastFrame0 w -> paced made0 lastFrame0 w'.
Proof.
  revert w. induction events as [|e events IH]; intros w Hw Hnot; simpl.
  - by intros [= <-].
  - destruct (step e w) as [w1|] eqn:E; [|done]. intros Hrun Hpace.
    apply not_elem_of_cons in Hnot as [Hne Hnot].
    apply (IH w1); [by eapply reachable_step | done | done |].
    by eapply paced_step.
Qed.

(** X22. The dragon attacks at most once every two seconds.  While one
    [DragonBoss] stays mounted, from any reachable world and along any
    events but "Try Again", the attacks it makes after the first are paid
    for by two seconds of frame time each: with [n] attacks made between
    the last frame before the run and the last frame of the run, these two
    frames are at least [2000 * (n - 1)] ms apart. *)
Theorem DragonBoss_attacks_two_seconds_apart (w w' : World) (events : list Event) :
  reachable w -> is_Some (st_dragonBoss w) -> ClickTryAgain ∉ events ->
  run events w = Some w' ->
  is_Some (st_dragonBoss w') /\
  2000 * (attacks_made w' - attacks_made w - 1) <= lastFrame w' - lastFrame w.
Proof.
  intros Hw [st Hst] Hnot Hrun.
  assert (Hstart : paced (attacks_made w) (lastFrame w) w).
  { exists st. split; [done|]. pose proof (to_wait_bounds st).
    rewrite Z.sub_diag. unfold Qdiv. rewrite Qmult_0_l. lra. }
  destruct (paced_run _ _ events w w' Hw Hnot Hrun Hstart) as (st' & Hst' & Hpace).
  split; [by eexists|].
  pose proof (to_wait_bounds st') as Hwait.
  rewrite Zle_Qle, inject_Z_mult, !inject_Z_sub.
  change (inject_Z 2000) with 2000%Q. change (inject_Z 1) with 1%Q.
  assert (Hdiv : (inject_Z (lastFrame w' - lastFrame w) / 1000 * 1000
                  == inject_Z (lastFrame w') - inject_Z (lastFrame w))%Q).
  { rewrite inject_Z_sub. field. }
  lra.
Qed.

Lemma DragonBoss_attacks_two_seconds_apart_witness :
  exists w w',
    run to_battle (initialWorld 0) = Some w /\
    run (battle_round 10000) w = Some w' /\
    (attacks_made w, lastFrame w) = (0, 0) /\
    (attacks_made w', lastFrame w') = (4, 18048) /\
    2000 * (attacks_made w' - attacks_made w - 1) <= lastFrame w' - lastFrame w.
Proof.
  destruct (run_observed (fun w => (st_dragonBoss w, attacks_made w, lastFrame w)) to_battle 0
              (Some (mkDragonBossState 0 0), 0, 0) ltac:(vm_compute; reflexivity))
    as (w & Hrun & Hreach & Hseen).
  destruct (run_observed (fun w => (attacks_made w, lastFrame w))
              (to_battle ++ battle_round 10000) 0 (4, 18048) ltac:(vm_compute; reflexivity))
    as (w' & Hrun' & _ & Hseen').
  rewrite run_app, Hrun in Hrun'.
  exists w, w'. split; [exact Hrun|]. split; [exact Hrun'|].
  split; [exact (f_equal (fun p => (p.1.2, p.2)) Hseen)|]. split; [exact Hseen'|].
  refine (proj2 (DragonBoss_attacks_two_seconds_apart w w' (battle_round 10000) Hreach _ _ Hrun')).
  - exists (mkDragonBossState 0 0). exact (f_equal (fun p => p.1.1) Hseen).
  - unfold battle_round. repeat (apply not_elem_of_cons; split; [discriminate|]).
    apply not_elem_of_nil.
Defined.

(** ** Sections and stations *)

(** Only an unlock button changes the collection, by appending the section
    it names. *)
Lemma sections_step_named (e : Event) (w w' : World) :
  step e w = Some w' ->
  sections w' = sections w \/
  exists section, section ∈ section_names /\ sections w' = sections w ++ [section].
Proof.
  unfold step. destruct (handle e w) as [w1|] eqn:E; [|done]. intros [= <-].
  rewrite sections_commit.
  destruct (ordinary e) eqn:Hord; [|destruct e; try done; simpl in E].
  - destruct e; try done; simpl in E.
    + case_match; [|done]. injection E as <-. by left.
    + destruct (pick_timer (timers w)) as [[t rest]|]; [|done].
      case_match; [|done]. injection E as <-. left. by rewrite sections_run_callback.
    + injection E as <-. left. unfold dodge_keyDown, Character_keyDown.
      destruct (bool_decide (key = "shift") && _); destruct (isInBattle _ && _);
        try done; apply sections_handlePlayerAttack.
    + injection E as <-. left. unfold dodge_keyUp. by destruct (bool_decide _).
    + destruct (unlockButtons !! i) as [[[section amount] items]|] eqn:Hi; [|done].
      case_match; [done|]. injection E as <-. right. exists section. split.
      * destruct i as [|[|[|[|?]]]]; simpl in Hi; simplify_eq;
          apply list_elem_of_In; simpl; tauto.
      * by rewrite sections_addToInventory, sections_gainExperience.
    + destruct (experiences !! i); [|done]. injection E as <-. left.
      by rewrite sections_addToInventory, sections_gainExperience.
    + destruct (skills !! i); [|done]. injection E as <-. left.
      by rewrite sections_addToInventory, sections_gainExperience.
    + destruct (projects !! i); [|done]. injection E as <-. left.
      by rewrite sections_addToInventory, sections_gainExperience.
    + destruct (craftButtons !! i) as [[[item cost] disabled]|]; [|done].
      case_match; [done|]. injection E as <-. left. apply sections_craftEquipment.
  - case_match; [|done]. injection E as <-. left. apply sections_frame.
  - case_match; [|done]. injection E as <-. by left.
  - case_match; [|done]. injection E as <-. by left.
Qed.

Lemma reachable_sections_named (w : World) :
  reachable w -> forall section, section ∈ sections w -> section ∈ section_names.
Proof.
  induction 1 as [t0|w e w' _ IH Hstep]; [by intros section ?%elem_of_nil|].
  intros section.
  destruct (sections_step_named e w w' Hstep) as [->|(new & Hnew & ->)]; [by apply IH|].
  intros [Hin| ->%list_elem_of_singleton]%elem_of_app; [by apply IH | done].
Qed.

(** The stations that are unlocked are as many as the names of
    [section_names] found in the collection. *)
Lemma unlocked_stations_count (gameState : GameState) :
  unlocked_stations gameState
  = length (filter (fun name => name ∈ unlockedSections gameState) section_names).
Proof.
  unfold unlocked_stations, portfolioStations, section_names.
  rewrite !filter_cons, filter_nil. simpl.
  repeat (case_bool_decide; simpl); repeat case_decide; simpl; try done.
Qed.

(** X23. The sections, the stations and the battle gate.  In every reachable
    world the unlocked sections are among the four names of the unlock
    buttons, each at most once: the count shown as "n/4" never exceeds 4
    and is the number of unlocked stations, and [readyForBattle] holds
    exactly when all four stations are unlocked and the level is 5 or
    more.  A click on a station calls [onStationInteract] exactly outside
    battle and when the station is unlocked. *)
Theorem stations_follow_sections (w : World) :
  reachable w ->
  let gameState := st_gameState w in
  (forall section, section ∈ unlockedSections gameState -> section ∈ section_names) /\
  (length (unlockedSections gameState) <= 4)%nat /\
  unlocked_stations gameState = length (unlockedSections gameState) /\
  (readyForBattle gameState = true <->
   Forall (fun station => station.2 = true) (portfolioStations gameState) /\
   5 <= level gameState) /\
  (forall index title,
     Scene_stationClick gameState index = Some title <->
     isInBattle gameState = false /\
     exists position, portfolioStations gameState !! index = Some (position, title, true)).
Proof.
  intros Hw. cbv zeta.
  pose proof (reachable_sections_named w Hw) as Hnamed.
  pose proof (reachable_sections_NoDup w Hw) as Hnodup.
  unfold sections in *.
  assert (Hcount : unlocked_stations (st_gameState w)
                   = length (unlockedSections (st_gameState w))).
  { rewrite unlocked_stations_count. apply Permutation_length, NoDup_Permutation.
    - apply NoDup_filter, (bool_decide_unpack _). by vm_compute.
    - done.
    - intros name. rewrite list_elem_of_filter. split; [by intros [? _] | intros H; split; auto]. }
  assert (Hle : (unlocked_stations (st_gameState w) <= 4)%nat).
  { unfold unlocked_stations. etransitivity; [apply length_filter|]. done. }
  split_and!; try done.
  - lia.
  - unfold readyForBattle. rewrite andb_true_iff, !Z.leb_le, <- Hcount.
    unfold unlocked_stations, portfolioStations in *.
    rewrite !filter_cons, filter_nil in *. rewrite !Forall_cons, Forall_nil. simpl in *.
    repeat case_bool_decide; repeat case_decide; simpl in *; try done;
      split; intros [? ?]; try lia; try (split; [|done]; split_and!; done);
      split_and!; try done; naive_solver.
  - intros index title. unfold Scene_stationClick.
    destruct (isInBattle (st_gameState w)); [split; [done | by intros [? _]]|].
    destruct (portfolioStations (st_gameState w) !! index) as [[[position name] []]|] eqn:Hi.
    + split; [intros [= <-]; split; [done | by eexists] | by intros (_ & ? & [= _ ->])].
    + split; [done | by intros (_ & ? & ?)].
    + split; [done | by intros (_ & ? & ?)].
Qed.

Lemma stations_follow_sections_witness :
  exists w,
    run to_battle (initialWorld 0) = Some w /\
    unlocked_stations (st_gameState w) = 4%nat /\
    (length (unlockedSections (st_gameState w)) <= 4)%nat.
Proof.
  destruct (run_observed (fun w => unlocked_stations (st_gameState w)) to_battle 0 4%nat
              ltac:(vm_compute; reflexivity))
    as (w & Hrun & Hreach & Hseen).
  exists w. split; [exact Hrun|]. split; [exact Hseen|].
  exact (proj1 (proj2 (stations_follow_sections w Hreach))).
Defined.

(** ** The battle and its gate *)

Lemma ready_step (e : Event) (w w' : World) :
  reachable w -> step e w = Some w' ->
  readyForBattle (st_gameState w) = true -> readyForBattle (st_gameState w') = true.
Proof.
  intros Hw Hstep.
  pose proof (reachable_kept w Hw) as [Hlevel _ _ _ _ _ _ _ _ _ _].
  pose proof (reachable_kept w' (reachable_step w e w' Hw Hstep)) as [Hlevel' _ _ _ _ _ _ _ _ _ _].
  destruct (step_progress e w w' Hstep) as [Hexp _].
  rewrite !readyForBattle_iff. intros [Hlen Hl]. split.
  - destruct (sections_step e w w' Hstep) as [Hs|(section & _ & Hs)];
      unfold sections in Hs; rewrite Hs; [done|].
    rewrite length_app. simpl. lia.
  - rewrite Hlevel'. rewrite Hlevel in Hl.
    pose proof (Z.div_le_mono _ _ 1000 ltac:(lia) Hexp). lia.
Qed.

Lemma reachable_battle_ready (w : World) :
  reachable w -> isInBattle (st_gameState w) = true -> readyForBattle (st_gameState w) = true.
Proof.
  induction 1 as [t0|w e w' Hw IH Hstep]; [done|].
  intros Hon.
  destruct (step_progress e w w' Hstep) as [_ [Hb|[(-> & _)|(_ & _ & Hb & _)]]].
  - apply (ready_step e w w' Hw Hstep), IH. congruence.
  - apply (ready_step ClickStartBattle w w' Hw Hstep).
    unfold step in Hstep. simpl in Hstep.
    by destruct (readyForBattle (st_gameState w)).
  - congruence.
Qed.

(** X4. The dragon is fought by a ready player only.  A battle starts
    behind the gate of line 872 and nothing closes the gate afterwards: in
    every reachable world in battle the player is ready, the unlocked
    sections are the four of the unlock buttons, the experience is 4000 or
    more and the maximal health 180 or more, and the battle section does
    not show the requirements. *)
Theorem battle_only_when_ready (w : World) :
  reachable w -> isInBattle (st_gameState w) = true ->
  let gameState := st_gameState w in
  readyForBattle gameState = true /\
  unlockedSections gameState ≡ₚ section_names /\
  4000 <= experience gameState /\
  180 <= maxHealth gameState /\
  battleSection gameState <> Requirements.
Proof.
  intros Hw Hon. cbv zeta.
  pose proof (reachable_battle_ready w Hw Hon) as Hready.
  pose proof (reachable_kept w Hw) as [Hlevel Hexp Hmh _ _ _ _ _ _ _ _].
  pose proof (reachable_sections_named w Hw) as Hnamed.
  pose proof (reachable_sections_NoDup w Hw) as Hnodup.
  unfold sections in *.
  destruct (proj1 (readyForBattle_iff _) Hready) as [Hlen Hl].
  split_and!.
  - done.
  - apply submseteq_length_Permutation; [by apply NoDup_submseteq|].
    change (length section_names) with 4%nat. lia.
  - rewrite Hlevel in Hl.
    pose proof (Z.mul_div_le (experience (st_gameState w)) 1000 ltac:(lia)). lia.
  - lia.
  - unfold battleSection. rewrite Hready, Hon. simpl. by repeat case_match.
Qed.

(** The first battle has just begun. *)
Lemma battle_only_when_ready_witness :
  exists w,
    run to_battle (initialWorld 0) = Some w /\
    isInBattle (st_gameState w) = true /\
    180 <= maxHealth (st_gameState w).
Proof.
  destruct (run_observed (fun w => isInBattle (st_gameState w)) to_battle 0 true
              ltac:(vm_compute; reflexivity))
    as (w & Hrun & Hreach & Hseen).
  exists w. split; [exact Hrun|]. split; [exact Hseen|].
  exact (proj1 (proj2 (proj2 (proj2 (battle_only_when_ready w Hreach Hseen))))).
Defined.

(** ** The aoe indicator *)

(** X24. The aoe indicator shows where the damage falls.  For an aoe attack
    [Scene] mounts an indicator at the attack's target with radius 3 for
    the attack's duration, and the removal callback hits the player exactly
    when the player position it holds is less than that radius from that
    point.  The drawn plane is a square whose half side pulses between 80%
    and 100% of the radius; fireballs get a [Fireball] and the other kinds
    get nothing. *)
Theorem aoe_indicator_matches_damage (gameState : GameState) (attack : DragonAttack) :
  match DragonAttack.type attack with
  | aoe =>
      exists position radius,
        Scene_attack attack
        = Some (AOEIndicatorComponent position radius (DragonAttack.duration attack)) /\
        position = DragonAttack.target attack /\
        (aoe_in_radius gameState attack = true <->
         (planar2 (playerPosition gameState) position < radius * radius)%Q) /\
        (forall sinPulse, (-1 <= sinPulse <= 1)%Q ->
           (0.8 * radius <= AOEIndicator_halfSide radius sinPulse <= radius)%Q)
  | fireball => Scene_attack attack = Some (FireballComponent attack)
  | _ => Scene_attack attack = None
  end.
Proof.
  unfold Scene_attack. destruct (DragonAttack.type attack); try done.
  exists (DragonAttack.target attack), 3%Q. split_and!; try done.
  - unfold aoe_in_radius. apply Math_sqrt_lt_iff.
  - intros sinPulse Hsin. unfold AOEIndicator_halfSide, AOEIndicator_pulse.
    split; [|].
    + assert (H : (3 * 2 * (sinPulse * 0.1 + 0.9) / 2 == 3 * (sinPulse * 0.1 + 0.9))%Q)
        by field.
      rewrite H. lra.
    + assert (H : (3 * 2 * (sinPulse * 0.1 + 0.9) / 2 == 3 * (sinPulse * 0.1 + 0.9))%Q)
        by field.
      rewrite H. lra.
Qed.
